(** * RTMP relay: chunk handler, session and broadcaster

    A shallow embedding of the chunk handler (chunk header parsing, message
    reassembly, acknowledgement bookkeeping, chunked writing), of the session
    callbacks (connect, publish, play, audio and video messages) and of the
    broadcaster, with the properties of the specification stated over them. *)

From Stdlib Require Import ZArith List Lia Bool String.
From Stdlib Require Import Strings.Byte.
From stdpp Require Import base option list gmap strings.
Import ListNotations.

Local Open Scope Z_scope.

(** ** Machine integers and bytes *)

(** Go's [uint32] and [uint8] arithmetic wraps around. *)
Definition uint32 (z : Z) : Z := z mod 2 ^ 32.
Definition uint8 (z : Z) : Z := z mod 2 ^ 8.

(** The numeric value of a byte, and the byte of a [uint8] value. *)
Definition byteZ (b : byte) : Z := Z.of_N (Byte.to_N b).
Definition byteOfZ (z : Z) : byte :=
  match Byte.of_N (Z.to_N (uint8 z)) with
  | Some b => b
  | None => x00
  end.

(** [binary.BigEndian.Uint16], [binary.BigEndian.Uint32] on a 3-byte field
    prefixed with a zero byte, [binary.BigEndian.Uint32] and
    [binary.LittleEndian.Uint32]. *)
Definition BigEndianUint16 (b0 b1 : byte) : Z :=
  Z.lor (Z.shiftl (byteZ b0) 8) (byteZ b1).
Definition BigEndianUint24 (b0 b1 b2 : byte) : Z :=
  Z.lor (Z.lor (Z.shiftl (byteZ b0) 16) (Z.shiftl (byteZ b1) 8)) (byteZ b2).
Definition BigEndianUint32 (b0 b1 b2 b3 : byte) : Z :=
  Z.lor (Z.lor (Z.lor (Z.shiftl (byteZ b0) 24) (Z.shiftl (byteZ b1) 16))
                (Z.shiftl (byteZ b2) 8)) (byteZ b3).
Definition LittleEndianUint32 (b0 b1 b2 b3 : byte) : Z :=
  Z.lor (Z.lor (Z.lor (byteZ b0) (Z.shiftl (byteZ b1) 8))
                (Z.shiftl (byteZ b2) 16)) (Z.shiftl (byteZ b3) 24).

(** ** Results of fallible code *)

Inductive error : Type :=
| EOF
| ErrUnexpectedEOF
| ErrUnknownChunkType
| ErrAssemble (cause : error).

(** A call returns a value, returns a Go [error], panics (nil dereference,
    slice or index out of range), or is cut off by the recursion bound of a
    loop of the model. *)
Inductive result (A : Type) : Type :=
| Ok (a : A)
| Err (e : error)
| Panic
| OutOfFuel.
Arguments Ok {A} a.
Arguments Err {A} e.
Arguments Panic {A}.
Arguments OutOfFuel {A}.

(** ** Package constants *)

Module constants.
Definition DefaultClientWindowSize : Z := 2500000.
Definition DefaultPublishStream : Z := 0.
Definition DefaultChunkSize : Z := 4096.
Definition DefaultStreamID : Z := 1.
End constants.

Definition ChunkType0 : Z := 0.
Definition ChunkType1 : Z := 1.
Definition ChunkType2 : Z := 2.
Definition ChunkType3 : Z := 3.

Definition ProtocolChannel : Z := 2.
Definition AudioChannel : Z := 4.
Definition VideoChannel : Z := 5.

Definition DefaultMaximumChunkSize : Z := 128.

Definition LimitHard : Z := 0.
Definition LimitSoft : Z := 1.
Definition LimitDynamic : Z := 2.
Definition LimitNotSet : Z := 3.

(** ** Chunk handler: data *)

Record ChunkBasicHeader : Type := mkChunkBasicHeader {
  FMT : Z;
  ChunkStreamID : Z
}.

Record ChunkMessageHeader : Type := mkChunkMessageHeader {
  Timestamp : Z;
  MessageLength : Z;
  MessageTypeID : Z;
  MessageStreamID : Z
}.

(** [BasicHeader] and [MessageHeader] are pointers: [None] is [nil]. *)
Record ChunkHeader : Type := mkChunkHeader {
  BasicHeader : option ChunkBasicHeader;
  MessageHeader : option ChunkMessageHeader;
  ExtendedTimestamp : Z;
  ElapsedTime : Z
}.

(** The zero value [ChunkHeader{}], also what a map lookup of an absent
    chunk stream id yields. *)
Definition zeroChunkHeader : ChunkHeader := mkChunkHeader None None 0 0.

(** What is handed to the buffered writer: the byte messages built by the
    [generate...] functions of the message layer are kept symbolic, the bytes
    written by [send] are kept as bytes. *)
Inductive Written : Type :=
| generateAckMessage (sequenceNumber : Z)
| generateWindowAckSizeMessage (size : Z)
| generateSetPeerBandwidthMessage (size limit : Z)
| generateStreamBeginMessage (streamID : Z)
| generateSetChunkSizeMessage (size : Z)
| generateConnectResponseSuccess (csID : Z)
| Raw (bytes : list byte).

(** [socketr] is the input still to be read, [socketw] what has been written
    (oldest first). *)
Record ChunkHandler : Type := mkChunkHandler {
  socketr : list byte;
  socketw : list Written;
  prevChunkHeader : gmap Z ChunkHeader;
  inChunkSize : Z;
  outChunkSize : Z;
  windowAckSize : Z;
  bytesReceived : Z;
  outBandwidth : Z;
  limit : Z;
  ackSent : bool
}.

Definition NewChunkHandler (reader : list byte) : ChunkHandler :=
  {| socketr := reader;
     socketw := [];
     prevChunkHeader := ∅;
     inChunkSize := DefaultMaximumChunkSize;
     outChunkSize := DefaultMaximumChunkSize;
     windowAckSize := 0;
     bytesReceived := 0;
     outBandwidth := 0;
     limit := 0;
     ackSent := false |}.

Definition set_socketr (r : list byte) (ch : ChunkHandler) : ChunkHandler :=
  mkChunkHandler r (socketw ch) (prevChunkHeader ch) (inChunkSize ch)
    (outChunkSize ch) (windowAckSize ch) (bytesReceived ch) (outBandwidth ch)
    (limit ch) (ackSent ch).
Definition set_socketw (w : list Written) (ch : ChunkHandler) : ChunkHandler :=
  mkChunkHandler (socketr ch) w (prevChunkHeader ch) (inChunkSize ch)
    (outChunkSize ch) (windowAckSize ch) (bytesReceived ch) (outBandwidth ch)
    (limit ch) (ackSent ch).
Definition set_prevChunkHeader (m : gmap Z ChunkHeader) (ch : ChunkHandler)
  : ChunkHandler :=
  mkChunkHandler (socketr ch) (socketw ch) m (inChunkSize ch)
    (outChunkSize ch) (windowAckSize ch) (bytesReceived ch) (outBandwidth ch)
    (limit ch) (ackSent ch).
Definition set_inChunkSize (n : Z) (ch : ChunkHandler) : ChunkHandler :=
  mkChunkHandler (socketr ch) (socketw ch) (prevChunkHeader ch) n
    (outChunkSize ch) (windowAckSize ch) (bytesReceived ch) (outBandwidth ch)
    (limit ch) (ackSent ch).
Definition set_outChunkSize (n : Z) (ch : ChunkHandler) : ChunkHandler :=
  mkChunkHandler (socketr ch) (socketw ch) (prevChunkHeader ch)
    (inChunkSize ch) n (windowAckSize ch) (bytesReceived ch) (outBandwidth ch)
    (limit ch) (ackSent ch).
Definition set_windowAckSize (n : Z) (ch : ChunkHandler) : ChunkHandler :=
  mkChunkHandler (socketr ch) (socketw ch) (prevChunkHeader ch)
    (inChunkSize ch) (outChunkSize ch) n (bytesReceived ch) (outBandwidth ch)
    (limit ch) (ackSent ch).
Definition set_bytesReceived (n : Z) (ch : ChunkHandler) : ChunkHandler :=
  mkChunkHandler (socketr ch) (socketw ch) (prevChunkHeader ch)
    (inChunkSize ch) (outChunkSize ch) (windowAckSize ch) n (outBandwidth ch)
    (limit ch) (ackSent ch).
Definition set_ackSent (b : bool) (ch : ChunkHandler) : ChunkHandler :=
  mkChunkHandler (socketr ch) (socketw ch) (prevChunkHeader ch)
    (inChunkSize ch) (outChunkSize ch) (windowAckSize ch) (bytesReceived ch)
    (outBandwidth ch) (limit ch) b.

(** [socketw.Write(message); socketw.Flush()]. Writes to the buffered writer
    are taken to succeed. *)
Definition write (m : Written) (ch : ChunkHandler) : ChunkHandler :=
  set_socketw (socketw ch ++ [m]) ch.

(** ** A state and error monad for the methods of the chunk handler *)

Definition M (A : Type) : Type := ChunkHandler -> result (A * ChunkHandler).

Definition ret {A} (a : A) : M A := fun ch => Ok (a, ch).
Definition bind {A B} (m : M A) (f : A -> M B) : M B :=
  fun ch =>
    match m ch with
    | Ok (a, ch') => f a ch'
    | Err e => Err e
    | Panic => Panic
    | OutOfFuel => OutOfFuel
    end.
Definition fail {A} (e : error) : M A := fun _ => Err e.
Definition panic {A} : M A := fun _ => Panic.
Definition get : M ChunkHandler := fun ch => Ok (ch, ch).
Definition modify (f : ChunkHandler -> ChunkHandler) : M unit :=
  fun ch => Ok (tt, f ch).

Notation "'do' x <- m ;; k" := (bind m (fun x => k))
  (at level 10, x name, m at level 99, k at level 200).
Notation "'run' m ;; k" := (bind m (fun _ => k))
  (at level 10, m at level 99, k at level 200).

(** Dereference of a pointer: [nil] panics. *)
Definition deref {A} (p : option A) : M A :=
  match p with
  | Some a => ret a
  | None => panic
  end.

(** [socketr.ReadByte()]. The reader holds the bytes the peer sends before
    it closes the connection, so a read fails at the end of the input only;
    other errors of the connection are left out. *)
Definition ReadByte : M byte :=
  fun ch =>
    match socketr ch with
    | [] => Err EOF
    | b :: r => Ok (b, set_socketr r ch)
    end.

(** [io.ReadFull(socketr, buf)] for a buffer of [n] bytes: an empty buffer is
    filled without reading; otherwise [io.EOF] when nothing is left and
    [io.ErrUnexpectedEOF] when fewer than [n] bytes are left. *)
Definition ReadFull (n : nat) : M (list byte) :=
  fun ch =>
    if (n <=? length (socketr ch))%nat
    then Ok (take n (socketr ch), set_socketr (drop n (socketr ch)) ch)
    else match socketr ch with
         | [] => Err EOF
         | _ :: _ => Err ErrUnexpectedEOF
         end.

(** ** Chunk handler: reading chunk headers *)

(** [chunkHandler.prevChunkHeader[csid]]: the zero header when absent. *)
Definition prevHeader (ch : ChunkHandler) (csid : Z) : ChunkHeader :=
  default zeroChunkHeader (prevChunkHeader ch !! csid).

Definition set_BasicHeader (b : ChunkBasicHeader) (h : ChunkHeader)
  : ChunkHeader :=
  mkChunkHeader (Some b) (MessageHeader h) (ExtendedTimestamp h)
    (ElapsedTime h).
Definition set_MessageHeader (m : ChunkMessageHeader) (h : ChunkHeader)
  : ChunkHeader :=
  mkChunkHeader (BasicHeader h) (Some m) (ExtendedTimestamp h) (ElapsedTime h).
Definition set_ExtendedTimestamp (t : Z) (h : ChunkHeader) : ChunkHeader :=
  mkChunkHeader (BasicHeader h) (MessageHeader h) t (ElapsedTime h).
Definition set_ElapsedTime (t : Z) (h : ChunkHeader) : ChunkHeader :=
  mkChunkHeader (BasicHeader h) (MessageHeader h) (ExtendedTimestamp h) t.

Definition readBasicHeader (header : ChunkHeader) : M ChunkHeader :=
  do b <- ReadByte ;;
  let fmt := Z.shiftr (byteZ b) 6 in
  let csid := Z.land (byteZ b) 63 in
  if csid =? 0 then
    do id <- ReadByte ;;
    ret (set_BasicHeader (mkChunkBasicHeader fmt (uint32 (byteZ id + 64)))
           header)
  else if csid =? 1 then
    do id <- ReadFull 2 ;;
    match id with
    | [b0; b1] =>
        run modify (fun ch =>
              set_bytesReceived (uint32 (bytesReceived ch + 2)) ch) ;;
        ret (set_BasicHeader
               (mkChunkBasicHeader fmt (uint32 (BigEndianUint16 b0 b1 + 64)))
               header)
    | _ => panic
    end
  else
    ret (set_BasicHeader (mkChunkBasicHeader fmt csid) header).

Definition readMessageHeader (header : ChunkHeader) : M ChunkHeader :=
  do bh <- deref (BasicHeader header) ;;
  let csid := ChunkStreamID bh in
  if FMT bh =? ChunkType0 then
    do messageHeader <- ReadFull 11 ;;
    match messageHeader with
    | [t0; t1; t2; l0; l1; l2; ty; s0; s1; s2; s3] =>
        ret (set_MessageHeader
               {| Timestamp := BigEndianUint24 t0 t1 t2;
                  MessageLength := BigEndianUint24 l0 l1 l2;
                  MessageTypeID := byteZ ty;
                  MessageStreamID := LittleEndianUint32 s0 s1 s2 s3 |}
               header)
    | _ => panic
    end
  else if FMT bh =? ChunkType1 then
    do messageHeader <- ReadFull 7 ;;
    match messageHeader with
    | [t0; t1; t2; l0; l1; l2; ty] =>
        do ch <- get ;;
        do prev <- deref (MessageHeader (prevHeader ch csid)) ;;
        ret (set_MessageHeader
               {| Timestamp := BigEndianUint24 t0 t1 t2;
                  MessageLength := BigEndianUint24 l0 l1 l2;
                  MessageTypeID := byteZ ty;
                  MessageStreamID := MessageStreamID prev |}
               header)
    | _ => panic
    end
  else if FMT bh =? ChunkType2 then
    do messageHeader <- ReadFull 3 ;;
    match messageHeader with
    | [t0; t1; t2] =>
        do ch <- get ;;
        do prev <- deref (MessageHeader (prevHeader ch csid)) ;;
        ret (set_MessageHeader
               {| Timestamp := BigEndianUint24 t0 t1 t2;
                  MessageLength := MessageLength prev;
                  MessageTypeID := MessageTypeID prev;
                  MessageStreamID := MessageStreamID prev |}
               header)
    | _ => panic
    end
  else if FMT bh =? ChunkType3 then
    do ch <- get ;;
    do prev <- deref (MessageHeader (prevHeader ch csid)) ;;
    ret (set_MessageHeader
           {| Timestamp := 0;
              MessageLength := MessageLength prev;
              MessageTypeID := MessageTypeID prev;
              MessageStreamID := MessageStreamID prev |}
           header)
  else fail ErrUnknownChunkType.

Definition readExtendedTimestamp (header : ChunkHeader) : M ChunkHeader :=
  do extendedTimestamp <- ReadFull 4 ;;
  match extendedTimestamp with
  | [b0; b1; b2; b3] =>
      ret (set_ExtendedTimestamp (BigEndianUint32 b0 b1 b2 b3) header)
  | _ => panic
  end.

Definition ReadChunkHeader : M ChunkHeader :=
  do ch0 <- readBasicHeader zeroChunkHeader ;;
  do ch1 <- readMessageHeader ch0 ;;
  do mh <- deref (MessageHeader ch1) ;;
  do chx <- (if Timestamp mh =? 16777215
             then do c <- readExtendedTimestamp ch1 ;; ret (c, true)
             else ret (ch1, false)) ;;
  let '(ch2, isExtendedTimestamp) := chx in
  do bh <- deref (BasicHeader ch2) ;;
  let csid := ChunkStreamID bh in
  do handler <- get ;;
  let ch3 :=
    if FMT bh =? ChunkType0 then
      if isExtendedTimestamp
      then set_ElapsedTime (ExtendedTimestamp ch2) ch2
      else set_ElapsedTime (Timestamp mh) ch2
    else
      if isExtendedTimestamp
      then set_ElapsedTime
             (uint32 (ElapsedTime (prevHeader handler csid)
                      + ExtendedTimestamp ch2)) ch2
      else set_ElapsedTime
             (uint32 (ElapsedTime (prevHeader handler csid) + Timestamp mh))
             ch2 in
  run modify (fun h =>
        set_prevChunkHeader (<[csid := ch3]> (prevChunkHeader h)) h) ;;
  ret ch3.

(** ** Chunk handler: reading chunk data *)

(** [io.ReadFull(socketr, payload[lo:hi])]: the slice expression panics
    unless [0 <= lo <= hi <= cap(payload)]; the bytes read overwrite that
    part of the buffer. *)
Definition readInto (payload : list byte) (lo hi : Z) : M (list byte) :=
  if (0 <=? lo) && (lo <=? hi) && (hi <=? Z.of_nat (length payload)) then
    do data <- ReadFull (Z.to_nat (hi - lo)) ;;
    ret (take (Z.to_nat lo) payload ++ data ++ drop (Z.to_nat hi) payload)
  else panic.

(** The error of a failed [ReadChunkHeader] inside [assembleMessage] is
    wrapped in a new error. *)
Definition wrapAssembleError {A} (m : M A) : M A :=
  fun ch =>
    match m ch with
    | Err e => Err (ErrAssemble e)
    | r => r
    end.

(** The loop [for bytesRead < messageLength] of [assembleMessage]. Every
    turn reads a chunk header, so at least one byte: [fuel] bounds the number
    of turns. *)
Fixpoint assembleLoop (fuel : nat) (messageLength bytesRead : Z)
    (payload : list byte) : M (list byte) :=
  if bytesRead <? messageLength then
    match fuel with
    | O => fun _ => OutOfFuel
    | S fuel' =>
        run wrapAssembleError ReadChunkHeader ;;
        do handler <- get ;;
        if uint32 (bytesRead + inChunkSize handler) <? messageLength then
          do payload' <- readInto payload bytesRead
                           (uint32 (bytesRead + inChunkSize handler)) ;;
          assembleLoop fuel' messageLength
            (uint32 (bytesRead + inChunkSize handler)) payload'
        else
          let remainingBytes := uint32 (messageLength - bytesRead) in
          do payload' <- readInto payload bytesRead
                           (uint32 (bytesRead + remainingBytes)) ;;
          assembleLoop fuel' messageLength
            (uint32 (bytesRead + remainingBytes)) payload'
    end
  else ret payload.

Definition assembleMessage (messageLength : Z) : M (list byte) :=
  do handler <- get ;;
  let payload := replicate (Z.to_nat messageLength) x00 in
  do payload' <- readInto payload 0 (inChunkSize handler) ;;
  let bytesRead := inChunkSize handler in
  do handler' <- get ;;
  assembleLoop (S (length (socketr handler'))) messageLength bytesRead
    payload'.

Definition ReadChunkData (header : ChunkHeader) : M (list byte) :=
  do mh <- deref (MessageHeader header) ;;
  let messageLength := MessageLength mh in
  do handler <- get ;;
  if messageLength >? inChunkSize handler then
    assembleMessage messageLength
  else
    ReadFull (Z.to_nat messageLength).

(** ** Chunk handler: acknowledgements and control settings *)

Definition sendAck (ch : ChunkHandler) : ChunkHandler :=
  let ch1 := write (generateAckMessage (bytesReceived ch)) ch in
  let ch2 := set_bytesReceived 0 ch1 in
  set_ackSent true ch2.

Definition updateBytesReceived (i : Z) (ch : ChunkHandler) : ChunkHandler :=
  let ch1 := set_bytesReceived (uint32 (bytesReceived ch + i)) ch in
  if bytesReceived ch1 >=? windowAckSize ch1 then sendAck ch1 else ch1.

Definition sendWindowAckSize (size : Z) (ch : ChunkHandler) : ChunkHandler :=
  write (generateWindowAckSizeMessage size) ch.

Definition sendSetPeerBandWidth (size limit : Z) (ch : ChunkHandler)
  : ChunkHandler :=
  write (generateSetPeerBandwidthMessage size limit) ch.

Definition sendBeginStream (streamID : Z) (ch : ChunkHandler) : ChunkHandler :=
  write (generateStreamBeginMessage streamID) ch.

Definition sendSetChunkSize (size : Z) (ch : ChunkHandler) : ChunkHandler :=
  set_outChunkSize size (write (generateSetChunkSizeMessage size) ch).

Definition sendConnectSuccess (csID : Z) (ch : ChunkHandler) : ChunkHandler :=
  write (generateConnectResponseSuccess csID) ch.

Definition SetChunkSize (size : Z) (ch : ChunkHandler) : ChunkHandler :=
  set_inChunkSize size ch.

Definition SetWindowAckSize (size : Z) (ch : ChunkHandler) : ChunkHandler :=
  let ch1 := if negb (ackSent ch) then sendAck ch else ch in
  set_windowAckSize size ch1.

(** The body of [SetBandwidth] holds comments only. *)
Definition SetBandwidth (size limitType : Z) (ch : ChunkHandler)
  : ChunkHandler := ch.

(** ** Chunk handler: writing a message *)

(** [payload[lo:hi]]. *)
Definition slice (payload : list byte) (lo hi : Z) : list byte :=
  take (Z.to_nat (hi - lo)) (drop (Z.to_nat lo) payload).

(** The loop [for bytesWritten < payloadLength] of [send]; its counters are
    Go [int]s. Writes are taken to succeed, so the exits of the source on a
    failed write are left out. With a chunk size of 0 the loop of the source
    ends through such an exit only: [fuel] bounds the number of turns. *)
Fixpoint sendLoop (fuel : nat) (chunk3Header : byte) (chunkSize : Z)
    (payload : list byte) (bytesWritten : Z) (firstPayloadChunk : bool)
    : M unit :=
  let payloadLength := Z.of_nat (length payload) in
  if bytesWritten <? payloadLength then
    match fuel with
    | O => fun _ => OutOfFuel
    | S fuel' =>
        run (if negb firstPayloadChunk
             then modify (write (Raw [chunk3Header]))
             else ret tt) ;;
        if bytesWritten + chunkSize <? payloadLength then
          run modify (write (Raw (slice payload bytesWritten
                                    (bytesWritten + chunkSize)))) ;;
          sendLoop fuel' chunk3Header chunkSize payload
            (bytesWritten + chunkSize) false
        else
          let remainingBytes := payloadLength - bytesWritten in
          run modify (write (Raw (slice payload bytesWritten
                                    (bytesWritten + remainingBytes)))) ;;
          sendLoop fuel' chunk3Header chunkSize payload
            (bytesWritten + remainingBytes) false
    end
  else ret tt.

Definition send (header payload : list byte) : M unit :=
  run modify (write (Raw header)) ;;
  do handler <- get ;;
  if Z.of_nat (length payload) >? outChunkSize handler then
    match header with
    | [] => panic
    | h0 :: _ =>
        let chunk3Header :=
          byteOfZ (Z.lor (uint8 (Z.shiftl ChunkType3 6))
                     (Z.land (byteZ h0) 63)) in
        let chunkSize := outChunkSize handler in
        sendLoop (length payload) chunk3Header chunkSize payload 0 true
    end
  else
    modify (write (Raw payload)).

Definition sendBytes (bytes : list byte) (ch : ChunkHandler) : ChunkHandler :=
  write (Raw bytes) ch.

(** ** Packages [amf], [audio] and [video] *)

Module amf.

(** A value of type [any] held in a metadata map. Numbers are never
    inspected by the code modelled here. *)
Inductive any : Type :=
| anyNil
| anyString (s : string)
| anyBool (b : bool)
| anyNumber (n : Z).

(** [strings.EqualFold] on ASCII text: letters compare without case. *)
Definition lower (c : Ascii.ascii) : Ascii.ascii :=
  let n := Ascii.nat_of_ascii c in
  if ((65 <=? n) && (n <=? 90))%nat then Ascii.ascii_of_nat (n + 32) else c.
Fixpoint EqualFold (s t : string) : bool :=
  match s, t with
  | EmptyString, EmptyString => true
  | String a s', String b t' =>
      if Ascii.eqb (lower a) (lower b) then EqualFold s' t' else false
  | _, _ => false
  end.

(** [type Metadata map[string]any], as the list of its entries in the
    order in which [range] visits them. Go draws that order anew for every
    [range] loop: one list stands for one visit, and two visits of the same
    map are two lists with the same entries. *)
Definition Metadata : Type := list (string * any).

Fixpoint Get (m : Metadata) (key : string) : any :=
  match m with
  | [] => anyNil
  | (k, v) :: m' => if EqualFold k key then v else Get m' key
  end.

(** [GetString] returns the string and whether it was found (the source
    returns an error value otherwise, and the empty string). *)
Definition GetString (m : Metadata) (key : string) : string * bool :=
  match Get m key with
  | anyString str => (str, true)
  | _ => (EmptyString, false)
  end.

End amf.

(** Modelled from the spec: packages [audio] and [video] are not part of the
    sources at hand. Byte 0 of an audio or video payload carries the format
    or codec id, byte 1 the AAC or AVC packet type, and a packet type of 0
    marks the sequence header; the format id of AAC is 10 and the codec id of
    H.264 is 7. *)
Module audio.
Definition Format : Type := Z.
Definition AAC : Format := 10.
Definition AACPacketType (b : byte) : Z := byteZ b.
Definition AACSequenceHeader : Z := 0.
End audio.

Module video.
Definition Codec : Type := Z.
Definition H264 : Codec := 7.
Definition AVCPacketType (b : byte) : Z := byteZ b.
Definition AVCSequenceHeader : Z := 0.
End video.

(** ** Message manager, subscribers and the context store *)

(** The calls a session makes on its message manager, which formats and
    sends the message. *)
Module MessageManager.
Inductive Call : Type :=
| sendWindowAckSize (size : Z)
| sendSetPeerBandWidth (size limit : Z)
| sendBeginStream (streamID : Z)
| sendSetChunkSize (size : Z)
| sendConnectSuccess (csID : Z)
| sendOnFCPublish (csID transactionID : Z) (streamKey : string)
| sendCreateStreamResponse (csID transactionID : Z)
| sendStatusMessage (level code description : string) (rest : list string)
| sendAudio (payload : list byte) (timestamp : Z)
| sendVideo (payload : list byte) (timestamp : Z)
| sendMetadata (metadata : amf.Metadata)
| SetChunkSize (size : Z)
| SetWindowAckSize (size : Z)
| SetBandwidth (size limitType : Z).
End MessageManager.

(** A subscriber is a session behind the [Subscriber] interface; it is
    known here by its session id. *)
Definition Subscriber : Type := string.

(** Errors returned by the context store. *)
Inductive storeError : Type :=
| AlreadyExists
| NotFound.

(** The interface [ContextStore] the broadcaster delegates to, over a state
    of type [C]. *)
Module Context.
Class Store (C : Type) : Type := {
  RegisterPublisher : string -> C -> C * option storeError;
  DestroyPublisher : string -> C -> C * option storeError;
  RegisterSubscriber : string -> Subscriber -> C -> C * option storeError;
  DestroySubscriber : string -> string -> C -> C * option storeError;
  StreamExists : string -> C -> bool;
  GetSubscribersForStream : string -> C -> list Subscriber + storeError;
  SetAvcSequenceHeaderForPublisher : string -> list byte -> C -> C;
  GetAvcSequenceHeaderForPublisher : string -> C -> option (list byte);
  SetAacSequenceHeaderForPublisher : string -> list byte -> C -> C;
  GetAacSequenceHeaderForPublisher : string -> C -> option (list byte)
}.
End Context.

(** ** Session *)

(** A callback of a client session: a function of the embedding program. *)
Inductive Callback : Type := callback.

Record Session : Type := mkSession {
  id : string;
  active : bool;
  OnAudio : option Callback;
  OnVideo : option Callback;
  OnMetadata : option Callback;
  app : string;
  flashVer : string;
  swfUrl : string;
  tcUrl : string;
  amfType : string;
  streamKey : string;
  publishingType : string;
  isPublisher : bool;
  isPlayer : bool;
  isClient : bool
}.

Record SessionGuard : Type := mkSessionGuard {
  Check : Session -> bool
}.

(** What a session callback does to the outside, in order: calls on the
    message manager of a session (its own, or that of a subscriber the
    broadcaster fans out to), calls of client callbacks, and the updates it
    asks of the context store. *)
Inductive Event : Type :=
| Sent (session : string) (call : MessageManager.Call)
| CalledOnAudio (session : string) (payload : list byte) (timestamp : Z)
| CalledOnVideo (session : string) (payload : list byte) (timestamp : Z)
| CalledRegisterPublisher (streamKey : string)
| CalledRegisterSubscriber (streamKey : string) (subscriber : Subscriber)
| CalledSetAacSequenceHeader (streamKey : string) (payload : list byte)
| CalledSetAvcSequenceHeader (streamKey : string) (payload : list byte).

Definition set_active (v : bool) (s : Session) : Session :=
  mkSession (id s) v (OnAudio s) (OnVideo s) (OnMetadata s) (app s)
    (flashVer s) (swfUrl s) (tcUrl s) (amfType s) (streamKey s)
    (publishingType s) (isPublisher s) (isPlayer s) (isClient s).
Definition set_app (v : string) (s : Session) : Session :=
  mkSession (id s) (active s) (OnAudio s) (OnVideo s) (OnMetadata s) v
    (flashVer s) (swfUrl s) (tcUrl s) (amfType s) (streamKey s)
    (publishingType s) (isPublisher s) (isPlayer s) (isClient s).
Definition set_flashVer (v : string) (s : Session) : Session :=
  mkSession (id s) (active s) (OnAudio s) (OnVideo s) (OnMetadata s) (app s)
    v (swfUrl s) (tcUrl s) (amfType s) (streamKey s)
    (publishingType s) (isPublisher s) (isPlayer s) (isClient s).
Definition set_swfUrl (v : string) (s : Session) : Session :=
  mkSession (id s) (active s) (OnAudio s) (OnVideo s) (OnMetadata s) (app s)
    (flashVer s) v (tcUrl s) (amfType s) (streamKey s)
    (publishingType s) (isPublisher s) (isPlayer s) (isClient s).
Definition set_tcUrl (v : string) (s : Session) : Session :=
  mkSession (id s) (active s) (OnAudio s) (OnVideo s) (OnMetadata s) (app s)
    (flashVer s) (swfUrl s) v (amfType s) (streamKey s)
    (publishingType s) (isPublisher s) (isPlayer s) (isClient s).
Definition set_amfType (v : string) (s : Session) : Session :=
  mkSession (id s) (active s) (OnAudio s) (OnVideo s) (OnMetadata s) (app s)
    (flashVer s) (swfUrl s) (tcUrl s) v (streamKey s)
    (publishingType s) (isPublisher s) (isPlayer s) (isClient s).
Definition set_streamKey (v : string) (s : Session) : Session :=
  mkSession (id s) (active s) (OnAudio s) (OnVideo s) (OnMetadata s) (app s)
    (flashVer s) (swfUrl s) (tcUrl s) (amfType s) v
    (publishingType s) (isPublisher s) (isPlayer s) (isClient s).
Definition set_publishingType (v : string) (s : Session) : Session :=
  mkSession (id s) (active s) (OnAudio s) (OnVideo s) (OnMetadata s) (app s)
    (flashVer s) (swfUrl s) (tcUrl s) (amfType s) (streamKey s)
    v (isPublisher s) (isPlayer s) (isClient s).
Definition set_isPublisher (v : bool) (s : Session) : Session :=
  mkSession (id s) (active s) (OnAudio s) (OnVideo s) (OnMetadata s) (app s)
    (flashVer s) (swfUrl s) (tcUrl s) (amfType s) (streamKey s)
    (publishingType s) v (isPlayer s) (isClient s).
Definition set_isPlayer (v : bool) (s : Session) : Session :=
  mkSession (id s) (active s) (OnAudio s) (OnVideo s) (OnMetadata s) (app s)
    (flashVer s) (swfUrl s) (tcUrl s) (amfType s) (streamKey s)
    (publishingType s) (isPublisher s) v (isClient s).

(** [NewSession]: a server-side session. The id is drawn at random in the
    source and is an argument here. *)
Definition NewSession (uuid : string) : Session :=
  {| id := uuid; active := true;
     OnAudio := None; OnVideo := None; OnMetadata := None;
     app := ""; flashVer := ""; swfUrl := ""; tcUrl := ""; amfType := "";
     streamKey := ""; publishingType := "";
     isPublisher := false; isPlayer := false; isClient := false |}.

Definition NewClientSession (uuid app tcUrl streamKey : string)
    (audioCallback videoCallback metadataCallback : option Callback)
  : Session :=
  {| id := uuid; active := true;
     OnAudio := audioCallback; OnVideo := videoCallback;
     OnMetadata := metadataCallback;
     app := app; flashVer := ""; swfUrl := ""; tcUrl := tcUrl; amfType := "";
     streamKey := streamKey; publishingType := "";
     isPublisher := false; isPlayer := false; isClient := true |}.

Section Sessions.

Context {C : Type} `{!Context.Store C}.

(** ** Broadcaster *)

Record broadcaster : Type := mkBroadcaster {
  appName : string;
  context : C;
  sessionGuard : option SessionGuard
}.

Definition NewBroadcaster (appName : string) (context : C) : broadcaster :=
  mkBroadcaster appName context None.

Definition set_context (c : C) (b : broadcaster) : broadcaster :=
  mkBroadcaster (appName b) c (sessionGuard b).

Definition SetSessionGuard (guard : option SessionGuard) (b : broadcaster)
  : broadcaster :=
  mkBroadcaster (appName b) (context b) guard.
Definition GetSessionGuard (b : broadcaster) : option SessionGuard :=
  sessionGuard b.
Definition AppName (b : broadcaster) : string := appName b.

(** The session a callback runs on, the broadcaster it shares with the
    other sessions, and the events so far (oldest first). *)
Record World : Type := mkWorld {
  self : Session;
  shared : broadcaster;
  events : list Event
}.

Definition set_self (s : Session) (w : World) : World :=
  mkWorld s (shared w) (events w).
Definition set_shared (b : broadcaster) (w : World) : World :=
  mkWorld (self w) b (events w).
Definition emit (es : list Event) (w : World) : World :=
  mkWorld (self w) (shared w) (events w ++ es).

(** A call [session.messageManager.f(...)]. *)
Definition messageManager (call : MessageManager.Call) (w : World) : World :=
  emit [Sent (id (self w)) call] w.

Definition RegisterPublisher (streamKey : string) (w : World)
  : World * option storeError :=
  let '(c, err) := Context.RegisterPublisher streamKey (context (shared w)) in
  (emit [CalledRegisterPublisher streamKey]
     (set_shared (set_context c (shared w)) w), err).

Definition RegisterSubscriber (streamKey : string) (subscriber : Subscriber)
    (w : World) : World * option storeError :=
  let '(c, err) :=
    Context.RegisterSubscriber streamKey subscriber (context (shared w)) in
  (emit [CalledRegisterSubscriber streamKey subscriber]
     (set_shared (set_context c (shared w)) w), err).

Definition StreamExists (streamKey : string) (w : World) : bool :=
  Context.StreamExists streamKey (context (shared w)).

Definition SetAvcSequenceHeaderForPublisher (streamKey : string)
    (payload : list byte) (w : World) : World :=
  emit [CalledSetAvcSequenceHeader streamKey payload]
    (set_shared
       (set_context
          (Context.SetAvcSequenceHeaderForPublisher streamKey payload
             (context (shared w))) (shared w)) w).

Definition GetAvcSequenceHeaderForPublisher (streamKey : string) (w : World)
  : option (list byte) :=
  Context.GetAvcSequenceHeaderForPublisher streamKey (context (shared w)).

Definition SetAacSequenceHeaderForPublisher (streamKey : string)
    (payload : list byte) (w : World) : World :=
  emit [CalledSetAacSequenceHeader streamKey payload]
    (set_shared
       (set_context
          (Context.SetAacSequenceHeaderForPublisher streamKey payload
             (context (shared w))) (shared w)) w).

Definition GetAacSequenceHeaderForPublisher (streamKey : string) (w : World)
  : option (list byte) :=
  Context.GetAacSequenceHeaderForPublisher streamKey (context (shared w)).

(** [sub.SendAudio] and [sub.SendVideo] on a subscribed session call its
    message manager. *)
Definition BroadcastAudio (streamKey : string) (audio : list byte)
    (timestamp : Z) (w : World) : World * option storeError :=
  match Context.GetSubscribersForStream streamKey (context (shared w)) with
  | inr err => (w, Some err)
  | inl subscribers =>
      (emit (map (fun sub =>
                    Sent sub (MessageManager.sendAudio audio timestamp))
               subscribers) w, None)
  end.

Definition BroadcastVideo (streamKey : string) (video : list byte)
    (timestamp : Z) (w : World) : World * option storeError :=
  match Context.GetSubscribersForStream streamKey (context (shared w)) with
  | inr err => (w, Some err)
  | inl subscribers =>
      (emit (map (fun sub =>
                    Sent sub (MessageManager.sendVideo video timestamp))
               subscribers) w, None)
  end.

(** ** Session callbacks *)

Definition storeMetadata (metadata : amf.Metadata) (s : Session) : Session :=
  let s := set_app (amf.GetString metadata "app").1 s in
  let s := set_flashVer (amf.GetString metadata "flashVer").1 s in
  let s := set_swfUrl (amf.GetString metadata "swfUrl").1 s in
  let s := set_tcUrl (amf.GetString metadata "tcUrl").1 s in
  set_amfType (amf.GetString metadata "type").1 s.

Definition onConnect (csID transactionID : Z) (data : amf.Metadata)
    (w : World) : World :=
  let w := set_self (storeMetadata data (self w)) w in
  if String.eqb (app (self w)) (AppName (shared w)) then
    let w := messageManager
               (MessageManager.sendWindowAckSize
                  constants.DefaultClientWindowSize) w in
    let w := messageManager
               (MessageManager.sendSetPeerBandWidth
                  constants.DefaultClientWindowSize LimitDynamic) w in
    let w := messageManager
               (MessageManager.sendBeginStream
                  constants.DefaultPublishStream) w in
    let w := messageManager
               (MessageManager.sendSetChunkSize constants.DefaultChunkSize)
               w in
    messageManager (MessageManager.sendConnectSuccess csID) w
  else
    set_self (set_active false (self w)) w.

Definition onSetChunkSize (size : Z) (w : World) : World :=
  messageManager (MessageManager.SetChunkSize size) w.

Definition onSetWindowAckSize (windowAckSize : Z) (w : World) : World :=
  messageManager (MessageManager.SetWindowAckSize windowAckSize) w.

Definition onSetBandwidth (windowAckSize limitType : Z) (w : World) : World :=
  messageManager (MessageManager.SetBandwidth windowAckSize limitType) w.

Definition SendEndOfStream (w : World) : World :=
  messageManager
    (MessageManager.sendStatusMessage "status" "NetStream.Play.Stop"
       "Stopped playing stream." []) w.

Definition onPublish (transactionId : Z) (streamKey publishingType : string)
    (w : World) : World :=
  let w := set_self (set_streamKey streamKey (self w)) w in
  let w := set_self (set_publishingType publishingType (self w)) w in
  let denied :=
    match GetSessionGuard (shared w) with
    | Some guard => negb (Check guard (self w))
    | None => false
    end in
  if denied then
    let w := SendEndOfStream w in
    set_self (set_active false (self w)) w
  else
    let w := messageManager
               (MessageManager.sendStatusMessage "status"
                  "NetStream.Publish.Start" "Publishing live_user_<x>" [])
               w in
    let w := set_self (set_isPublisher true (self w)) w in
    (RegisterPublisher streamKey w).1.

Definition onPlay (streamKey : string) (startTime : Z) (w : World) : World :=
  let w := set_self (set_streamKey streamKey (self w)) w in
  if negb (StreamExists streamKey w) then
    messageManager
      (MessageManager.sendStatusMessage "error"
         "NetStream.Play.StreamNotFound" "not_found" [streamKey]) w
  else
    let w := messageManager
               (MessageManager.sendStatusMessage "status"
                  "NetStream.Play.Start" "Playing stream for live_user_<x>"
                  []) w in
    let avcSeqHeader := GetAvcSequenceHeaderForPublisher streamKey w in
    let w := match avcSeqHeader with
             | Some header =>
                 messageManager (MessageManager.sendVideo header 0) w
             | None => w
             end in
    let aacSeqHeader := GetAacSequenceHeaderForPublisher streamKey w in
    let w := match aacSeqHeader with
             | Some header =>
                 messageManager (MessageManager.sendAudio header 0) w
             | None => w
             end in
    let w := set_self (set_isPlayer true (self w)) w in
    (RegisterSubscriber streamKey (id (self w)) w).1.

(** [payload[1]]: an index out of range panics. *)
Definition index1 (payload : list byte) : result byte :=
  match payload !! 1%nat with
  | Some b => Ok b
  | None => Panic
  end.

Definition onAudioMessage (format : audio.Format)
    (sampleRate sampleSize channels : Z) (payload : list byte)
    (timestamp : Z) (w : World) : result World :=
  match OnAudio (self w) with
  | Some _ => Ok (emit [CalledOnAudio (id (self w)) payload timestamp] w)
  | None =>
      if isClient (self w) then Ok w
      else
        let broadcast w :=
          Ok (BroadcastAudio (streamKey (self w)) payload timestamp w).1 in
        if format =? audio.AAC then
          match index1 payload with
          | Ok b =>
              if audio.AACPacketType b =? audio.AACSequenceHeader
              then broadcast
                     (SetAacSequenceHeaderForPublisher (streamKey (self w))
                        payload w)
              else broadcast w
          | _ => Panic
          end
        else broadcast w
  end.

Definition onVideoMessage (frameType : Z) (codec : video.Codec)
    (payload : list byte) (timestamp : Z) (w : World) : result World :=
  match OnVideo (self w) with
  | Some _ => Ok (emit [CalledOnVideo (id (self w)) payload timestamp] w)
  | None =>
      if isClient (self w) then Ok w
      else
        let broadcast w :=
          Ok (BroadcastVideo (streamKey (self w)) payload timestamp w).1 in
        if codec =? video.H264 then
          match index1 payload with
          | Ok b =>
              if video.AVCPacketType b =? video.AVCSequenceHeader
              then broadcast
                     (SetAvcSequenceHeaderForPublisher (streamKey (self w))
                        payload w)
              else broadcast w
          | _ => Panic
          end
        else broadcast w
  end.

End Sessions.

Arguments broadcaster C : clear implicits.
Arguments World C : clear implicits.

(** ** An in-memory context store *)

(** Modelled from the spec: the implementation of the context store
    ([NewInMemoryContext]) is not part of the sources at hand. The store maps
    a stream key to a publisher entry holding the subscribers (each at most
    once) and the cached AAC and AVC sequence headers. Registering a
    publisher fails with [AlreadyExists] when the key holds a publisher and
    creates an empty entry otherwise; registering a subscriber fails with
    [NotFound] without an entry and replaces an earlier registration of the
    same id; destroying a publisher removes the entry; destroying an absent
    subscriber does nothing. *)
Module InMemory.

Record entry : Type := mkEntry {
  subscribers : list Subscriber;
  aacSequenceHeader : option (list byte);
  avcSequenceHeader : option (list byte)
}.

Definition emptyEntry : entry := mkEntry [] None None.

Definition without (sessionID : string) (subs : list Subscriber)
  : list Subscriber :=
  filter (fun sub => sub <> sessionID) subs.

Definition RegisterPublisher (streamKey : string) (c : gmap string entry)
  : gmap string entry * option storeError :=
  match c !! streamKey with
  | Some _ => (c, Some AlreadyExists)
  | None => (<[streamKey := emptyEntry]> c, None)
  end.

Definition DestroyPublisher (streamKey : string) (c : gmap string entry)
  : gmap string entry * option storeError :=
  match c !! streamKey with
  | Some _ => (delete streamKey c, None)
  | None => (c, Some NotFound)
  end.

Definition RegisterSubscriber (streamKey : string) (sub : Subscriber)
    (c : gmap string entry) : gmap string entry * option storeError :=
  match c !! streamKey with
  | Some e =>
      (<[streamKey := mkEntry (without sub (subscribers e) ++ [sub])
                        (aacSequenceHeader e) (avcSequenceHeader e)]> c,
       None)
  | None => (c, Some NotFound)
  end.

Definition DestroySubscriber (streamKey sessionID : string)
    (c : gmap string entry) : gmap string entry * option storeError :=
  match c !! streamKey with
  | Some e =>
      (<[streamKey := mkEntry (without sessionID (subscribers e))
                        (aacSequenceHeader e) (avcSequenceHeader e)]> c,
       None)
  | None => (c, None)
  end.

Definition StreamExists (streamKey : string) (c : gmap string entry)
  : bool :=
  match c !! streamKey with
  | Some _ => true
  | None => false
  end.

Definition GetSubscribersForStream (streamKey : string)
    (c : gmap string entry) : list Subscriber + storeError :=
  match c !! streamKey with
  | Some e => inl (subscribers e)
  | None => inr NotFound
  end.

Definition SetAvcSequenceHeaderForPublisher (streamKey : string)
    (payload : list byte) (c : gmap string entry) : gmap string entry :=
  match c !! streamKey with
  | Some e =>
      <[streamKey := mkEntry (subscribers e) (aacSequenceHeader e)
                       (Some payload)]> c
  | None => c
  end.

Definition GetAvcSequenceHeaderForPublisher (streamKey : string)
    (c : gmap string entry) : option (list byte) :=
  match c !! streamKey with
  | Some e => avcSequenceHeader e
  | None => None
  end.

Definition SetAacSequenceHeaderForPublisher (streamKey : string)
    (payload : list byte) (c : gmap string entry) : gmap string entry :=
  match c !! streamKey with
  | Some e =>
      <[streamKey := mkEntry (subscribers e) (Some payload)
                       (avcSequenceHeader e)]> c
  | None => c
  end.

Definition GetAacSequenceHeaderForPublisher (streamKey : string)
    (c : gmap string entry) : option (list byte) :=
  match c !! streamKey with
  | Some e => aacSequenceHeader e
  | None => None
  end.

#[global] Instance store : Context.Store (gmap string entry) := {|
  Context.RegisterPublisher := RegisterPublisher;
  Context.DestroyPublisher := DestroyPublisher;
  Context.RegisterSubscriber := RegisterSubscriber;
  Context.DestroySubscriber := DestroySubscriber;
  Context.StreamExists := StreamExists;
  Context.GetSubscribersForStream := GetSubscribersForStream;
  Context.SetAvcSequenceHeaderForPublisher :=
    SetAvcSequenceHeaderForPublisher;
  Context.GetAvcSequenceHeaderForPublisher :=
    GetAvcSequenceHeaderForPublisher;
  Context.SetAacSequenceHeaderForPublisher :=
    SetAacSequenceHeaderForPublisher;
  Context.GetAacSequenceHeaderForPublisher :=
    GetAacSequenceHeaderForPublisher
|}.

Definition NewInMemoryContext : gmap string entry := ∅.

End InMemory.

(** ** Reading one message *)

(** A chunk header, then the data of its message: what the message layer
    does for every message. *)
Definition readMessage : M (ChunkHeader * list byte) :=
  do header <- ReadChunkHeader ;;
  do payload <- ReadChunkData header ;;
  ret (header, payload).

(** The header [ReadChunkHeader] builds for a type-3 chunk on chunk stream
    [csid], when [prev] is the previous header of that stream and [pm] its
    message header. *)
Definition type3Header (csid : Z) (prev : ChunkHeader)
    (pm : ChunkMessageHeader) : ChunkHeader :=
  {| BasicHeader := Some {| FMT := 3; ChunkStreamID := csid |};
     MessageHeader :=
       Some {| Timestamp := 0;
               MessageLength := MessageLength pm;
               MessageTypeID := MessageTypeID pm;
               MessageStreamID := MessageStreamID pm |};
     ExtendedTimestamp := 0;
     ElapsedTime := uint32 (ElapsedTime prev + 0) |}.

(** The bytes on the wire after the writes [w], known when only the bytes
    of [send] and [sendBytes] were written. *)
Fixpoint wireOf (w : list Written) : option (list byte) :=
  match w with
  | [] => Some []
  | Raw bytes :: w' =>
      match wireOf w' with
      | Some wire => Some (bytes ++ wire)
      | None => None
      end
  | _ :: _ => None
  end.

(** What a call returned, if it did. *)
Definition returned {A} (r : result (A * ChunkHandler)) : option A :=
  match r with
  | Ok (a, _) => Some a
  | _ => None
  end.

(** What a call returned and the state it left, if it returned. *)
Definition returned' {A} (r : result (A * ChunkHandler))
  : option (A * ChunkHandler) :=
  match r with
  | Ok x => Some x
  | _ => None
  end.

(** The header [ReadChunkHeader] builds for a type-0 chunk without extended
    timestamp. *)
Definition type0HeaderOf (b0 t0 t1 t2 l0 l1 l2 ty s0 s1 s2 s3 : byte)
  : ChunkHeader :=
  {| BasicHeader :=
       Some {| FMT := 0; ChunkStreamID := Z.land (byteZ b0) 63 |};
     MessageHeader :=
       Some {| Timestamp := BigEndianUint24 t0 t1 t2;
               MessageLength := BigEndianUint24 l0 l1 l2;
               MessageTypeID := byteZ ty;
               MessageStreamID := LittleEndianUint32 s0 s1 s2 s3 |};
     ExtendedTimestamp := 0;
     ElapsedTime := BigEndianUint24 t0 t1 t2 |}.

(** The one-byte header [send] puts before every chunk after the first. *)
Definition chunk3HeaderOf (h0 : byte) : byte :=
  byteOfZ (Z.lor (uint8 (Z.shiftl ChunkType3 6)) (Z.land (byteZ h0) 63)).

(** A call that, when it returns, leaves no more input than it found (less,
    when [strict]), and that the recursion bound of the model never cuts
    off. *)
Definition reads {A} (strict : bool) (m : M A) : Prop :=
  forall ch : ChunkHandler,
    match m ch with
    | Ok (_, ch') =>
        if strict
        then (length (socketr ch') < length (socketr ch))%nat
        else (length (socketr ch') <= length (socketr ch))%nat
    | OutOfFuel => False
    | _ => True
    end.

(** ** Scenarios *)

(** The scenarios of the specification, on the in-memory store. *)
Module Scenario.

Definition emptyWorld (uuid : string) : World (gmap string InMemory.entry) :=
  mkWorld (NewSession uuid) (NewBroadcaster "app" InMemory.NewInMemoryContext)
    [].

(** A session on the broadcaster (and after the events) of world [w]. *)
Definition join (uuid : string) (w : World (gmap string InMemory.entry))
  : World (gmap string InMemory.entry) :=
  mkWorld (NewSession uuid) (shared w) (events w).

Definition connectObject : amf.Metadata :=
  [("app", amf.anyString "app");
   ("tcUrl", amf.anyString "rtmp://host/app");
   ("flashVer", amf.anyString "LNX 9,0,124,2");
   ("capabilities", amf.anyNumber 15)].

(** Duplicate publish: a first session publishes "live", then a second
    one does. *)
Definition firstPublish : World (gmap string InMemory.entry) :=
  onPublish 1 "live" "live" (emptyWorld "session-1").
Definition beforeSecondPublish : World (gmap string InMemory.entry) :=
  join "session-2" firstPublish.

(** A guard that lets nobody publish. *)
Definition denyAll : SessionGuard := mkSessionGuard (fun _ => false).
Definition guarded : World (gmap string InMemory.entry) :=
  mkWorld (NewSession "session-1")
    (SetSessionGuard (Some denyAll)
       (NewBroadcaster "app" InMemory.NewInMemoryContext)) [].

(** Publish then play: the publisher of "abc" has sent an AVC sequence
    header and a key frame; then a player joins. *)
Definition avcSequenceHeader : list byte := [x17; x00; x00; x00; x00].
Definition keyFrame : list byte := [x17; x01; x00; x00; x00].
Definition published : result (World (gmap string InMemory.entry)) :=
  match onVideoMessage 1 video.H264 avcSequenceHeader 0
          (onPublish 1 "abc" "live" (emptyWorld "session-1")) with
  | Ok w => onVideoMessage 1 video.H264 keyFrame 40 w
  | r => r
  end.
Definition beforePlay : World (gmap string InMemory.entry) :=
  match published with
  | Ok w => join "session-2" w
  | _ => emptyWorld "session-2"
  end.

(** A type-0 chunk on chunk stream 3 (timestamp 10, a 1-byte video
    message on message stream 1), then a type-3 chunk on the same chunk
    stream. *)
Definition type0Header (csid ts len : byte) : list byte :=
  [csid; x00; x00; ts; x00; x00; len; x09; x01; x00; x00; x00].
Definition type0ThenType3 : list byte :=
  type0Header x03 x0a x01 ++ [x11] ++ [xc3; x12].
Definition afterType0 : ChunkHandler :=
  match readMessage (NewChunkHandler type0ThenType3) with
  | Ok (_, ch) => ch
  | _ => NewChunkHandler []
  end.

(** Two 3-byte messages, A on chunk stream 3 and B on chunk stream 4, sent
    with a chunk size of 2 and interleaved: first chunk of A, first chunk of
    B, last chunk of A, last chunk of B. *)
Definition payloadA : list byte := [x11; x12; x13].
Definition payloadB : list byte := [x21; x22; x23].
Definition interleaved : list byte :=
  type0Header x03 x0a x03 ++ [x11; x12]
  ++ type0Header x04 x14 x03 ++ [x21; x22]
  ++ [xc3; x13]
  ++ [xc4; x23].
Definition interleavedReader : ChunkHandler :=
  SetChunkSize 2 (NewChunkHandler interleaved).

End Scenario.

(** ** Chunk headers: what the input holds *)

(** The basic header at the start of the input, read without a handler:
    chunk type, chunk stream id, whether it is the three-byte form, and the
    input behind it. [None] when the input ends inside the basic header. *)
Definition peekBasicHeader (input : list byte)
  : option (Z * Z * bool * list byte) :=
  match input with
  | [] => None
  | b :: rest =>
      let fmt := Z.shiftr (byteZ b) 6 in
      let low := Z.land (byteZ b) 63 in
      if low =? 0 then
        match rest with
        | id :: rest' => Some (fmt, byteZ id + 64, false, rest')
        | [] => None
        end
      else if low =? 1 then
        match rest with
        | b0 :: b1 :: rest' =>
            Some (fmt, BigEndianUint16 b0 b1 + 64, true, rest')
        | _ => None
        end
      else Some (fmt, low, false, rest)
  end.

(** The number of message header bytes of a chunk of type [fmt]. *)
Definition messageHeaderSize (fmt : Z) : nat :=
  if fmt =? ChunkType0 then 11%nat
  else if fmt =? ChunkType1 then 7%nat
  else if fmt =? ChunkType2 then 3%nat
  else 0%nat.

(** A header as [ReadChunkHeader] stores it for chunk stream [csid]: both
    pointers set, every field within the range of its wire format. *)
Definition headerComplete (csid : Z) (h : ChunkHeader) : Prop :=
  exists (bh : ChunkBasicHeader) (mh : ChunkMessageHeader),
    BasicHeader h = Some bh
    /\ MessageHeader h = Some mh
    /\ ChunkStreamID bh = csid
    /\ 0 <= FMT bh <= 3
    /\ 0 <= Timestamp mh < 2 ^ 24
    /\ 0 <= MessageLength mh < 2 ^ 24
    /\ 0 <= MessageTypeID mh < 2 ^ 8
    /\ 0 <= MessageStreamID mh < 2 ^ 32
    /\ 0 <= ExtendedTimestamp h < 2 ^ 32
    /\ 0 <= ElapsedTime h < 2 ^ 32.

Definition headersComplete (ch : ChunkHandler) : Prop :=
  forall (csid : Z) (h : ChunkHeader),
    prevChunkHeader ch !! csid = Some h -> headerComplete csid h.

(** Two handlers that differ at most in the input left to read and in the
    count of bytes received. *)
Definition sameSettings (ch ch' : ChunkHandler) : Prop :=
  socketw ch' = socketw ch
  /\ prevChunkHeader ch' = prevChunkHeader ch
  /\ inChunkSize ch' = inChunkSize ch
  /\ outChunkSize ch' = outChunkSize ch
  /\ windowAckSize ch' = windowAckSize ch
  /\ outBandwidth ch' = outBandwidth ch
  /\ limit ch' = limit ch
  /\ ackSent ch' = ackSent ch.

(** The writes of [send] for a payload cut into [chunks]: the first chunk,
    then every further chunk behind the one-byte header [c3]. *)
Definition framesOf (c3 : byte) (chunks : list (list byte)) : list Written :=
  match chunks with
  | [] => []
  | first :: more =>
      Raw first :: flat_map (fun chunk => [Raw [c3]; Raw chunk]) more
  end.

(** The handler once a basic header is read: the input behind it is left,
    and the three-byte form has added 2 to the count of bytes received. *)
Definition afterBasicHeader (long : bool) (rest : list byte)
    (ch : ChunkHandler) : ChunkHandler :=
  let ch1 := set_socketr rest ch in
  if long then set_bytesReceived (uint32 (bytesReceived ch1 + 2)) ch1
  else ch1.

(** [ensures m ch Q E P]: when [m] returns from [ch], the value and the
    handler it leaves satisfy [Q]; when it fails, the error satisfies [E];
    when it panics, [P] holds. *)
Definition ensures {A} (m : M A) (ch : ChunkHandler)
    (Q : A -> ChunkHandler -> Prop) (E : error -> Prop) (P : Prop) : Prop :=
  match m ch with
  | Ok (a, ch') => Q a ch'
  | Err e => E e
  | Panic => P
  | OutOfFuel => True
  end.

(** The errors of a read that found the input too short. *)
Definition endOfInput (e : error) : Prop := e = EOF \/ e = ErrUnexpectedEOF.

(** The fields of a message header within the range of their wire format. *)
Definition messageHeaderInRange (mh : ChunkMessageHeader) : Prop :=
  0 <= Timestamp mh < 2 ^ 24
  /\ 0 <= MessageLength mh < 2 ^ 24
  /\ 0 <= MessageTypeID mh < 2 ^ 8
  /\ 0 <= MessageStreamID mh < 2 ^ 32.

(** ** Broadcaster and session: teardown *)

Section Teardown.

Context {C : Type} `{!Context.Store C}.

Definition DestroyPublisher (streamKey : string) (w : World C)
  : World C * option storeError :=
  let '(c, err) := Context.DestroyPublisher streamKey (context (shared w)) in
  (set_shared (set_context c (shared w)) w, err).

Definition DestroySubscriber (streamKey sessionID : string) (w : World C)
  : World C * option storeError :=
  let '(c, err) :=
    Context.DestroySubscriber streamKey sessionID (context (shared w)) in
  (set_shared (set_context c (shared w)) w, err).

(** [sub.SendEndOfStream()] on a subscribed session sends the
    NetStream.Play.Stop status through its message manager. *)
Definition BroadcastEndOfStream (streamKey : string) (w : World C)
  : World C :=
  match Context.GetSubscribersForStream streamKey (context (shared w)) with
  | inr _ => w
  | inl subscribers =>
      emit (map (fun sub =>
                   Sent sub
                     (MessageManager.sendStatusMessage "status"
                        "NetStream.Play.Stop" "Stopped playing stream." []))
              subscribers) w
  end.

(** The function [Start] defers: it runs when the session ends. The second
    component tells whether [guard.End] was called; the two [Destroy...]
    calls show in the context store only. *)
Definition startDeferred (w : World C) : World C * bool :=
  let w :=
    if isPlayer (self w)
    then (DestroySubscriber (streamKey (self w)) (id (self w)) w).1
    else w in
  if isPublisher (self w) then
    let w := BroadcastEndOfStream (streamKey (self w)) w in
    let w := (DestroyPublisher (streamKey (self w)) w).1 in
    match GetSessionGuard (shared w) with
    | Some _ => (w, true)
    | None => (w, false)
    end
  else (w, false).

End Teardown.

(** A publisher of "abc" with one player: session-1 publishes, session-2
    plays, and the world is seen from the publisher again. *)
Module Streaming.

Definition publisher : World (gmap string InMemory.entry) :=
  onPublish 1 "abc" "live" (Scenario.emptyWorld "session-1").

Definition player : World (gmap string InMemory.entry) :=
  onPlay "abc" 0 (Scenario.join "session-2" publisher).

Definition publisherWithPlayer : World (gmap string InMemory.entry) :=
  mkWorld (self publisher) (shared player) (events player).

Definition aacSequenceHeader : list byte := [xaf; x00; x12; x10].
Definition aacFrame : list byte := [xaf; x01; x21; x00].

End Streaming.

(** The text that [strings.EqualFold] compares: every letter in lower
    case. *)
Fixpoint foldCase (s : string) : string :=
  match s with
  | EmptyString => EmptyString
  | String a s' => String (amf.lower a) (foldCase s')
  end.

(** The values a metadata map holds under the keys that match [key]
    without regard to case. *)
Definition matching (m : list (string * amf.any)) (key : string)
  : list amf.any :=
  map snd (filter (fun kv => amf.EqualFold kv.1 key = true) m).

(** A string of ASCII characters only (every byte below 128). On such
    strings [strings.EqualFold] is the comparison of letters without case
    that [amf.EqualFold] makes. *)
Definition isASCII (s : string) : bool :=
  forallb (fun c => (Ascii.nat_of_ascii c <? 128)%nat)
    (list_ascii_of_string s).

(** A connection whose peer has sent a Window-Ack-Size of 2 and then sends
    a 1-byte message in a chunk with a three-byte basic header (chunk
    stream 65): type-0 message header with timestamp 10, message type 9,
    message stream 1. [firstChunk] is the same input on a new handler. *)
Module Window.

Definition longHeaderChunk : list byte :=
  [x01; x00; x01]
  ++ [x00; x00; x0a; x00; x00; x01; x09; x01; x00; x00; x00]
  ++ [x11].

Definition windowOfTwo : ChunkHandler :=
  SetWindowAckSize 2 (NewChunkHandler longHeaderChunk).

Definition firstChunk : ChunkHandler := NewChunkHandler longHeaderChunk.

End Window.

(** * Properties *)

(** ** Acknowledgements *)

Lemma updateBytesReceived_below (i : Z) (ch : ChunkHandler) :
  uint32 (bytesReceived ch + i) < windowAckSize ch ->
  updateBytesReceived i ch
  = set_bytesReceived (uint32 (bytesReceived ch + i)) ch.
Proof.
  intros Hlt. unfold updateBytesReceived. cbn.
  destruct (Z.geb_spec (uint32 (bytesReceived ch + i)) (windowAckSize ch));
    [lia | reflexivity].
Qed.

Lemma uint32_small (z : Z) : 0 <= z < 2 ^ 32 -> uint32 z = z.
Proof. intros H. unfold uint32. apply Z.mod_small. exact H. Qed.

Lemma uint32_range (z : Z) : 0 <= uint32 z < 2 ^ 32.
Proof. unfold uint32. apply Z.mod_pos_bound. lia. Qed.

(** When [updateBytesReceived] brings the counter to or past the window
    size, exactly one Acknowledgement carrying that running count is written,
    the counter is back at 0 and [ackSent] is set; this holds in particular
    when the threshold is met exactly, and a following update that stays
    below the window writes nothing more. *)
Lemma updateBytesReceived_at_threshold (i : Z) (ch : ChunkHandler) :
  windowAckSize ch <= uint32 (bytesReceived ch + i) ->
  let ch' := updateBytesReceived i ch in
  socketw ch'
  = socketw ch ++ [generateAckMessage (uint32 (bytesReceived ch + i))]
  /\ bytesReceived ch' = 0
  /\ ackSent ch' = true
  /\ windowAckSize ch' = windowAckSize ch
  /\ (forall j : Z, 0 <= j < windowAckSize ch -> j < 2 ^ 32 ->
        socketw (updateBytesReceived j ch') = socketw ch').
Proof.
  intros Hge ch'.
  assert (Hch' : ch' = sendAck
                         (set_bytesReceived (uint32 (bytesReceived ch + i))
                            ch)).
  { subst ch'. unfold updateBytesReceived. cbn.
    destruct (Z.geb_spec (uint32 (bytesReceived ch + i)) (windowAckSize ch));
      [reflexivity | lia]. }
  rewrite Hch'. repeat split.
  intros j Hj Hj32.
  rewrite updateBytesReceived_below; [reflexivity |].
  cbn. rewrite uint32_small; lia.
Qed.

(** ** Set-Peer-Bandwidth *)

(** C9, as stated: the handler's [outBandwidth] and [limit] become the size
    and the limit type of the message. The code leaves both as they were. *)
Lemma C9_bandwidth_fields_not_updated :
  let ch := SetBandwidth 2500000 LimitDynamic (NewChunkHandler []) in
  ~ (outBandwidth ch = 2500000 /\ limit ch = LimitDynamic).
Proof. intros ch [H _]. vm_compute in H. discriminate H. Qed.

(** C9, amended. [SetBandwidth] leaves the chunk handler as it was: neither
    [outBandwidth] nor [limit] (nor any other field) changes, and nothing is
    written. *)
Theorem C9_SetBandwidth_changes_nothing (size limitType : Z)
    (ch : ChunkHandler) :
  let ch' := SetBandwidth size limitType ch in
  outBandwidth ch' = outBandwidth ch
  /\ limit ch' = limit ch
  /\ socketw ch' = socketw ch
  /\ outChunkSize ch' = outChunkSize ch
  /\ ch' = ch.
Proof. repeat split. Qed.

(** ** Session callbacks *)

Section SessionProperties.

Context {C : Type} `{!Context.Store C}.

Implicit Types (w : World C) (s : Session).

Lemma storeMetadata_app (data : amf.Metadata) s :
  app (storeMetadata data s) = (amf.GetString data "app").1.
Proof. reflexivity. Qed.

Lemma storeMetadata_keeps (data : amf.Metadata) s :
  id (storeMetadata data s) = id s
  /\ active (storeMetadata data s) = active s
  /\ isPublisher (storeMetadata data s) = isPublisher s
  /\ isPlayer (storeMetadata data s) = isPlayer s.
Proof. repeat split. Qed.

(** C4. On a connect command whose [app] is the broadcaster's application
    name the session sends, in this order and nothing else, Window-Ack-Size,
    Set-Peer-Bandwidth with the dynamic limit, StreamBegin(0),
    Set-Chunk-Size with the configured 4096 and the connect success
    [_result], and stays as active as it was; on any other [app] it sends
    nothing and is no longer active. *)
Theorem C4_connect_sequence (csID transactionID : Z) (data : amf.Metadata)
    w :
  let w' := onConnect csID transactionID data w in
  ((amf.GetString data "app").1 = AppName (shared w) ->
     events w'
     = events w
       ++ map (Sent (id (self w)))
            [MessageManager.sendWindowAckSize 2500000;
             MessageManager.sendSetPeerBandWidth 2500000 LimitDynamic;
             MessageManager.sendBeginStream 0;
             MessageManager.sendSetChunkSize 4096;
             MessageManager.sendConnectSuccess csID]
     /\ active (self w') = active (self w))
  /\ ((amf.GetString data "app").1 <> AppName (shared w) ->
        events w' = events w /\ active (self w') = false).
Proof.
  intros w'. subst w'. unfold onConnect. cbv zeta.
  change (app (self (set_self (storeMetadata data (self w)) w)))
    with (amf.GetString data "app").1.
  change (AppName (shared (set_self (storeMetadata data (self w)) w)))
    with (AppName (shared w)).
  destruct (String.eqb_spec (amf.GetString data "app").1 (AppName (shared w)))
    as [Heq | Hne].
  - split; [intros _ | intros Hne; contradiction].
    cbn -[amf.GetString]. rewrite <- !app_assoc. split; reflexivity.
  - split; [intros Heq; contradiction | intros _].
    split; reflexivity.
Qed.

(** C5. When the broadcaster has a session guard and its check of the
    session fails, a publish command makes the session send the
    NetStream.Play.Stop status and nothing else, and clears [active]; the
    publisher mark is left as it was and the broadcaster is not touched
    (no publisher is registered). *)
Theorem C5_guard_denied_publish (transactionId : Z)
    (key publishingType : string) (guard : SessionGuard) w :
  GetSessionGuard (shared w) = Some guard ->
  Check guard (set_publishingType publishingType (set_streamKey key (self w)))
  = false ->
  let w' := onPublish transactionId key publishingType w in
  events w'
  = events w
    ++ [Sent (id (self w))
          (MessageManager.sendStatusMessage "status" "NetStream.Play.Stop"
             "Stopped playing stream." [])]
  /\ active (self w') = false
  /\ isPublisher (self w') = isPublisher (self w)
  /\ shared w' = shared w.
Proof.
  intros Hguard Hcheck w'. subst w'. unfold onPublish.
  cbn -[GetSessionGuard]. rewrite Hguard. cbn in Hcheck |- *.
  rewrite Hcheck. cbn. repeat split.
Qed.

(** A publish command that the guard does not deny: the session sends the
    NetStream.Publish.Start status, is marked as publisher and asks the
    broadcaster to register the key; the error the registration returns is
    dropped. *)
Lemma onPublish_not_denied (transactionId : Z) (key publishingType : string)
    w :
  match GetSessionGuard (shared w) with
  | Some guard =>
      Check guard
        (set_publishingType publishingType (set_streamKey key (self w)))
      = true
  | None => True
  end ->
  let w' := onPublish transactionId key publishingType w in
  events w'
  = events w
    ++ [Sent (id (self w))
          (MessageManager.sendStatusMessage "status"
             "NetStream.Publish.Start" "Publishing live_user_<x>" []);
        CalledRegisterPublisher key]
  /\ active (self w') = active (self w)
  /\ isPublisher (self w') = true
  /\ context (shared w')
     = (Context.RegisterPublisher key (context (shared w))).1.
Proof.
  intros Hguard w'. subst w'. unfold onPublish, RegisterPublisher.
  cbn -[GetSessionGuard] in *.
  destruct (GetSessionGuard (shared w)) as [guard |];
    [cbn in Hguard |- *; rewrite Hguard |]; cbn;
    destruct (Context.RegisterPublisher key (context (shared w)));
    cbn; rewrite <- app_assoc; repeat split.
Qed.

(** A play command for a key with a publisher entry marks the session as
    player. *)
Lemma onPlay_found_isPlayer (key : string) (startTime : Z) w :
  StreamExists key w = true ->
  isPlayer (self (onPlay key startTime w)) = true.
Proof.
  intros Hexists. unfold onPlay, StreamExists, RegisterSubscriber in *.
  cbn in *. rewrite Hexists. cbn.
  match goal with
  | |- context [Context.RegisterSubscriber ?k ?i ?c] =>
      destruct (Context.RegisterSubscriber k i c)
  end.
  reflexivity.
Qed.

(** What [onPlay] does when the key has no publisher entry. *)
Lemma onPlay_not_found (key : string) (startTime : Z) w :
  StreamExists key w = false ->
  onPlay key startTime w
  = messageManager
      (MessageManager.sendStatusMessage "error"
         "NetStream.Play.StreamNotFound" "not_found" [key])
      (set_self (set_streamKey key (self w)) w).
Proof.
  intros Hexists. unfold onPlay, StreamExists in *. cbn in *.
  rewrite Hexists. reflexivity.
Qed.

(** C6. A play command for a key without publisher entry makes the session
    send the error status NetStream.Play.StreamNotFound and nothing else;
    [active] and the player mark stay as they were and the broadcaster is
    not touched (no subscriber is registered), so that a later play
    command for a key that exists is served. *)
Theorem C6_play_unknown_stream (key : string) (startTime : Z) w :
  StreamExists key w = false ->
  let w' := onPlay key startTime w in
  events w'
  = events w
    ++ [Sent (id (self w))
          (MessageManager.sendStatusMessage "error"
             "NetStream.Play.StreamNotFound" "not_found" [key])]
  /\ active (self w') = active (self w)
  /\ isPlayer (self w') = isPlayer (self w)
  /\ shared w' = shared w
  /\ (forall key' : string, StreamExists key' w = true ->
        isPlayer (self (onPlay key' startTime w')) = true).
Proof.
  intros Hexists w'. subst w'. rewrite (onPlay_not_found _ _ _ Hexists).
  cbn. repeat split.
  intros key' Hexists'.
  apply (onPlay_found_isPlayer key' startTime). exact Hexists'.
Qed.

(** C7. A play command for a key with a publisher entry makes the session
    send, in this order, the NetStream.Play.Start status, the cached AVC
    sequence header (when there is one) as video with timestamp 0 and the
    cached AAC sequence header (when there is one) as audio with
    timestamp 0; only then is the session registered as subscriber of the
    key. *)
Theorem C7_play_sequence (key : string) (startTime : Z) w :
  StreamExists key w = true ->
  let w' := onPlay key startTime w in
  events w'
  = events w
    ++ [Sent (id (self w))
          (MessageManager.sendStatusMessage "status" "NetStream.Play.Start"
             "Playing stream for live_user_<x>" [])]
    ++ match GetAvcSequenceHeaderForPublisher key w with
       | Some header =>
           [Sent (id (self w)) (MessageManager.sendVideo header 0)]
       | None => []
       end
    ++ match GetAacSequenceHeaderForPublisher key w with
       | Some header =>
           [Sent (id (self w)) (MessageManager.sendAudio header 0)]
       | None => []
       end
    ++ [CalledRegisterSubscriber key (id (self w))]
  /\ isPlayer (self w') = true
  /\ active (self w') = active (self w)
  /\ context (shared w')
     = (Context.RegisterSubscriber key (id (self w)) (context (shared w))).1.
Proof.
  intros Hexists w'. subst w'.
  unfold onPlay, StreamExists, GetAvcSequenceHeaderForPublisher,
    GetAacSequenceHeaderForPublisher, RegisterSubscriber in *.
  cbn in *. rewrite Hexists. cbn.
  destruct (Context.GetAvcSequenceHeaderForPublisher key (context (shared w)));
    cbn;
    destruct (Context.GetAacSequenceHeaderForPublisher key
                (context (shared w)));
    cbn;
    destruct (Context.RegisterSubscriber key (id (self w))
                (context (shared w)));
    cbn; rewrite <- ?app_assoc; repeat split.
Qed.

Lemma index1_Ok (payload : list byte) :
  (2 <= length payload)%nat -> exists b, index1 payload = Ok b.
Proof.
  destruct payload as [| b0 [| b1 payload]]; cbn; intros Hlen; try lia.
  exists b1. reflexivity.
Qed.

Lemma index1_Panic (payload : list byte) :
  (length payload < 2)%nat -> index1 payload = Panic.
Proof.
  destruct payload as [| b0 [| b1 payload]]; cbn; intros Hlen;
    try reflexivity; lia.
Qed.


End SessionProperties.

(** ** The session callbacks on the scenarios of the specification *)

Lemma C4_connect_sequence_witness :
  let w := Scenario.emptyWorld "session-1" in
  (amf.GetString Scenario.connectObject "app").1 = AppName (shared w)
  /\ events (onConnect 3 1 Scenario.connectObject w)
     = [Sent "session-1" (MessageManager.sendWindowAckSize 2500000);
        Sent "session-1" (MessageManager.sendSetPeerBandWidth 2500000 2);
        Sent "session-1" (MessageManager.sendBeginStream 0);
        Sent "session-1" (MessageManager.sendSetChunkSize 4096);
        Sent "session-1" (MessageManager.sendConnectSuccess 3)]
  /\ (amf.GetString [("app", amf.anyString "other")] "app").1
     <> AppName (shared w)
  /\ active (self (onConnect 3 1 [("app", amf.anyString "other")] w)) = false.
Proof.
  intros w.
  assert (Hmatch : (amf.GetString Scenario.connectObject "app").1
                   = AppName (shared w)) by reflexivity.
  assert (Hother : (amf.GetString [("app", amf.anyString "other")] "app").1
                   <> AppName (shared w)) by (vm_compute; discriminate).
  split; [exact Hmatch |].
  split;
    [exact (proj1 (proj1 (C4_connect_sequence 3 1 Scenario.connectObject w)
                     Hmatch)) |].
  split; [exact Hother |].
  exact (proj2 (proj2 (C4_connect_sequence 3 1
                         [("app", amf.anyString "other")] w) Hother)).
Defined.

Lemma C5_guard_denied_publish_witness :
  let w := Scenario.guarded in
  GetSessionGuard (shared w) = Some Scenario.denyAll
  /\ events (onPublish 1 "live" "live" w)
     = [Sent "session-1"
          (MessageManager.sendStatusMessage "status" "NetStream.Play.Stop"
             "Stopped playing stream." [])]
  /\ active (self (onPublish 1 "live" "live" w)) = false
  /\ isPublisher (self (onPublish 1 "live" "live" w)) = false
  /\ context (shared (onPublish 1 "live" "live" w)) = ∅.
Proof.
  intros w.
  destruct (C5_guard_denied_publish 1 "live" "live" Scenario.denyAll w
              eq_refl eq_refl) as (Hev & Hact & Hpub & Hshared).
  split; [reflexivity |]. split; [exact Hev |]. split; [exact Hact |].
  split; [exact Hpub |]. rewrite Hshared. reflexivity.
Defined.

Lemma C6_play_unknown_stream_witness :
  let w := Scenario.emptyWorld "session-2" in
  StreamExists "missing" w = false
  /\ events (onPlay "missing" 0 w)
     = [Sent "session-2"
          (MessageManager.sendStatusMessage "error"
             "NetStream.Play.StreamNotFound" "not_found" ["missing"])]
  /\ active (self (onPlay "missing" 0 w)) = true
  /\ isPlayer (self (onPlay "missing" 0 w)) = false.
Proof.
  intros w.
  assert (Hmissing : StreamExists "missing" w = false) by reflexivity.
  destruct (C6_play_unknown_stream "missing" 0 w Hmissing)
    as (Hev & Hact & Hplayer & _).
  split; [exact Hmissing |]. split; [exact Hev |]. split; [exact Hact |].
  exact Hplayer.
Defined.

Lemma C7_play_sequence_witness :
  let w := Scenario.beforePlay in
  StreamExists "abc" w = true
  /\ events (onPlay "abc" 0 w)
     = events w
       ++ [Sent "session-2"
             (MessageManager.sendStatusMessage "status" "NetStream.Play.Start"
                "Playing stream for live_user_<x>" []);
           Sent "session-2"
             (MessageManager.sendVideo Scenario.avcSequenceHeader 0);
           CalledRegisterSubscriber "abc" "session-2"]
  /\ InMemory.GetSubscribersForStream "abc"
       (context (shared (onPlay "abc" 0 w)))
     = inl ["session-2"].
Proof.
  intros w.
  assert (Hexists : StreamExists "abc" w = true) by reflexivity.
  destruct (C7_play_sequence "abc" 0 w Hexists) as (Hev & _ & _ & Hctx).
  split; [exact Hexists |]. split; [exact Hev |].
  rewrite Hctx. reflexivity.
Defined.


(** ** Duplicate publish *)

(** C1, on the code. With the in-memory store and no guard, a publish
    command for a key that already holds a publisher is answered like a
    first one: the session sends the status-level NetStream.Publish.Start,
    is marked as publisher and stays as active as it was; the
    [AlreadyExists] error of the registration is dropped and the store is
    left as it was. *)
Theorem C1_duplicate_publish_is_accepted (transactionId : Z)
    (key publishingType : string) (w : World (gmap string InMemory.entry)) :
  GetSessionGuard (shared w) = None ->
  StreamExists key w = true ->
  let w' := onPublish transactionId key publishingType w in
  events w'
  = events w
    ++ [Sent (id (self w))
          (MessageManager.sendStatusMessage "status"
             "NetStream.Publish.Start" "Publishing live_user_<x>" []);
        CalledRegisterPublisher key]
  /\ active (self w') = active (self w)
  /\ isPublisher (self w') = true
  /\ Context.RegisterPublisher key (context (shared w))
     = (context (shared w), Some AlreadyExists)
  /\ context (shared w') = context (shared w).
Proof.
  intros Hguard Hexists w'.
  assert (Hreg : Context.RegisterPublisher key (context (shared w))
                 = (context (shared w), Some AlreadyExists)).
  { unfold StreamExists in Hexists. cbn in Hexists |- *.
    unfold InMemory.StreamExists in Hexists.
    unfold InMemory.RegisterPublisher.
    destruct (context (shared w) !! key); [reflexivity | discriminate]. }
  destruct (onPublish_not_denied transactionId key publishingType w)
    as (Hev & Hact & Hpub & Hctx).
  { rewrite Hguard. exact I. }
  split; [exact Hev |]. split; [exact Hact |]. split; [exact Hpub |].
  split; [exact Hreg |]. fold w' in Hctx. rewrite Hctx, Hreg. reflexivity.
Qed.

Lemma C1_duplicate_publish_is_accepted_witness :
  let w := Scenario.beforeSecondPublish in
  GetSessionGuard (shared w) = None
  /\ StreamExists "live" w = true
  /\ events (onPublish 2 "live" "live" w)
     = events w
       ++ [Sent "session-2"
             (MessageManager.sendStatusMessage "status"
                "NetStream.Publish.Start" "Publishing live_user_<x>" []);
           CalledRegisterPublisher "live"]
  /\ active (self (onPublish 2 "live" "live" w)) = true
  /\ isPublisher (self (onPublish 2 "live" "live" w)) = true.
Proof.
  intros w.
  assert (Hguard : GetSessionGuard (shared w) = None) by reflexivity.
  assert (Hexists : StreamExists "live" w = true) by reflexivity.
  destruct (C1_duplicate_publish_is_accepted 2 "live" "live" w Hguard Hexists)
    as (Hev & Hact & Hpub & _).
  split; [exact Hguard |]. split; [exact Hexists |]. split; [exact Hev |].
  split; [exact Hact | exact Hpub].
Defined.

(** ** Chunk headers of type 3 *)

Lemma bind_Ok {A B} (m : M A) (f : A -> M B) (ch ch' : ChunkHandler)
    (a : A) :
  m ch = Ok (a, ch') -> bind m f ch = f a ch'.
Proof. intros Hm. unfold bind. rewrite Hm. reflexivity. Qed.

(** A basic header of one byte: chunk stream ids 2 to 63. *)
Lemma readBasicHeader_one_byte (b : byte) (rest : list byte)
    (header : ChunkHeader) (ch : ChunkHandler) :
  socketr ch = b :: rest ->
  2 <= Z.land (byteZ b) 63 ->
  readBasicHeader header ch
  = Ok (set_BasicHeader
          {| FMT := Z.shiftr (byteZ b) 6;
             ChunkStreamID := Z.land (byteZ b) 63 |} header,
        set_socketr rest ch).
Proof.
  intros Hsock Hcsid. unfold readBasicHeader.
  rewrite (bind_Ok _ _ ch (set_socketr rest ch) b)
    by (unfold ReadByte; rewrite Hsock; reflexivity).
  destruct (Z.eqb_spec (Z.land (byteZ b) 63) 0) as [H0 | _]; [lia |].
  destruct (Z.eqb_spec (Z.land (byteZ b) 63) 1) as [H1 | _]; [lia |].
  reflexivity.
Qed.

Lemma readMessageHeader_type3 (csid : Z) (header prev : ChunkHeader)
    (pm : ChunkMessageHeader) (ch : ChunkHandler) :
  BasicHeader header = Some {| FMT := 3; ChunkStreamID := csid |} ->
  prevChunkHeader ch !! csid = Some prev ->
  MessageHeader prev = Some pm ->
  readMessageHeader header ch
  = Ok (set_MessageHeader
          {| Timestamp := 0;
             MessageLength := MessageLength pm;
             MessageTypeID := MessageTypeID pm;
             MessageStreamID := MessageStreamID pm |} header, ch).
Proof.
  intros Hbasic Hprev Hpm. unfold readMessageHeader.
  rewrite Hbasic. cbn -[Z.eqb]. unfold bind, get, prevHeader. cbn.
  rewrite Hprev. cbn. rewrite Hpm. reflexivity.
Qed.

Lemma ReadChunkHeader_type3 (b : byte) (rest : list byte) (ch : ChunkHandler)
    (prev : ChunkHeader) (pm : ChunkMessageHeader) :
  socketr ch = b :: rest ->
  Z.shiftr (byteZ b) 6 = 3 ->
  2 <= Z.land (byteZ b) 63 ->
  prevChunkHeader ch !! Z.land (byteZ b) 63 = Some prev ->
  MessageHeader prev = Some pm ->
  let csid := Z.land (byteZ b) 63 in
  ReadChunkHeader ch
  = Ok (type3Header csid prev pm,
        set_prevChunkHeader
          (<[csid := type3Header csid prev pm]> (prevChunkHeader ch))
          (set_socketr rest ch)).
Proof.
  intros Hsock Hfmt Hcsid Hprev Hpm csid.
  unfold ReadChunkHeader.
  rewrite (bind_Ok _ _ _ _ _
             (readBasicHeader_one_byte b rest zeroChunkHeader ch Hsock Hcsid)).
  rewrite Hfmt. fold csid.
  rewrite (bind_Ok _ _ _ _ _
             (readMessageHeader_type3 csid
                (set_BasicHeader {| FMT := 3; ChunkStreamID := csid |}
                   zeroChunkHeader)
                prev pm (set_socketr rest ch) eq_refl Hprev Hpm)).
  fold csid in Hprev. cbn. unfold prevHeader. cbn. rewrite Hprev.
  reflexivity.
Qed.

(** C3, on the code. A type-3 chunk on a chunk stream with a previous header
    takes message length, message type id and message stream id from that
    header, but its timestamp field is 0 whatever the previous delta or
    timestamp was, and the elapsed time recorded for the chunk stream is the
    previous one: the clock does not advance. *)
Theorem C3_type3_delta_is_zero (b : byte) (rest : list byte)
    (ch : ChunkHandler) (prev : ChunkHeader) (pm : ChunkMessageHeader) :
  socketr ch = b :: rest ->
  Z.shiftr (byteZ b) 6 = ChunkType3 ->
  2 <= Z.land (byteZ b) 63 ->
  prevChunkHeader ch !! Z.land (byteZ b) 63 = Some prev ->
  MessageHeader prev = Some pm ->
  0 <= ElapsedTime prev < 2 ^ 32 ->
  exists (header : ChunkHeader) (mh : ChunkMessageHeader) (ch' : ChunkHandler),
    ReadChunkHeader ch = Ok (header, ch')
    /\ MessageHeader header = Some mh
    /\ MessageLength mh = MessageLength pm
    /\ MessageTypeID mh = MessageTypeID pm
    /\ MessageStreamID mh = MessageStreamID pm
    /\ Timestamp mh = 0
    /\ ElapsedTime header = ElapsedTime prev
    /\ socketr ch' = rest
    /\ prevChunkHeader ch' !! Z.land (byteZ b) 63 = Some header.
Proof.
  intros Hsock Hfmt Hcsid Hprev Hpm Hclock.
  pose proof (ReadChunkHeader_type3 b rest ch prev pm Hsock Hfmt Hcsid Hprev
                Hpm) as Hread.
  cbv zeta in Hread.
  eexists _, _, _. split; [exact Hread |].
  split; [reflexivity |]. do 4 (split; [reflexivity |]).
  split; [cbn; rewrite Z.add_0_r; apply uint32_small; exact Hclock |].
  split; [reflexivity |]. cbn. apply lookup_insert_eq.
Qed.

Lemma C3_type3_delta_is_zero_witness :
  let ch := Scenario.afterType0 in
  socketr ch = [xc3; x12]
  /\ prevChunkHeader ch !! 3
     = Some {| BasicHeader := Some {| FMT := 0; ChunkStreamID := 3 |};
               MessageHeader :=
                 Some {| Timestamp := 10; MessageLength := 1;
                         MessageTypeID := 9; MessageStreamID := 1 |};
               ExtendedTimestamp := 0;
               ElapsedTime := 10 |}
  /\ exists (header : ChunkHeader) (mh : ChunkMessageHeader)
        (ch' : ChunkHandler),
       ReadChunkHeader ch = Ok (header, ch')
       /\ MessageHeader header = Some mh
       /\ Timestamp mh = 0
       /\ ElapsedTime header = 10.
Proof.
  intros ch.
  assert (Hsock : socketr ch = [xc3; x12]) by (vm_compute; reflexivity).
  assert (Hprev : prevChunkHeader ch !! Z.land (byteZ xc3) 63
                  = Some {| BasicHeader :=
                              Some {| FMT := 0; ChunkStreamID := 3 |};
                            MessageHeader :=
                              Some {| Timestamp := 10; MessageLength := 1;
                                      MessageTypeID := 9;
                                      MessageStreamID := 1 |};
                            ExtendedTimestamp := 0;
                            ElapsedTime := 10 |})
    by (vm_compute; reflexivity).
  split; [exact Hsock |]. split; [exact Hprev |].
  destruct (C3_type3_delta_is_zero xc3 [x12] ch _ _ Hsock eq_refl
              ltac:(vm_compute; discriminate) Hprev eq_refl
              ltac:(vm_compute; split; [discriminate | reflexivity]))
    as (header & mh & ch' & Hread & Hmh & _ & _ & _ & Hts & Hclock & _).
  exists header, mh, ch'. repeat split; assumption.
Defined.

(** ** Reassembly of a message from its chunks *)

Lemma wireOf_app_Raw (w : list Written) (wire : list byte)
    (frames : list (list byte)) :
  wireOf w = Some wire ->
  wireOf (w ++ map Raw frames) = Some (wire ++ concat frames).
Proof.
  revert wire. induction w as [| x w IH]; intros wire Hw.
  - cbn in Hw. injection Hw as <-. cbn.
    induction frames as [| f frames IHf]; [reflexivity |].
    cbn. rewrite IHf. reflexivity.
  - destruct x; cbn in Hw; try discriminate Hw.
    destruct (wireOf w) as [wire' |] eqn:Hw'; [| discriminate Hw].
    injection Hw as <-. cbn. rewrite (IH wire' eq_refl).
    rewrite app_assoc. reflexivity.
Qed.

Lemma chunk3HeaderOf_fmt (h0 : byte) :
  Z.shiftr (byteZ (chunk3HeaderOf h0)) 6 = 3.
Proof. destruct h0; vm_compute; reflexivity. Qed.

Lemma chunk3HeaderOf_csid (h0 : byte) :
  Z.land (byteZ (chunk3HeaderOf h0)) 63 = Z.land (byteZ h0) 63.
Proof. destruct h0; vm_compute; reflexivity. Qed.

Lemma byteZ_range (b : byte) : 0 <= byteZ b < 256.
Proof. unfold byteZ. pose proof (Byte.to_N_bounded b). lia. Qed.

Lemma lor_below (a b n : Z) :
  0 <= n -> 0 <= a < 2 ^ n -> 0 <= b < 2 ^ n -> 0 <= Z.lor a b < 2 ^ n.
Proof.
  intros Hn Ha Hb. split; [apply Z.lor_nonneg; lia |].
  destruct (Z.eq_dec (Z.lor a b) 0) as [-> | Hnz]; [lia |].
  apply Z.log2_lt_pow2; [pose proof (proj2 (Z.lor_nonneg a b)); lia |].
  rewrite Z.log2_lor by lia.
  destruct (Z.eq_dec a 0) as [-> | Ha0]; destruct (Z.eq_dec b 0) as [-> | Hb0].
  - exfalso. apply Hnz. reflexivity.
  - rewrite Z.max_r by (cbn; apply Z.log2_nonneg). apply Z.log2_lt_pow2; lia.
  - rewrite Z.max_l by (cbn; apply Z.log2_nonneg). apply Z.log2_lt_pow2; lia.
  - apply Z.max_lub_lt; apply Z.log2_lt_pow2; lia.
Qed.

Lemma shiftl_below (a k n : Z) :
  0 <= k -> 0 <= a < 2 ^ (n - k) -> k <= n -> 0 <= Z.shiftl a k < 2 ^ n.
Proof.
  intros Hk Ha Hkn. rewrite Z.shiftl_mul_pow2 by lia.
  assert (Hpow : 2 ^ n = 2 ^ (n - k) * 2 ^ k)
    by (rewrite <- Z.pow_add_r by lia; f_equal; lia).
  rewrite Hpow.
  split; [apply Z.mul_nonneg_nonneg; lia |].
  apply Z.mul_lt_mono_pos_r; lia.
Qed.

Lemma BigEndianUint24_range (b0 b1 b2 : byte) :
  0 <= BigEndianUint24 b0 b1 b2 < 2 ^ 24.
Proof.
  unfold BigEndianUint24.
  pose proof (byteZ_range b0). pose proof (byteZ_range b1).
  pose proof (byteZ_range b2).
  apply lor_below; [lia | | lia].
  apply lor_below; [lia | |]; apply shiftl_below; lia.
Qed.

Lemma ReadFull_Ok (n : nat) (data rest : list byte) (ch : ChunkHandler) :
  socketr ch = data ++ rest ->
  length data = n ->
  ReadFull n ch = Ok (data, set_socketr rest ch).
Proof.
  intros Hsock Hlen. unfold ReadFull. rewrite Hsock.
  rewrite length_app.
  destruct (Nat.leb_spec n (length data + length rest)) as [_ | Hlt]; [| lia].
  rewrite take_app_length' by (symmetry; exact Hlen).
  rewrite drop_app_length' by (symmetry; exact Hlen). reflexivity.
Qed.

(** A type-0 chunk header without extended timestamp on a chunk stream id
    from 2 to 63. *)
Lemma ReadChunkHeader_type0
    (b0 t0 t1 t2 l0 l1 l2 ty s0 s1 s2 s3 : byte) (rest : list byte)
    (ch : ChunkHandler) :
  socketr ch = [b0; t0; t1; t2; l0; l1; l2; ty; s0; s1; s2; s3] ++ rest ->
  Z.shiftr (byteZ b0) 6 = 0 ->
  2 <= Z.land (byteZ b0) 63 ->
  BigEndianUint24 t0 t1 t2 <> 16777215 ->
  let header := type0HeaderOf b0 t0 t1 t2 l0 l1 l2 ty s0 s1 s2 s3 in
  ReadChunkHeader ch
  = Ok (header,
        set_prevChunkHeader
          (<[Z.land (byteZ b0) 63 := header]> (prevChunkHeader ch))
          (set_socketr rest ch)).
Proof.
  intros Hsock Hfmt Hcsid Hts header.
  unfold ReadChunkHeader.
  rewrite (bind_Ok _ _ _ _ _
             (readBasicHeader_one_byte b0 _ zeroChunkHeader ch Hsock Hcsid)).
  rewrite Hfmt.
  set (csid := Z.land (byteZ b0) 63) in *.
  assert (Hmh : readMessageHeader
                  (set_BasicHeader {| FMT := 0; ChunkStreamID := csid |}
                     zeroChunkHeader)
                  (set_socketr
                     ([t0; t1; t2; l0; l1; l2; ty; s0; s1; s2; s3] ++ rest) ch)
                = Ok (set_MessageHeader
                        {| Timestamp := BigEndianUint24 t0 t1 t2;
                           MessageLength := BigEndianUint24 l0 l1 l2;
                           MessageTypeID := byteZ ty;
                           MessageStreamID := LittleEndianUint32 s0 s1 s2 s3 |}
                        (set_BasicHeader {| FMT := 0; ChunkStreamID := csid |}
                           zeroChunkHeader),
                      set_socketr rest ch)).
  { unfold readMessageHeader. cbn [BasicHeader set_BasicHeader deref].
    unfold ret at 1. unfold bind at 1. cbn [FMT ChunkStreamID].
    change (0 =? ChunkType0) with true. cbv iota.
    rewrite (bind_Ok _ _ _ _ _
               (ReadFull_Ok 11 [t0; t1; t2; l0; l1; l2; ty; s0; s1; s2; s3]
                  rest
                  (set_socketr
                     ([t0; t1; t2; l0; l1; l2; ty; s0; s1; s2; s3] ++ rest)
                     ch)
                  eq_refl eq_refl)).
    reflexivity. }
  rewrite (bind_Ok _ _ _ _ _ Hmh).
  cbn [MessageHeader set_MessageHeader deref]. unfold ret at 1.
  unfold bind at 1. cbn [Timestamp].
  destruct (Z.eqb_spec (BigEndianUint24 t0 t1 t2) 16777215) as [Habs | _];
    [contradiction |].
  reflexivity.
Qed.

Lemma readInto_Ok (buf data rest : list byte) (lo hi : Z) (ch : ChunkHandler) :
  0 <= lo <= hi ->
  hi <= Z.of_nat (length buf) ->
  socketr ch = data ++ rest ->
  length data = Z.to_nat (hi - lo) ->
  readInto buf lo hi ch
  = Ok (take (Z.to_nat lo) buf ++ data ++ drop (Z.to_nat hi) buf,
        set_socketr rest ch).
Proof.
  intros Hlo Hhi Hsock Hlen. unfold readInto.
  destruct (Z.leb_spec 0 lo); [| lia].
  destruct (Z.leb_spec lo hi); [| lia].
  destruct (Z.leb_spec hi (Z.of_nat (length buf))); [| lia].
  cbn [andb].
  rewrite (bind_Ok _ _ _ _ _ (ReadFull_Ok _ data rest ch Hsock Hlen)).
  reflexivity.
Qed.

Lemma sendLoop_done (n : nat) (c3 : byte) (c : Z) (p : list byte) (k : Z)
    (first : bool) (wh : ChunkHandler) :
  Z.of_nat (length p) <= k ->
  sendLoop n c3 c p k first wh = Ok (tt, wh).
Proof.
  intros Hk. destruct n; cbn [sendLoop];
    destruct (Z.ltb_spec k (Z.of_nat (length p))); try lia; reflexivity.
Qed.

Lemma sendLoop_step (n : nat) (c3 : byte) (c : Z) (p : list byte) (k : Z)
    (wh : ChunkHandler) :
  k < Z.of_nat (length p) ->
  sendLoop (S n) c3 c p k false wh
  = let next := if k + c <? Z.of_nat (length p)
                then k + c
                else k + (Z.of_nat (length p) - k) in
    sendLoop n c3 c p next false
      (set_socketw (socketw wh ++ [Raw [c3]; Raw (slice p k next)]) wh).
Proof.
  intros Hk. cbn [sendLoop].
  destruct (Z.ltb_spec k (Z.of_nat (length p))); [| lia].
  cbn [negb]. unfold bind at 1. unfold modify at 1.
  destruct (k + c <? Z.of_nat (length p)); cbv zeta;
    unfold bind at 1; unfold modify at 1; unfold write; cbn [socketw set_socketw];
    rewrite <- app_assoc; reflexivity.
Qed.

Lemma sendLoop_first (n : nat) (c3 : byte) (c : Z) (p : list byte)
    (wh : ChunkHandler) :
  0 < Z.of_nat (length p) ->
  sendLoop (S n) c3 c p 0 true wh
  = let next := if 0 + c <? Z.of_nat (length p)
                then 0 + c
                else 0 + (Z.of_nat (length p) - 0) in
    sendLoop n c3 c p next false
      (set_socketw (socketw wh ++ [Raw (slice p 0 next)]) wh).
Proof.
  intros Hk. cbn [sendLoop].
  destruct (Z.ltb_spec 0 (Z.of_nat (length p))); [| lia].
  cbn [negb]. unfold bind at 1. unfold ret at 1.
  destruct (0 + c <? Z.of_nat (length p)); cbv zeta;
    unfold bind at 1; unfold modify at 1; unfold write; reflexivity.
Qed.

Lemma assembleLoop_done (m : nat) (len k : Z) (buf : list byte)
    (rh : ChunkHandler) :
  len <= k -> assembleLoop m len k buf rh = Ok (buf, rh).
Proof.
  intros Hk. destruct m; cbn [assembleLoop];
    destruct (Z.ltb_spec k len); try lia; reflexivity.
Qed.

Lemma assembleLoop_step (m : nat) (len k : Z) (buf : list byte)
    (rh rh1 : ChunkHandler) (h : ChunkHeader) :
  k < len ->
  ReadChunkHeader rh = Ok (h, rh1) ->
  assembleLoop (S m) len k buf rh
  = let next := if uint32 (k + inChunkSize rh1) <? len
                then uint32 (k + inChunkSize rh1)
                else uint32 (k + uint32 (len - k)) in
    (do buf' <- readInto buf k next ;; assembleLoop m len next buf') rh1.
Proof.
  intros Hk Hread. cbn [assembleLoop].
  destruct (Z.ltb_spec k len); [| lia].
  unfold bind at 1. unfold wrapAssembleError. rewrite Hread.
  unfold bind at 1. unfold get at 1.
  destruct (uint32 (k + inChunkSize rh1) <? len); reflexivity.
Qed.

Lemma fill_prefix (buf p : list byte) (k nx : nat) :
  (k <= nx <= length p)%nat ->
  length buf = length p ->
  take k buf = take k p ->
  let buf' := take k buf ++ take (nx - k) (drop k p) ++ drop nx buf in
  length buf' = length p /\ take nx buf' = take nx p.
Proof.
  intros Hk Hlen Htake buf'. subst buf'. split.
  - rewrite !length_app, !length_take, !length_drop. lia.
  - rewrite app_assoc. rewrite take_app_length'.
    + rewrite Htake. rewrite take_take_drop. f_equal. lia.
    + rewrite length_app, !length_take, length_drop. lia.
Qed.

Lemma set_socketw_same (wh : ChunkHandler) :
  set_socketw (socketw wh ++ []) wh = wh.
Proof. rewrite app_nil_r. destruct wh. reflexivity. Qed.

Lemma take_all_eq (buf p : list byte) :
  length buf = length p ->
  take (length p) buf = take (length p) p ->
  buf = p.
Proof.
  intros Hlen Htake. rewrite <- Hlen in Htake at 1.
  rewrite !firstn_all in Htake. exact Htake.
Qed.

Lemma loops_agree (n : nat) :
  forall (c3 : byte) (c : Z) (p : list byte) (k : Z) (wh : ChunkHandler),
    0 < c ->
    0 <= k <= Z.of_nat (length p) ->
    Z.of_nat (length p) - k <= Z.of_nat n ->
    exists frames : list (list byte),
      sendLoop n c3 c p k false wh
      = Ok (tt, set_socketw (socketw wh ++ map Raw frames) wh)
      /\ forall (m : nat) (rh : ChunkHandler) (buf rest : list byte)
           (prev : ChunkHeader) (pm : ChunkMessageHeader),
          inChunkSize rh = c ->
          Z.shiftr (byteZ c3) 6 = 3 ->
          2 <= Z.land (byteZ c3) 63 ->
          prevChunkHeader rh !! Z.land (byteZ c3) 63 = Some prev ->
          MessageHeader prev = Some pm ->
          socketr rh = concat frames ++ rest ->
          length buf = length p ->
          take (Z.to_nat k) buf = take (Z.to_nat k) p ->
          Z.of_nat (length p) + c < 2 ^ 32 ->
          (length (concat frames) < m)%nat ->
          exists rh' : ChunkHandler,
            assembleLoop m (Z.of_nat (length p)) k buf rh = Ok (p, rh')
            /\ socketr rh' = rest.
Proof.
  induction n as [| n IH]; intros c3 c p k wh Hc Hk Hn.
  - exists []. split.
    + rewrite sendLoop_done by lia. rewrite set_socketw_same. reflexivity.
    + intros m rh buf rest prev pm _ _ _ _ _ Hsock Hlen Htake _ _.
      exists rh. rewrite assembleLoop_done by lia.
      assert (Hkp : Z.to_nat k = length p) by lia. rewrite Hkp in Htake.
      rewrite (take_all_eq buf p Hlen Htake). split; [reflexivity | exact Hsock].
  - destruct (Z.eq_dec k (Z.of_nat (length p))) as [Hend | Hmore].
    + exists []. split.
      * rewrite sendLoop_done by lia. rewrite set_socketw_same. reflexivity.
      * intros m rh buf rest prev pm _ _ _ _ _ Hsock Hlen Htake _ _.
        exists rh. rewrite assembleLoop_done by lia.
        assert (Hkp : Z.to_nat k = length p) by lia. rewrite Hkp in Htake.
        rewrite (take_all_eq buf p Hlen Htake).
        split; [reflexivity | exact Hsock].
    + rewrite sendLoop_step by lia. cbv zeta.
      set (next := if k + c <? Z.of_nat (length p) then k + c
                   else k + (Z.of_nat (length p) - k)).
      assert (Hnext : k < next <= Z.of_nat (length p) /\ next - k <= c).
      { subst next. destruct (Z.ltb_spec (k + c) (Z.of_nat (length p))); lia. }
      set (wh1 := set_socketw
                    (socketw wh ++ [Raw [c3]; Raw (slice p k next)]) wh).
      destruct (IH c3 c p next wh1 Hc ltac:(lia) ltac:(lia))
        as (frames & Hsend & Hread).
      exists ([c3] :: slice p k next :: frames). split.
      * rewrite Hsend. subst wh1. cbn [socketw set_socketw map].
        rewrite <- app_assoc. reflexivity.
      * intros m rh buf rest prev pm Hin Hfmt Hcsid Hprev Hpm Hsock Hlen
          Htake Hbound Hfuel.
        destruct m as [| m]; [lia |].
        cbn [concat] in Hsock, Hfuel. rewrite <- !app_assoc in Hsock.
        cbn [app] in Hsock.
        pose proof (ReadChunkHeader_type3 c3 _ rh prev pm Hsock Hfmt Hcsid
                      Hprev Hpm) as Hhdr.
        cbv zeta in Hhdr.
        assert (Hlt : k < Z.of_nat (length p)) by lia.
        rewrite (assembleLoop_step m _ k buf rh _ _ Hlt Hhdr).
        cbn [inChunkSize set_prevChunkHeader set_socketr]. rewrite Hin.
        assert (Hnext' : (if uint32 (k + c) <? Z.of_nat (length p)
                          then uint32 (k + c)
                          else uint32 (k + uint32 (Z.of_nat (length p) - k)))
                         = next).
        { subst next. rewrite (uint32_small (k + c)) by lia.
          rewrite (uint32_small (Z.of_nat (length p) - k)) by lia.
          destruct (k + c <? Z.of_nat (length p)); [reflexivity |].
          apply uint32_small. lia. }
        cbv zeta. rewrite Hnext'.
        assert (Hslice : length (slice p k next) = Z.to_nat (next - k)).
        { unfold slice. rewrite length_take, length_drop. lia. }
        erewrite (bind_Ok _ _ _ _ _).
        2:{ apply (readInto_Ok buf (slice p k next)
                     (concat frames ++ rest) k next);
              first [lia | exact Hslice | reflexivity]. }
        destruct (fill_prefix buf p (Z.to_nat k) (Z.to_nat next)
                    ltac:(lia) Hlen Htake) as [Hlen' Htake'].
        unfold slice in *.
        replace (Z.to_nat next - Z.to_nat k)%nat with (Z.to_nat (next - k))
          in Hlen', Htake' by lia.
        eapply (Hread m _ _ rest (type3Header (Z.land (byteZ c3) 63) prev pm)).
        -- cbn. exact Hin.
        -- exact Hfmt.
        -- exact Hcsid.
        -- cbn. apply lookup_insert_eq.
        -- reflexivity.
        -- reflexivity.
        -- exact Hlen'.
        -- exact Htake'.
        -- exact Hbound.
        -- rewrite !length_app in Hfuel. cbn in Hfuel. lia.
Qed.

Lemma wireOf_two (a b : list byte) :
  wireOf ([Raw a] ++ [Raw b]) = Some (a ++ b).
Proof. cbn. rewrite app_nil_r. reflexivity. Qed.

Lemma bind_get {B} (f : ChunkHandler -> M B) (ch : ChunkHandler) :
  bind get f ch = f ch ch.
Proof. reflexivity. Qed.

Lemma bind_ret {A B} (a : A) (f : A -> M B) (ch : ChunkHandler) :
  bind (ret a) f ch = f a ch.
Proof. reflexivity. Qed.

(** A message that fits in one chunk is read at once. *)
Lemma ReadChunkData_short (header : ChunkHeader) (mh : ChunkMessageHeader)
    (payload rest : list byte) (rh : ChunkHandler) :
  MessageHeader header = Some mh ->
  MessageLength mh = Z.of_nat (length payload) ->
  Z.of_nat (length payload) <= inChunkSize rh ->
  socketr rh = payload ++ rest ->
  ReadChunkData header rh = Ok (payload, set_socketr rest rh).
Proof.
  intros Hmh Hlen Hshort Hsock. unfold ReadChunkData.
  rewrite Hmh. cbn [deref]. rewrite bind_ret, bind_get, Hlen, Z.gtb_ltb.
  destruct (Z.ltb_spec (inChunkSize rh) (Z.of_nat (length payload)));
    [lia |].
  apply ReadFull_Ok; [exact Hsock | lia].
Qed.

(** A longer message: the first chunk is read into the buffer, then the
    loop takes over. *)
Lemma ReadChunkData_long (header : ChunkHeader) (mh : ChunkMessageHeader)
    (len : Z) (first tail : list byte) (rh : ChunkHandler) :
  MessageHeader header = Some mh ->
  MessageLength mh = len ->
  0 <= inChunkSize rh < len ->
  socketr rh = first ++ tail ->
  Z.of_nat (length first) = inChunkSize rh ->
  ReadChunkData header rh
  = assembleLoop (S (length tail)) len (inChunkSize rh)
      (take 0 (replicate (Z.to_nat len) x00) ++ first
       ++ drop (Z.to_nat (inChunkSize rh)) (replicate (Z.to_nat len) x00))
      (set_socketr tail rh).
Proof.
  intros Hmh Hlen Hlong Hsock Hfirst. unfold ReadChunkData.
  rewrite Hmh. cbn [deref]. rewrite bind_ret, bind_get, Hlen, Z.gtb_ltb.
  destruct (Z.ltb_spec (inChunkSize rh) len); [| lia].
  unfold assembleMessage. rewrite bind_get.
  rewrite (bind_Ok _ _ _ _ _
             (readInto_Ok (replicate (Z.to_nat len) x00) first tail 0
                (inChunkSize rh) rh ltac:(lia)
                ltac:(rewrite length_replicate; lia) Hsock ltac:(lia))).
  rewrite bind_get. reflexivity.
Qed.

(** C2, amended. The payload of a message is gathered in the one buffer of
    the message being read. When the chunks of a message arrive one after
    the other, as [send] writes them (type-0 header and first chunk, then
    every further chunk behind the one-byte type-3 header of the same chunk
    stream id, with the chunk size of the writer equal to that of the
    reader), reading the header and then the data returns the payload that
    was sent and leaves the input that follows untouched. *)
Theorem C2_contiguous_chunks_reassemble
    (b0 t0 t1 t2 l0 l1 l2 ty s0 s1 s2 s3 : byte) (payload rest : list byte)
    (c : Z) (writer reader : ChunkHandler) :
  let header := [b0; t0; t1; t2; l0; l1; l2; ty; s0; s1; s2; s3] in
  Z.shiftr (byteZ b0) 6 = ChunkType0 ->
  2 <= Z.land (byteZ b0) 63 ->
  BigEndianUint24 t0 t1 t2 <> 16777215 ->
  BigEndianUint24 l0 l1 l2 = Z.of_nat (length payload) ->
  0 < c ->
  outChunkSize writer = c ->
  inChunkSize reader = c ->
  socketw writer = [] ->
  exists (writer' : ChunkHandler) (wire : list byte),
    send header payload writer = Ok (tt, writer')
    /\ wireOf (socketw writer') = Some wire
    /\ (socketr reader = wire ++ rest ->
        exists reader' : ChunkHandler,
          readMessage reader
          = Ok ((type0HeaderOf b0 t0 t1 t2 l0 l1 l2 ty s0 s1 s2 s3, payload),
                reader')
          /\ socketr reader' = rest).
Proof.
  intros header Hfmt Hcsid Hts Hlen Hc Hout Hin Hw.
  pose proof (BigEndianUint24_range l0 l1 l2) as Hrange.
  rewrite Hlen in Hrange.
  set (h0 := type0HeaderOf b0 t0 t1 t2 l0 l1 l2 ty s0 s1 s2 s3).
  set (csid := Z.land (byteZ b0) 63) in *.
  assert (Hhdr : forall tail : list byte,
             socketr reader = header ++ tail ->
             ReadChunkHeader reader
             = Ok (h0, set_prevChunkHeader
                         (<[csid := h0]> (prevChunkHeader reader))
                         (set_socketr tail reader))).
  { intros tail Hsock.
    exact (ReadChunkHeader_type0 b0 t0 t1 t2 l0 l1 l2 ty s0 s1 s2 s3 tail
             reader Hsock Hfmt Hcsid Hts). }
  unfold send. unfold bind at 1. unfold modify at 1.
  unfold bind at 1. unfold get at 1.
  set (wh0 := write (Raw header) writer).
  assert (Hout0 : outChunkSize wh0 = c) by exact Hout.
  assert (Hw0 : socketw wh0 = [Raw header])
    by (subst wh0; unfold write; cbn; rewrite Hw; reflexivity).
  rewrite Hout0, Z.gtb_ltb.
  destruct (Z.ltb_spec c (Z.of_nat (length payload))) as [Hlong | Hshort].
  - (* several chunks *)
    cbn [header]. fold (chunk3HeaderOf b0).
    assert (Hfuel : exists n : nat, length payload = S n)
      by (exists (Nat.pred (length payload)); lia).
    destruct Hfuel as [n Hn].
    assert (Hlt0 : 0 < Z.of_nat (length payload)) by lia.
    replace (sendLoop (length payload)) with (sendLoop (S n))
      by (rewrite Hn; reflexivity).
    rewrite (sendLoop_first n _ c payload _ Hlt0).
    cbv zeta.
    destruct (Z.ltb_spec (0 + c) (Z.of_nat (length payload))) as [_ | Habs];
      [| lia].
    rewrite Z.add_0_l.
    match goal with
    | |- context [sendLoop n ?c3 c payload c false ?wh] =>
        destruct (loops_agree n c3 c payload c wh Hc ltac:(lia) ltac:(lia))
          as (frames & Hsend & Hread)
    end.
    rewrite Hsend.
    eexists _, (header ++ slice payload 0 c ++ concat frames).
    split; [reflexivity |]. split.
    { cbn [socketw set_socketw]. rewrite Hw0.
      rewrite (wireOf_app_Raw ([Raw header] ++ [Raw (slice payload 0 c)])
                 (header ++ slice payload 0 c) frames).
      - rewrite <- app_assoc. reflexivity.
      - apply wireOf_two. }
    intros Hsock. rewrite <- !app_assoc in Hsock.
    unfold readMessage.
    rewrite (bind_Ok _ _ _ _ _ (Hhdr _ Hsock)).
    assert (Hslice : Z.of_nat (length (slice payload 0 c)) = c).
    { unfold slice. rewrite length_take, length_drop. lia. }
    set (rh1 := set_prevChunkHeader (<[csid := h0]> (prevChunkHeader reader))
                  (set_socketr (slice payload 0 c ++ concat frames ++ rest)
                     reader)).
    assert (Hin1 : inChunkSize rh1 = c) by exact Hin.
    assert (Hdata : exists reader' : ChunkHandler,
               ReadChunkData h0 rh1 = Ok (payload, reader')
               /\ socketr reader' = rest).
    { rewrite (ReadChunkData_long h0 _ (Z.of_nat (length payload))
                 (slice payload 0 c) (concat frames ++ rest) rh1 eq_refl
                 Hlen ltac:(lia) eq_refl ltac:(lia)).
      rewrite Hin1, Nat2Z.id.
      set (buf0 := replicate (length payload) x00).
      assert (Hbuf0 : length buf0 = length payload)
        by (subst buf0; apply length_replicate).
      destruct (fill_prefix buf0 payload 0 (Z.to_nat c) ltac:(lia) Hbuf0
                  eq_refl) as [Hlen' Htake'].
      rewrite Nat.sub_0_r in Hlen', Htake'.
      unfold slice. rewrite Z.sub_0_r. change (Z.to_nat 0) with 0%nat.
      apply (Hread (S (length (concat frames ++ rest)))
               (set_socketr (concat frames ++ rest) rh1)
               (take 0 buf0 ++ take (Z.to_nat c) (drop 0 payload)
                ++ drop (Z.to_nat c) buf0)
               rest h0 _ Hin1 (chunk3HeaderOf_fmt b0)
               ltac:(rewrite chunk3HeaderOf_csid; exact Hcsid)
               ltac:(rewrite chunk3HeaderOf_csid; apply lookup_insert_eq)
               eq_refl eq_refl Hlen' Htake' ltac:(lia)
               ltac:(rewrite length_app; lia)). }
    destruct Hdata as (reader' & Hdata & Hrest).
    rewrite (bind_Ok _ _ _ _ _ Hdata).
    exists reader'. split; [reflexivity | exact Hrest].
  - (* a single chunk *)
    unfold modify.
    eexists _, (header ++ payload ++ []).
    split; [reflexivity |].
    split; [unfold write; cbn [socketw set_socketw]; rewrite Hw0;
            reflexivity |].
    intros Hsock. rewrite app_nil_r in Hsock. rewrite <- app_assoc in Hsock.
    unfold readMessage.
    rewrite (bind_Ok _ _ _ _ _ (Hhdr _ Hsock)).
    set (rh1 := set_prevChunkHeader (<[csid := h0]> (prevChunkHeader reader))
                  (set_socketr (payload ++ rest) reader)).
    assert (Hin1 : Z.of_nat (length payload) <= inChunkSize rh1)
      by (cbn; lia).
    rewrite (bind_Ok _ _ _ _ _
               (ReadChunkData_short h0 _ payload rest rh1 eq_refl Hlen Hin1
                  eq_refl)).
    eexists. split; reflexivity.
Qed.

(** C2, as stated: when the chunks of two messages on different chunk
    streams interleave, each message is reassembled from its own chunks.
    On the interleaved scenario the payload returned for message A (chunk
    stream 3) ends with the first byte of message B (chunk stream 4). *)
Lemma C2_interleaved_chunks_are_mixed :
  snd <$> returned (readMessage Scenario.interleavedReader)
  = Some [x11; x12; x21]
  /\ snd <$> returned (readMessage Scenario.interleavedReader)
     <> Some Scenario.payloadA.
Proof.
  assert (Hread : snd <$> returned (readMessage Scenario.interleavedReader)
                  = Some [x11; x12; x21]) by (vm_compute; reflexivity).
  split; [exact Hread |]. rewrite Hread. vm_compute. discriminate.
Qed.

Lemma C2_contiguous_chunks_reassemble_witness :
  let payload := [x01; x02; x03; x04; x05] in
  let header := Scenario.type0Header x03 x0a x05 in
  let writer := set_outChunkSize 2 (NewChunkHandler []) in
  let reader :=
    SetChunkSize 2
      (NewChunkHandler
         (header ++ [x01; x02; xc3; x03; x04; xc3; x05] ++ [xff])) in
  Z.shiftr (byteZ x03) 6 = ChunkType0
  /\ 2 <= Z.land (byteZ x03) 63
  /\ BigEndianUint24 x00 x00 x0a <> 16777215
  /\ BigEndianUint24 x00 x00 x05 = Z.of_nat (length payload)
  /\ outChunkSize writer = 2
  /\ inChunkSize reader = 2
  /\ socketw writer = []
  /\ (wireOf <$> (socketw <$> (snd <$> returned'
                                 (send header payload writer))))
     = Some (Some (header ++ [x01; x02; xc3; x03; x04; xc3; x05]))
  /\ exists reader' : ChunkHandler,
       readMessage reader
       = Ok ((type0HeaderOf x03 x00 x00 x0a x00 x00 x05 x09 x01 x00 x00 x00,
              payload), reader')
       /\ socketr reader' = [xff].
Proof.
  intros payload header writer reader.
  assert (Hcsid : 2 <= Z.land (byteZ x03) 63) by (vm_compute; discriminate).
  assert (Hts : BigEndianUint24 x00 x00 x0a <> 16777215)
    by (vm_compute; discriminate).
  destruct (C2_contiguous_chunks_reassemble
              x03 x00 x00 x0a x00 x00 x05 x09 x01 x00 x00 x00
              payload [xff] 2 writer reader
              eq_refl Hcsid Hts eq_refl eq_refl eq_refl eq_refl eq_refl)
    as (writer' & wire & Hsend & Hwire & Hread).
  vm_compute in Hsend. injection Hsend as <-.
  vm_compute in Hwire. injection Hwire as <-.
  do 7 (split; [first [exact Hcsid | exact Hts | reflexivity] |]).
  split; [vm_compute; reflexivity |].
  apply Hread. reflexivity.
Defined.

(** ** The recursion bound of [assembleMessage] is never reached *)

Lemma reads_weaken {A} (m : M A) : reads true m -> reads false m.
Proof.
  intros Hm ch. specialize (Hm ch). destruct (m ch) as [[a ch'] | | |];
    try exact Hm. lia.
Qed.

Lemma reads_ret {A} (a : A) : reads false (ret a).
Proof. intros ch. cbn. lia. Qed.

Lemma reads_fail {A} (s : bool) (e : error) : reads s (fail (A := A) e).
Proof. intros ch. exact I. Qed.

Lemma reads_panic {A} (s : bool) : reads s (panic (A := A)).
Proof. intros ch. exact I. Qed.

Lemma reads_deref {A} (p : option A) : reads false (deref p).
Proof. destruct p; [apply reads_ret | apply reads_panic]. Qed.

Lemma reads_get : reads false get.
Proof. intros ch. cbn. lia. Qed.

Lemma reads_modify (f : ChunkHandler -> ChunkHandler) :
  (forall ch, socketr (f ch) = socketr ch) -> reads false (modify f).
Proof. intros Hf ch. cbn. rewrite Hf. lia. Qed.

Lemma reads_bind {A B} (s1 s2 : bool) (m : M A) (f : A -> M B) :
  reads s1 m -> (forall a, reads s2 (f a)) -> reads (s1 || s2) (bind m f).
Proof.
  intros Hm Hf ch. unfold bind. specialize (Hm ch).
  destruct (m ch) as [[a ch1] | | |]; try exact Hm.
  specialize (Hf a ch1). destruct (f a ch1) as [[b ch2] | | |]; try exact Hf.
  destruct s1, s2; cbn; lia.
Qed.

Lemma reads_ReadByte : reads true ReadByte.
Proof.
  intros ch. unfold ReadByte. destruct (socketr ch) eqn:Hs; [exact I |].
  cbn. lia.
Qed.

Lemma reads_ReadFull (n : nat) : reads false (ReadFull n).
Proof.
  intros ch. unfold ReadFull.
  destruct (n <=? length (socketr ch))%nat.
  - cbn. rewrite length_drop. lia.
  - destruct (socketr ch); exact I.
Qed.

Lemma reads_readBasicHeader (header : ChunkHeader) :
  reads true (readBasicHeader header).
Proof.
  unfold readBasicHeader.
  apply (reads_bind true false); [apply reads_ReadByte |]. intros b.
  destruct (Z.land (byteZ b) 63 =? 0).
  - apply reads_weaken. apply (reads_bind true false);
      [apply reads_ReadByte | intros; apply reads_ret].
  - destruct (Z.land (byteZ b) 63 =? 1); [| apply reads_ret].
    apply (reads_bind false false); [apply reads_ReadFull |].
    intros [| b0 [| b1 [| b2 l]]]; try apply reads_panic.
    apply (reads_bind false false);
      [apply reads_modify; reflexivity | intros; apply reads_ret].
Qed.

Lemma reads_readMessageHeader (header : ChunkHeader) :
  reads false (readMessageHeader header).
Proof.
  unfold readMessageHeader.
  apply (reads_bind false false); [apply reads_deref |]. intros bh.
  repeat match goal with
         | |- reads _ (if ?c then _ else _) => destruct c
         | |- reads _ (fail _) => apply reads_fail
         | |- reads _ (ret _) => apply reads_ret
         | |- reads _ panic => apply reads_panic
         | |- reads _ (bind (ReadFull _) _) =>
             apply (reads_bind false false); [apply reads_ReadFull | intros]
         | |- reads _ (bind get _) =>
             apply (reads_bind false false); [apply reads_get | intros]
         | |- reads _ (bind (deref _) _) =>
             apply (reads_bind false false); [apply reads_deref | intros]
         | |- reads _ (match ?l with [] => _ | _ :: _ => _ end) => destruct l
         end.
Qed.

Lemma reads_readExtendedTimestamp (header : ChunkHeader) :
  reads false (readExtendedTimestamp header).
Proof.
  unfold readExtendedTimestamp.
  apply (reads_bind false false); [apply reads_ReadFull |].
  intros [| b0 [| b1 [| b2 [| b3 [| b4 l]]]]];
    first [apply reads_panic | apply reads_ret].
Qed.

Lemma reads_ReadChunkHeader : reads true ReadChunkHeader.
Proof.
  unfold ReadChunkHeader.
  apply (reads_bind true false); [apply reads_readBasicHeader |]. intros ch0.
  apply (reads_bind false false); [apply reads_readMessageHeader |].
  intros ch1.
  apply (reads_bind false false); [apply reads_deref |]. intros mh.
  apply (reads_bind false false).
  - destruct (Timestamp mh =? 16777215); [| apply reads_ret].
    apply (reads_bind false false);
      [apply reads_readExtendedTimestamp | intros; apply reads_ret].
  - intros [ch2 isExtendedTimestamp].
    apply (reads_bind false false); [apply reads_deref |]. intros bh.
    apply (reads_bind false false); [apply reads_get |]. intros handler.
    apply (reads_bind false false);
      [apply reads_modify; reflexivity | intros; apply reads_ret].
Qed.

Lemma reads_readInto (payload : list byte) (lo hi : Z) :
  reads false (readInto payload lo hi).
Proof.
  unfold readInto.
  destruct ((0 <=? lo) && (lo <=? hi) && (hi <=? Z.of_nat (length payload)));
    [| apply reads_panic].
  apply (reads_bind false false);
    [apply reads_ReadFull | intros; apply reads_ret].
Qed.

Lemma assembleLoop_fuel (fuel : nat) :
  forall (messageLength bytesRead : Z) (payload : list byte)
    (ch : ChunkHandler),
    (length (socketr ch) < fuel)%nat ->
    match assembleLoop fuel messageLength bytesRead payload ch with
    | Ok (_, ch') => (length (socketr ch') <= length (socketr ch))%nat
    | OutOfFuel => False
    | _ => True
    end.
Proof.
  induction fuel as [| fuel IH]; intros len k buf ch Hfuel; [lia |].
  cbn [assembleLoop]. destruct (k <? len); [| cbn; lia].
  unfold bind at 1. unfold wrapAssembleError.
  pose proof (reads_ReadChunkHeader ch) as Hhdr.
  destruct (ReadChunkHeader ch) as [[h ch1] | | |]; try exact Hhdr.
  cbn in Hhdr. rewrite bind_get.
  assert (Hstep : forall next : Z,
             match (do payload' <- readInto buf k next ;;
                    assembleLoop fuel len next payload') ch1 with
             | Ok (_, ch') => (length (socketr ch') <= length (socketr ch))%nat
             | OutOfFuel => False
             | _ => True
             end).
  { intros next. unfold bind.
    pose proof (reads_readInto buf k next ch1) as Hinto.
    destruct (readInto buf k next ch1) as [[buf' ch2] | | |]; try exact Hinto.
    cbn in Hinto.
    specialize (IH len next buf' ch2 ltac:(lia)).
    destruct (assembleLoop fuel len next buf' ch2) as [[r ch3] | | |];
      try exact IH.
    lia. }
  destruct (uint32 (k + inChunkSize ch1) <? len); apply Hstep.
Qed.

Lemma reads_assembleMessage (messageLength : Z) :
  reads false (assembleMessage messageLength).
Proof.
  intros ch. unfold assembleMessage. rewrite bind_get. unfold bind at 1.
  pose proof (reads_readInto (replicate (Z.to_nat messageLength) x00) 0
                (inChunkSize ch) ch) as Hinto.
  destruct (readInto _ 0 (inChunkSize ch) ch) as [[buf ch1] | | |];
    try exact Hinto.
  cbn in Hinto. rewrite bind_get.
  pose proof (assembleLoop_fuel (S (length (socketr ch1))) messageLength
                (inChunkSize ch) buf ch1 ltac:(lia)) as Hloop.
  destruct (assembleLoop _ _ _ _ ch1) as [[r ch2] | | |]; try exact Hloop.
  lia.
Qed.

Lemma reads_ReadChunkData (header : ChunkHeader) :
  reads false (ReadChunkData header).
Proof.
  unfold ReadChunkData.
  apply (reads_bind false false); [apply reads_deref |]. intros mh.
  apply (reads_bind false false); [apply reads_get |]. intros handler.
  destruct (MessageLength mh >? inChunkSize handler);
    [apply reads_assembleMessage | apply reads_ReadFull].
Qed.

(** Reading a message always comes to an end: it returns, fails or panics,
    and when it returns it has consumed input. *)
Lemma reads_readMessage : reads true readMessage.
Proof.
  unfold readMessage.
  apply (reads_bind true false); [apply reads_ReadChunkHeader |].
  intros header.
  apply (reads_bind false false); [apply reads_ReadChunkData |].
  intros payload. apply reads_ret.
Qed.

(** ** The loop of [send] *)

(** With a positive chunk size the loop of [send] ends within the bound the
    model gives it. *)
Lemma sendLoop_fuel (n : nat) :
  forall (c3 : byte) (c : Z) (p : list byte) (k : Z) (first : bool)
    (wh : ChunkHandler),
    0 < c ->
    0 <= k ->
    Z.of_nat (length p) - k <= Z.of_nat n ->
    exists wh' : ChunkHandler, sendLoop n c3 c p k first wh = Ok (tt, wh').
Proof.
  induction n as [| n IH]; intros c3 c p k first wh Hc Hk Hn.
  - exists wh. apply sendLoop_done. lia.
  - cbn [sendLoop]. destruct (Z.ltb_spec k (Z.of_nat (length p)));
      [| exists wh; reflexivity].
    unfold bind at 1.
    destruct (negb first); cbn [modify ret];
      destruct (Z.ltb_spec (k + c) (Z.of_nat (length p)));
      cbv zeta; unfold bind at 1; cbn [modify]; apply IH; lia.
Qed.

(** With a chunk size of 0 and payload left to write, the loop of the source
    writes empty chunks for ever: no bound is enough. *)
Lemma sendLoop_zero_chunk_size (n : nat) :
  forall (c3 : byte) (p : list byte) (k : Z) (first : bool)
    (wh : ChunkHandler),
    k < Z.of_nat (length p) ->
    sendLoop n c3 0 p k first wh = OutOfFuel.
Proof.
  induction n as [| n IH]; intros c3 p k first wh Hk; cbn [sendLoop];
    destruct (Z.ltb_spec k (Z.of_nat (length p))); try lia; [reflexivity |].
  unfold bind at 1.
  destruct (negb first); cbn [modify ret];
    destruct (Z.ltb_spec (k + 0) (Z.of_nat (length p))); try lia;
    unfold bind at 1; cbn [modify]; apply IH; lia.
Qed.

(** ** One buffer for the message under assembly *)

(** Inside [assembleMessage] the header of the next chunk is read and
    dropped: whatever chunk stream id (and chunk type) it carries, the bytes
    that follow it fill the buffer of the message under assembly from
    [bytesRead] on. *)
Lemma assembleLoop_takes_any_chunk (fuel : nat) (messageLength bytesRead : Z)
    (payload data tail : list byte) (ch ch1 : ChunkHandler)
    (header : ChunkHeader) :
  0 <= bytesRead < messageLength ->
  messageLength + inChunkSize ch1 < 2 ^ 32 ->
  0 <= inChunkSize ch1 ->
  Z.of_nat (length payload) = messageLength ->
  ReadChunkHeader ch = Ok (header, ch1) ->
  socketr ch1 = data ++ tail ->
  Z.of_nat (length data)
  = Z.min (inChunkSize ch1) (messageLength - bytesRead) ->
  let next := bytesRead + Z.of_nat (length data) in
  assembleLoop (S fuel) messageLength bytesRead payload ch
  = assembleLoop fuel messageLength next
      (take (Z.to_nat bytesRead) payload ++ data
       ++ drop (Z.to_nat next) payload)
      (set_socketr tail ch1).
Proof.
  intros Hk Hbound Hc Hlen Hhdr Hsock Hdata next.
  rewrite (assembleLoop_step fuel messageLength bytesRead payload ch ch1
             header ltac:(lia) Hhdr).
  cbv zeta.
  rewrite (uint32_small (bytesRead + inChunkSize ch1)) by lia.
  rewrite (uint32_small (messageLength - bytesRead)) by lia.
  assert (Hnext : (if bytesRead + inChunkSize ch1 <? messageLength
                   then bytesRead + inChunkSize ch1
                   else uint32 (bytesRead + (messageLength - bytesRead)))
                  = next).
  { subst next. rewrite Hdata.
    destruct (Z.ltb_spec (bytesRead + inChunkSize ch1) messageLength).
    - lia.
    - rewrite uint32_small by lia. lia. }
  rewrite Hnext.
  rewrite (bind_Ok _ _ _ _ _
             (readInto_Ok payload data tail bytesRead next ch1
                ltac:(subst next; lia) ltac:(subst next; lia) Hsock
                ltac:(subst next; lia))).
  reflexivity.
Qed.

(** * Further properties of the chunk handler *)

(** ** Basic headers *)

Lemma byte_fmt_range (b : byte) : 0 <= Z.shiftr (byteZ b) 6 <= 3.
Proof. destruct b; vm_compute; split; discriminate. Qed.

Lemma byte_low6_range (b : byte) : 0 <= Z.land (byteZ b) 63 <= 63.
Proof. destruct b; vm_compute; split; discriminate. Qed.

Lemma BigEndianUint16_range (b0 b1 : byte) :
  0 <= BigEndianUint16 b0 b1 < 2 ^ 16.
Proof.
  unfold BigEndianUint16.
  pose proof (byteZ_range b0). pose proof (byteZ_range b1).
  apply lor_below; [lia | | lia]. apply shiftl_below; lia.
Qed.

Lemma peekBasicHeader_range (input rest : list byte) (fmt csid : Z)
    (long : bool) :
  peekBasicHeader input = Some (fmt, csid, long, rest) ->
  0 <= fmt <= 3
  /\ 2 <= csid <= 65599
  /\ (length rest < length input <= length rest + 3)%nat.
Proof.
  destruct input as [| b input]; [discriminate |]. cbn [peekBasicHeader].
  pose proof (byte_fmt_range b) as Hfmt.
  pose proof (byte_low6_range b) as Hlow.
  destruct (Z.eqb_spec (Z.land (byteZ b) 63) 0) as [H0 | H0].
  - destruct input as [| id input]; [discriminate |].
    intros [= <- <- <- <-]. pose proof (byteZ_range id). cbn [length].
    repeat split; lia.
  - destruct (Z.eqb_spec (Z.land (byteZ b) 63) 1) as [H1 | H1].
    + destruct input as [| b0 [| b1 input]]; try discriminate.
      intros [= <- <- <- <-]. pose proof (BigEndianUint16_range b0 b1).
      cbn [length]. repeat split; lia.
    + intros [= <- <- <- <-]. cbn [length]. repeat split; lia.
Qed.

Lemma readBasicHeader_peek (header : ChunkHeader) (ch : ChunkHandler) :
  match peekBasicHeader (socketr ch) with
  | Some (fmt, csid, long, rest) =>
      readBasicHeader header ch
      = Ok (set_BasicHeader {| FMT := fmt; ChunkStreamID := csid |} header,
            afterBasicHeader long rest ch)
  | None =>
      readBasicHeader header ch = Err EOF
      \/ readBasicHeader header ch = Err ErrUnexpectedEOF
  end.
Proof.
  unfold readBasicHeader, peekBasicHeader.
  destruct (socketr ch) as [| b input] eqn:Hsock.
  - left. unfold bind, ReadByte. rewrite Hsock. reflexivity.
  - rewrite (bind_Ok _ _ ch (set_socketr input ch) b)
      by (unfold ReadByte; rewrite Hsock; reflexivity).
    destruct (Z.land (byteZ b) 63 =? 0).
    + destruct input as [| id input'].
      * left. reflexivity.
      * rewrite (bind_Ok _ _ _ (set_socketr input' ch) id) by reflexivity.
        pose proof (byteZ_range id).
        rewrite uint32_small by lia. reflexivity.
    + destruct (Z.land (byteZ b) 63 =? 1); [| reflexivity].
      destruct input as [| b0 [| b1 input']].
      * left. reflexivity.
      * right. reflexivity.
      * rewrite (bind_Ok _ _ _ (set_socketr input' ch) [b0; b1])
          by reflexivity.
        pose proof (BigEndianUint16_range b0 b1).
        rewrite uint32_small by lia. reflexivity.
Qed.

(** X1. Whatever the input, a basic header that [readBasicHeader] accepts
    has a chunk type from 0 to 3 and a chunk stream id from 2 to 65599; it
    takes one to three bytes of input, leaves the rest of the header as it
    was and writes nothing: the 2 bytes that the three-byte form adds to
    [bytesReceived] never trigger an Acknowledgement. *)
Theorem readBasicHeader_ranges (header header' : ChunkHeader)
    (ch ch' : ChunkHandler) :
  readBasicHeader header ch = Ok (header', ch') ->
  exists bh : ChunkBasicHeader,
    BasicHeader header' = Some bh
    /\ 0 <= FMT bh <= 3
    /\ 2 <= ChunkStreamID bh <= 65599
    /\ MessageHeader header' = MessageHeader header
    /\ ElapsedTime header' = ElapsedTime header
    /\ (length (socketr ch') < length (socketr ch)
        <= length (socketr ch') + 3)%nat
    /\ sameSettings ch ch'.
Proof.
  intros Hread. pose proof (readBasicHeader_peek header ch) as Hpeek.
  destruct (peekBasicHeader (socketr ch))
    as [[[[fmt csid] long] rest] |] eqn:Hp.
  - rewrite Hread in Hpeek. injection Hpeek as -> ->.
    destruct (peekBasicHeader_range _ _ _ _ _ Hp) as (Hfmt & Hcsid & Hlen).
    exists {| FMT := fmt; ChunkStreamID := csid |}.
    assert (Hrest : socketr (afterBasicHeader long rest ch) = rest)
      by (destruct long; reflexivity).
    rewrite Hrest. cbn [BasicHeader set_BasicHeader FMT ChunkStreamID].
    split; [reflexivity |]. split; [exact Hfmt |]. split; [exact Hcsid |].
    split; [reflexivity |]. split; [reflexivity |]. split; [exact Hlen |].
    destruct long; repeat split.
  - destruct Hpeek as [Herr | Herr]; rewrite Hread in Herr; discriminate.
Qed.

(** ** Reasoning about calls on the chunk handler *)

Lemma ensures_bind {A B} (m : M A) (f : A -> M B) (ch : ChunkHandler)
    (Q : B -> ChunkHandler -> Prop) (E : error -> Prop) (P : Prop) :
  ensures m ch (fun a ch1 => ensures (f a) ch1 Q E P) E P ->
  ensures (bind m f) ch Q E P.
Proof.
  unfold ensures, bind. destruct (m ch) as [[a ch1] | | |]; auto.
Qed.

Lemma ensures_ret {A} (a : A) (ch : ChunkHandler)
    (Q : A -> ChunkHandler -> Prop) (E : error -> Prop) (P : Prop) :
  Q a ch -> ensures (ret a) ch Q E P.
Proof. intros HQ. exact HQ. Qed.

Lemma ensures_panic {A} (ch : ChunkHandler)
    (Q : A -> ChunkHandler -> Prop) (E : error -> Prop) (P : Prop) :
  P -> ensures panic ch Q E P.
Proof. intros HP. exact HP. Qed.

Lemma ensures_fail {A} (e : error) (ch : ChunkHandler)
    (Q : A -> ChunkHandler -> Prop) (E : error -> Prop) (P : Prop) :
  E e -> ensures (fail e) ch Q E P.
Proof. intros HE. exact HE. Qed.

Lemma ensures_get (ch : ChunkHandler)
    (Q : ChunkHandler -> ChunkHandler -> Prop) (E : error -> Prop)
    (P : Prop) :
  Q ch ch -> ensures get ch Q E P.
Proof. intros HQ. exact HQ. Qed.

Lemma ensures_modify (f : ChunkHandler -> ChunkHandler) (ch : ChunkHandler)
    (Q : unit -> ChunkHandler -> Prop) (E : error -> Prop) (P : Prop) :
  Q tt (f ch) -> ensures (modify f) ch Q E P.
Proof. intros HQ. exact HQ. Qed.

Lemma ensures_deref {A} (p : option A) (ch : ChunkHandler)
    (Q : A -> ChunkHandler -> Prop) (E : error -> Prop) (P : Prop) :
  (forall a, p = Some a -> Q a ch) ->
  (p = None -> P) ->
  ensures (deref p) ch Q E P.
Proof.
  intros HQ HP. destruct p as [a |]; [apply HQ | apply HP]; reflexivity.
Qed.

Lemma ensures_ReadFull (n : nat) (ch : ChunkHandler)
    (Q : list byte -> ChunkHandler -> Prop) (E : error -> Prop) (P : Prop) :
  (forall data rest, socketr ch = data ++ rest -> length data = n ->
     Q data (set_socketr rest ch)) ->
  (forall e, endOfInput e -> E e) ->
  ensures (ReadFull n) ch Q E P.
Proof.
  intros HQ HE. unfold ensures, ReadFull.
  destruct (Nat.leb_spec n (length (socketr ch))) as [Hle | Hlt].
  - apply HQ; [symmetry; apply take_drop | rewrite length_take; lia].
  - destruct (socketr ch); apply HE; [left | right]; reflexivity.
Qed.

Lemma ensures_weaken {A} (m : M A) (ch : ChunkHandler)
    (Q Q' : A -> ChunkHandler -> Prop) (E E' : error -> Prop)
    (P P' : Prop) :
  ensures m ch Q E P ->
  (forall a ch', Q a ch' -> Q' a ch') ->
  (forall e, E e -> E' e) ->
  (P -> P') ->
  ensures m ch Q' E' P'.
Proof.
  unfold ensures. intros Hm HQ HE HP.
  destruct (m ch) as [[a ch'] | | |]; auto.
Qed.

Lemma LittleEndianUint32_range (b0 b1 b2 b3 : byte) :
  0 <= LittleEndianUint32 b0 b1 b2 b3 < 2 ^ 32.
Proof.
  unfold LittleEndianUint32.
  pose proof (byteZ_range b0). pose proof (byteZ_range b1).
  pose proof (byteZ_range b2). pose proof (byteZ_range b3).
  repeat (apply lor_below; [lia | |]); try apply shiftl_below; lia.
Qed.

Lemma BigEndianUint32_range (b0 b1 b2 b3 : byte) :
  0 <= BigEndianUint32 b0 b1 b2 b3 < 2 ^ 32.
Proof.
  unfold BigEndianUint32.
  pose proof (byteZ_range b0). pose proof (byteZ_range b1).
  pose proof (byteZ_range b2). pose proof (byteZ_range b3).
  repeat (apply lor_below; [lia | |]); try apply shiftl_below; lia.
Qed.

Lemma readBasicHeader_ensures (header : ChunkHeader) (ch : ChunkHandler)
    (Q : ChunkHeader -> ChunkHandler -> Prop) (E : error -> Prop)
    (P : Prop) :
  (forall fmt csid long rest,
     peekBasicHeader (socketr ch) = Some (fmt, csid, long, rest) ->
     Q (set_BasicHeader {| FMT := fmt; ChunkStreamID := csid |} header)
       (afterBasicHeader long rest ch)) ->
  (forall e, endOfInput e -> E e) ->
  ensures (readBasicHeader header) ch Q E P.
Proof.
  intros HQ HE. unfold ensures.
  pose proof (readBasicHeader_peek header ch) as Hpeek.
  destruct (peekBasicHeader (socketr ch))
    as [[[[fmt csid] long] rest] |] eqn:Hp.
  - rewrite Hpeek. apply HQ. reflexivity.
  - destruct Hpeek as [-> | ->]; apply HE; [left | right]; reflexivity.
Qed.

Lemma headersComplete_prev (ch : ChunkHandler) (csid : Z)
    (pm : ChunkMessageHeader) :
  headersComplete ch ->
  MessageHeader (prevHeader ch csid) = Some pm ->
  messageHeaderInRange pm /\ 0 <= ElapsedTime (prevHeader ch csid) < 2 ^ 32.
Proof.
  intros Hall Hpm. unfold prevHeader in *.
  destruct (prevChunkHeader ch !! csid) as [h |] eqn:Hh;
    [| discriminate Hpm].
  cbn in Hpm |- *.
  destruct (Hall csid h Hh)
    as (bh & mh & _ & Hmh & _ & _ & Hts & Hlen & Hty & Hms & _ & Hel).
  rewrite Hmh in Hpm. injection Hpm as <-.
  repeat split; lia.
Qed.

Lemma headersComplete_no_prev (ch : ChunkHandler) (csid : Z) :
  headersComplete ch ->
  MessageHeader (prevHeader ch csid) = None ->
  prevChunkHeader ch !! csid = None.
Proof.
  intros Hall Hnone. unfold prevHeader in Hnone.
  destruct (prevChunkHeader ch !! csid) as [h |] eqn:Hh; [| reflexivity].
  destruct (Hall csid h Hh) as (bh & mh & _ & Hmh & _).
  cbn in Hnone. rewrite Hmh in Hnone. discriminate Hnone.
Qed.

Lemma elapsed_prev_range (ch : ChunkHandler) (csid : Z) :
  headersComplete ch -> 0 <= ElapsedTime (prevHeader ch csid) < 2 ^ 32.
Proof.
  intros Hall. unfold prevHeader.
  destruct (prevChunkHeader ch !! csid) as [h |] eqn:Hh; [| cbn; lia].
  destruct (Hall csid h Hh) as (bh & mh & Hrest). cbn. tauto.
Qed.

Lemma readMessageHeader_ensures (header : ChunkHeader)
    (bh : ChunkBasicHeader) (ch : ChunkHandler) (P : Prop) :
  BasicHeader header = Some bh ->
  0 <= FMT bh <= 3 ->
  headersComplete ch ->
  (FMT bh <> 0 ->
   prevChunkHeader ch !! ChunkStreamID bh = None ->
   (messageHeaderSize (FMT bh) <= length (socketr ch))%nat ->
   P) ->
  ensures (readMessageHeader header) ch
    (fun header' ch' =>
       exists mh : ChunkMessageHeader,
         header' = set_MessageHeader mh header
         /\ messageHeaderInRange mh
         /\ ch' = set_socketr (socketr ch') ch
         /\ (length (socketr ch') + messageHeaderSize (FMT bh)
             = length (socketr ch))%nat)
    endOfInput P.
Proof.
  intros Hbh Hfmt Hall HP. unfold readMessageHeader. rewrite Hbh.
  apply ensures_bind, ensures_deref; [| discriminate]. intros bh' [= <-].
  unfold messageHeaderSize in *.
  destruct (Z.eqb_spec (FMT bh) ChunkType0) as [H0 | H0];
    [| destruct (Z.eqb_spec (FMT bh) ChunkType1) as [H1 | H1];
       [| destruct (Z.eqb_spec (FMT bh) ChunkType2) as [H2 | H2];
          [| destruct (Z.eqb_spec (FMT bh) ChunkType3) as [H3 | H3]]]].
  - apply ensures_bind, ensures_ReadFull; [| auto].
    intros data rest Hsock Hlen.
    do 12 (destruct data as [| ? data]; try discriminate Hlen).
    apply ensures_ret. eexists. split; [reflexivity |].
    split.
    { pose proof (BigEndianUint24_range b b0 b1).
      pose proof (BigEndianUint24_range b2 b3 b4).
      pose proof (byteZ_range b5).
      pose proof (LittleEndianUint32_range b6 b7 b8 b9).
      repeat split; cbn; lia. }
    split; [reflexivity |]. cbn. rewrite Hsock. cbn. lia.
  - apply ensures_bind, ensures_ReadFull; [| auto].
    intros data rest Hsock Hlen.
    do 8 (destruct data as [| ? data]; try discriminate Hlen).
    apply ensures_bind, ensures_get.
    apply ensures_bind, ensures_deref.
    2:{ intros Hnone. apply HP; [exact H0 | | rewrite Hsock; cbn; lia].
        exact (headersComplete_no_prev ch _ Hall Hnone). }
    intros pm Hpm.
    apply ensures_ret. eexists. split; [reflexivity |].
    destruct (headersComplete_prev ch (ChunkStreamID bh) pm Hall Hpm)
      as [(_ & _ & _ & Hms) _].
    split.
    { pose proof (BigEndianUint24_range b b0 b1).
      pose proof (BigEndianUint24_range b2 b3 b4).
      pose proof (byteZ_range b5).
      repeat split; cbn; lia. }
    split; [reflexivity |]. cbn. rewrite Hsock. cbn. lia.
  - apply ensures_bind, ensures_ReadFull; [| auto].
    intros data rest Hsock Hlen.
    do 4 (destruct data as [| ? data]; try discriminate Hlen).
    apply ensures_bind, ensures_get.
    apply ensures_bind, ensures_deref.
    2:{ intros Hnone. apply HP; [exact H0 | | rewrite Hsock; cbn; lia].
        exact (headersComplete_no_prev ch _ Hall Hnone). }
    intros pm Hpm.
    apply ensures_ret. eexists. split; [reflexivity |].
    destruct (headersComplete_prev ch (ChunkStreamID bh) pm Hall Hpm)
      as [(_ & Hlen' & Hty & Hms) _].
    split.
    { pose proof (BigEndianUint24_range b b0 b1).
      repeat split; cbn; lia. }
    split; [reflexivity |]. cbn. rewrite Hsock. cbn. lia.
  - apply ensures_bind, ensures_get.
    apply ensures_bind, ensures_deref.
    2:{ intros Hnone. apply HP; [exact H0 | | lia].
        exact (headersComplete_no_prev ch _ Hall Hnone). }
    intros pm Hpm.
    apply ensures_ret. eexists. split; [reflexivity |].
    destruct (headersComplete_prev ch (ChunkStreamID bh) pm Hall Hpm)
      as [(_ & Hlen' & Hty & Hms) _].
    split; [repeat split; cbn; lia |].
    split; [destruct ch; reflexivity |]. cbn. lia.
  - unfold ChunkType0, ChunkType1, ChunkType2, ChunkType3 in *. lia.
Qed.

Lemma headersComplete_afterBasicHeader (long : bool) (rest : list byte)
    (ch : ChunkHandler) :
  headersComplete ch -> headersComplete (afterBasicHeader long rest ch).
Proof. intros Hall. destruct long; exact Hall. Qed.

Lemma ReadChunkHeader_ensures (ch : ChunkHandler) (P : Prop) :
  headersComplete ch ->
  (forall fmt csid long rest,
     peekBasicHeader (socketr ch) = Some (fmt, csid, long, rest) ->
     fmt <> 0 ->
     prevChunkHeader ch !! csid = None ->
     (messageHeaderSize fmt <= length rest)%nat ->
     P) ->
  ensures ReadChunkHeader ch
    (fun header ch' =>
       exists csid : Z,
         2 <= csid <= 65599
         /\ headerComplete csid header
         /\ ch' = set_prevChunkHeader
                    (<[csid := header]> (prevChunkHeader ch))
                    (set_bytesReceived (bytesReceived ch')
                       (set_socketr (socketr ch') ch))
         /\ (length (socketr ch') < length (socketr ch))%nat)
    endOfInput P.
Proof.
  intros Hall HP. unfold ReadChunkHeader.
  apply ensures_bind, readBasicHeader_ensures; [| auto].
  intros fmt csid long rest Hpeek.
  destruct (peekBasicHeader_range _ _ _ _ _ Hpeek) as (Hfmt & Hcsid & Hlen).
  set (ch0 := afterBasicHeader long rest ch).
  assert (Hch0 : ch0 = set_bytesReceived (bytesReceived ch0)
                         (set_socketr rest ch))
    by (subst ch0; destruct long; destruct ch; reflexivity).
  assert (Hrest0 : socketr ch0 = rest)
    by (subst ch0; destruct long; reflexivity).
  assert (Hprev0 : prevChunkHeader ch0 = prevChunkHeader ch)
    by (subst ch0; destruct long; reflexivity).
  apply ensures_bind.
  eapply ensures_weaken;
    [apply (readMessageHeader_ensures
              (set_BasicHeader {| FMT := fmt; ChunkStreamID := csid |}
                 zeroChunkHeader)
              {| FMT := fmt; ChunkStreamID := csid |}
              ch0 P eq_refl Hfmt
              (headersComplete_afterBasicHeader long rest ch Hall))
    | | auto | auto].
  { cbn [FMT ChunkStreamID]. rewrite Hprev0, Hrest0. intros Hne Hnone Hsize.
    exact (HP fmt csid long rest Hpeek Hne Hnone Hsize). }
  intros header1 ch1 (mh & -> & Hrange & Hch1 & Hlen1).
  destruct Hrange as (Hts & Hml & Hty & Hms).
  cbn [MessageHeader set_MessageHeader].
  apply ensures_bind, ensures_deref; [| discriminate]. intros mh' [= <-].
  assert (Hfinal : forall (ext : Z) (isExt : bool) (ch2 : ChunkHandler),
             0 <= ext < 2 ^ 32 ->
             ch2 = set_socketr (socketr ch2) ch1 ->
             (length (socketr ch2) <= length (socketr ch1))%nat ->
             ensures
               (let '(c2, isExtendedTimestamp) :=
                  (set_ExtendedTimestamp ext
                     (set_MessageHeader mh
                        (set_BasicHeader
                           {| FMT := fmt; ChunkStreamID := csid |}
                           zeroChunkHeader)), isExt) in
                do bh <- deref (BasicHeader c2) ;;
                let csid := ChunkStreamID bh in
                do handler <- get ;;
                let ch3 :=
                  if FMT bh =? ChunkType0 then
                    if isExtendedTimestamp
                    then set_ElapsedTime (ExtendedTimestamp c2) c2
                    else set_ElapsedTime (Timestamp mh) c2
                  else
                    if isExtendedTimestamp
                    then set_ElapsedTime
                           (uint32 (ElapsedTime (prevHeader handler csid)
                                    + ExtendedTimestamp c2)) c2
                    else set_ElapsedTime
                           (uint32 (ElapsedTime (prevHeader handler csid)
                                    + Timestamp mh)) c2 in
                run modify (fun h =>
                      set_prevChunkHeader
                        (<[csid := ch3]> (prevChunkHeader h)) h) ;;
                ret ch3) ch2
               (fun header ch' =>
                  exists csid : Z,
                    2 <= csid <= 65599
                    /\ headerComplete csid header
                    /\ ch' = set_prevChunkHeader
                               (<[csid := header]> (prevChunkHeader ch))
                               (set_bytesReceived (bytesReceived ch')
                                  (set_socketr (socketr ch') ch))
                    /\ (length (socketr ch') < length (socketr ch))%nat)
               endOfInput P).
  { intros ext isExt ch2 Hext Hch2 Hlen2.
    cbv iota beta. cbn [BasicHeader set_ExtendedTimestamp set_MessageHeader
                          set_BasicHeader].
    apply ensures_bind, ensures_deref; [| discriminate]. intros bh [= <-].
    cbn [FMT ChunkStreamID].
    apply ensures_bind, ensures_get.
    apply ensures_bind, ensures_modify. apply ensures_ret.
    exists csid. split; [exact Hcsid |]. split.
    - eexists _, mh.
      assert (Hclock : forall t, 0 <= uint32 t < 2 ^ 32)
        by (intros t; apply uint32_range).
      destruct (fmt =? ChunkType0), isExt;
        cbn [BasicHeader MessageHeader ExtendedTimestamp ElapsedTime
               set_ElapsedTime set_ExtendedTimestamp set_MessageHeader
               set_BasicHeader zeroChunkHeader ChunkStreamID FMT];
        (split; [reflexivity |]); (split; [reflexivity |]);
        (split; [reflexivity |]);
        repeat split; cbn [FMT]; try lia; try apply Hclock.
    - split.
      + rewrite Hch2, Hch1, Hch0. destruct ch. reflexivity.
      + rewrite Hrest0 in Hlen1. unfold set_prevChunkHeader. cbn [socketr].
        lia. }
  destruct (Timestamp mh =? 16777215).
  - apply ensures_bind. unfold readExtendedTimestamp. apply ensures_bind.
    apply ensures_bind, ensures_ReadFull; [| auto].
    intros data rest' Hsock Hlen4.
    do 5 (destruct data as [| ? data]; try discriminate Hlen4).
    apply ensures_ret. apply ensures_ret.
    apply (Hfinal (BigEndianUint32 b b0 b1 b2) true).
    + apply BigEndianUint32_range.
    + reflexivity.
    + cbn [socketr set_socketr]. rewrite Hsock, length_app. lia.
  - apply ensures_bind, ensures_ret.
    apply (Hfinal 0 false ch1); [lia | destruct ch1; reflexivity | lia].
Qed.

(** ** Chunk headers: an invariant of the stored headers *)

Lemma headersComplete_NewChunkHandler (reader : list byte) :
  headersComplete (NewChunkHandler reader).
Proof. intros csid h Hh. cbn in Hh. rewrite lookup_empty in Hh. discriminate. Qed.

(** X2. The headers the handler keeps per chunk stream stay complete: when
    every stored header has its basic and message header set and its fields
    within the range of their wire format (as in a new handler, which stores
    none), a header that [ReadChunkHeader] returns is complete too, it is
    stored under its chunk stream id (from 2 to 65599) and no other entry
    changes; nothing is written, the chunk sizes, the window and the
    acknowledgement flag are as before, and input was consumed. *)
Theorem ReadChunkHeader_keeps_headers_complete (ch ch' : ChunkHandler)
    (header : ChunkHeader) :
  headersComplete ch ->
  ReadChunkHeader ch = Ok (header, ch') ->
  exists csid : Z,
    2 <= csid <= 65599
    /\ headerComplete csid header
    /\ prevChunkHeader ch' = <[csid := header]> (prevChunkHeader ch)
    /\ headersComplete ch'
    /\ socketw ch' = socketw ch
    /\ inChunkSize ch' = inChunkSize ch
    /\ outChunkSize ch' = outChunkSize ch
    /\ windowAckSize ch' = windowAckSize ch
    /\ ackSent ch' = ackSent ch
    /\ (length (socketr ch') < length (socketr ch))%nat.
Proof.
  intros Hall Hread.
  pose proof (ReadChunkHeader_ensures ch True Hall
                (fun _ _ _ _ _ _ _ _ => I)) as Hspec.
  unfold ensures in Hspec. rewrite Hread in Hspec.
  destruct Hspec as (csid & Hcsid & Hcomplete & Hch' & Hlen).
  exists csid. split; [exact Hcsid |]. split; [exact Hcomplete |].
  assert (Hprev : prevChunkHeader ch' = <[csid := header]> (prevChunkHeader ch))
    by (rewrite Hch'; reflexivity).
  split; [exact Hprev |]. split.
  - intros csid' h Hh. rewrite Hprev in Hh.
    destruct (Z.eq_dec csid csid') as [<- | Hne].
    + rewrite lookup_insert_eq in Hh. injection Hh as <-. exact Hcomplete.
    + rewrite lookup_insert_ne in Hh by exact Hne. exact (Hall csid' h Hh).
  - rewrite Hch'. repeat split. exact Hlen.
Qed.

Lemma ReadChunkHeader_keeps_headers_complete_witness :
  let ch := NewChunkHandler Scenario.type0ThenType3 in
  headersComplete ch
  /\ exists (header : ChunkHeader) (ch' : ChunkHandler),
       ReadChunkHeader ch = Ok (header, ch')
       /\ headerComplete 3 header
       /\ headersComplete ch'
       /\ prevChunkHeader ch' !! 3 = Some header.
Proof.
  intros ch.
  pose proof (headersComplete_NewChunkHandler Scenario.type0ThenType3)
    as Hall.
  split; [exact Hall |].
  destruct (ReadChunkHeader ch) as [[header ch'] | | |] eqn:Hread;
    try (vm_compute in Hread; discriminate Hread).
  destruct (ReadChunkHeader_keeps_headers_complete ch ch' header Hall Hread)
    as (csid & _ & Hcomplete & Hprev & Hall' & _).
  assert (Hcsid : csid = 3).
  { destruct Hcomplete as (bh & mh & Hbh & _ & Hid & _).
    vm_compute in Hread. injection Hread as <- <-.
    cbn in Hbh. injection Hbh as <-. symmetry. exact Hid. }
  subst csid.
  exists header, ch'. split; [reflexivity |]. split; [exact Hcomplete |].
  split; [exact Hall' |]. rewrite Hprev. apply lookup_insert_eq.
Defined.

(** ** Chunk headers: errors and panics *)

Lemma readMessageHeader_errors (header : ChunkHeader) (bh : ChunkBasicHeader)
    (ch : ChunkHandler) :
  BasicHeader header = Some bh ->
  0 <= FMT bh <= 3 ->
  ensures (readMessageHeader header) ch
    (fun header' _ => BasicHeader header' = Some bh) endOfInput True.
Proof.
  intros Hbh Hfmt. unfold readMessageHeader. rewrite Hbh.
  apply ensures_bind, ensures_deref; [| auto]. intros bh' [= <-].
  destruct (Z.eqb_spec (FMT bh) ChunkType0) as [H0 | H0];
    [| destruct (Z.eqb_spec (FMT bh) ChunkType1) as [H1 | H1];
       [| destruct (Z.eqb_spec (FMT bh) ChunkType2) as [H2 | H2];
          [| destruct (Z.eqb_spec (FMT bh) ChunkType3) as [H3 | H3]]]].
  - apply ensures_bind, ensures_ReadFull; [| auto]. intros data rest _ Hlen.
    do 12 (destruct data as [| ? data]; try discriminate Hlen).
    apply ensures_ret. exact Hbh.
  - apply ensures_bind, ensures_ReadFull; [| auto]. intros data rest _ Hlen.
    do 8 (destruct data as [| ? data]; try discriminate Hlen).
    apply ensures_bind, ensures_get.
    apply ensures_bind, ensures_deref; [| auto]. intros pm _.
    apply ensures_ret. exact Hbh.
  - apply ensures_bind, ensures_ReadFull; [| auto]. intros data rest _ Hlen.
    do 4 (destruct data as [| ? data]; try discriminate Hlen).
    apply ensures_bind, ensures_get.
    apply ensures_bind, ensures_deref; [| auto]. intros pm _.
    apply ensures_ret. exact Hbh.
  - apply ensures_bind, ensures_get.
    apply ensures_bind, ensures_deref; [| auto]. intros pm _.
    apply ensures_ret. exact Hbh.
  - unfold ChunkType0, ChunkType1, ChunkType2, ChunkType3 in *. lia.
Qed.

(** On a reader that fails at the end of its input only, a failed
    [ReadChunkHeader] found the input too short. *)
Lemma ReadChunkHeader_errors (ch : ChunkHandler) (e : error) :
  ReadChunkHeader ch = Err e -> e = EOF \/ e = ErrUnexpectedEOF.
Proof.
  intros Herr.
  assert (Hspec : ensures ReadChunkHeader ch (fun _ _ => True) endOfInput
                    True).
  { unfold ReadChunkHeader.
    apply ensures_bind, readBasicHeader_ensures; [| auto].
    intros fmt csid long rest Hpeek.
    destruct (peekBasicHeader_range _ _ _ _ _ Hpeek) as (Hfmt & _ & _).
    apply ensures_bind.
    eapply ensures_weaken;
      [apply (readMessageHeader_errors
                (set_BasicHeader {| FMT := fmt; ChunkStreamID := csid |}
                   zeroChunkHeader)
                {| FMT := fmt; ChunkStreamID := csid |} _ eq_refl Hfmt)
      | | auto | auto].
    intros header1 ch1 Hbh.
    apply ensures_bind, ensures_deref; [| auto]. intros mh _.
    apply ensures_bind.
    - destruct (Timestamp mh =? 16777215).
      + apply ensures_bind. unfold readExtendedTimestamp.
        apply ensures_bind, ensures_ReadFull; [| auto].
        intros data rest' _ Hlen.
        do 5 (destruct data as [| ? data]; try discriminate Hlen).
        apply ensures_ret, ensures_ret.
        apply ensures_bind, ensures_deref; [| auto]. intros bh _.
        apply ensures_bind, ensures_get.
        apply ensures_bind, ensures_modify, ensures_ret. exact I.
      + apply ensures_ret.
        apply ensures_bind, ensures_deref; [| auto]. intros bh _.
        apply ensures_bind, ensures_get.
        apply ensures_bind, ensures_modify, ensures_ret. exact I. }
  unfold ensures in Hspec. rewrite Herr in Hspec. exact Hspec.
Qed.

(** X3. The "unknown chunk type" error is never returned by
    [ReadChunkHeader], whatever the handler holds and whatever the input:
    [readMessageHeader] returns it, without reading, for a chunk type
    outside 0..3, and [readBasicHeader] takes the chunk type from two
    bits. *)
Theorem ReadChunkHeader_never_unknown_chunk_type (ch : ChunkHandler) :
  ReadChunkHeader ch <> Err ErrUnknownChunkType
  /\ (forall (header : ChunkHeader) (bh : ChunkBasicHeader),
        BasicHeader header = Some bh ->
        ~ 0 <= FMT bh <= 3 ->
        readMessageHeader header ch = Err ErrUnknownChunkType).
Proof.
  split.
  - intros Herr.
    destruct (ReadChunkHeader_errors ch _ Herr); discriminate.
  - intros header bh Hbh Hfmt. unfold readMessageHeader. rewrite Hbh.
    cbn [deref]. rewrite bind_ret.
    unfold ChunkType0, ChunkType1, ChunkType2, ChunkType3.
    destruct (Z.eqb_spec (FMT bh) 0); [lia |].
    destruct (Z.eqb_spec (FMT bh) 1); [lia |].
    destruct (Z.eqb_spec (FMT bh) 2); [lia |].
    destruct (Z.eqb_spec (FMT bh) 3); [lia |].
    reflexivity.
Qed.

Lemma ReadChunkHeader_never_unknown_chunk_type_witness :
  ReadChunkHeader (NewChunkHandler [xc3; x00; x00])
  <> Err ErrUnknownChunkType
  /\ readMessageHeader
       (set_BasicHeader {| FMT := 4; ChunkStreamID := 3 |} zeroChunkHeader)
       (NewChunkHandler [xc3; x00; x00])
     = Err ErrUnknownChunkType.
Proof.
  destruct (ReadChunkHeader_never_unknown_chunk_type
              (NewChunkHandler [xc3; x00; x00])) as [Hnever Hdefault].
  split; [exact Hnever |].
  apply (Hdefault
           (set_BasicHeader {| FMT := 4; ChunkStreamID := 3 |}
              zeroChunkHeader)
           {| FMT := 4; ChunkStreamID := 3 |} eq_refl).
  cbn. lia.
Defined.

Lemma readMessageHeader_no_previous_header (header : ChunkHeader)
    (fmt csid : Z) (ch : ChunkHandler) :
  BasicHeader header = Some {| FMT := fmt; ChunkStreamID := csid |} ->
  1 <= fmt <= 3 ->
  prevChunkHeader ch !! csid = None ->
  (messageHeaderSize fmt <= length (socketr ch))%nat ->
  readMessageHeader header ch = Panic.
Proof.
  intros Hbh Hfmt Hnone Hsize. unfold readMessageHeader. rewrite Hbh.
  cbn [deref]. rewrite bind_ret. cbn [FMT ChunkStreamID].
  assert (Hprev : MessageHeader (prevHeader ch csid) = None)
    by (unfold prevHeader; rewrite Hnone; reflexivity).
  assert (Hcases : fmt = 1 \/ fmt = 2 \/ fmt = 3) by lia.
  destruct Hcases as [-> | [-> | ->]]; cbn in Hsize;
    cbn [Z.eqb Pos.eqb ChunkType0 ChunkType1 ChunkType2 ChunkType3].
  - destruct (socketr ch) as [| t0 [| t1 [| t2 [| l0 [| l1 [| l2 [| ty rest]]]]]]]
      eqn:Hsock; cbn in Hsize; try lia.
    rewrite (bind_Ok _ _ _ _ _
               (ReadFull_Ok 7 [t0; t1; t2; l0; l1; l2; ty] rest ch Hsock
                  eq_refl)).
    rewrite bind_get. unfold bind.
    change (prevHeader (set_socketr rest ch) csid) with (prevHeader ch csid).
    rewrite Hprev. reflexivity.
  - destruct (socketr ch) as [| t0 [| t1 [| t2 rest]]] eqn:Hsock;
      cbn in Hsize; try lia.
    rewrite (bind_Ok _ _ _ _ _
               (ReadFull_Ok 3 [t0; t1; t2] rest ch Hsock eq_refl)).
    rewrite bind_get. unfold bind.
    change (prevHeader (set_socketr rest ch) csid) with (prevHeader ch csid).
    rewrite Hprev. reflexivity.
  - rewrite bind_get. unfold bind. rewrite Hprev. reflexivity.
Qed.

(** X4. On a handler whose stored headers are complete, [ReadChunkHeader]
    panics (a nil pointer is dereferenced) exactly when the chunk is of type
    1, 2 or 3, its chunk stream has no previous header, and the input holds
    the whole message header of that type (7, 3 or 0 bytes): so a first
    chunk of a compressed type brings the reader down, and a chunk of type 0
    or on a known chunk stream never does. *)
Theorem ReadChunkHeader_panics_iff_no_previous_header (ch : ChunkHandler) :
  headersComplete ch ->
  ReadChunkHeader ch = Panic
  <-> exists (fmt csid : Z) (long : bool) (rest : list byte),
        peekBasicHeader (socketr ch) = Some (fmt, csid, long, rest)
        /\ fmt <> ChunkType0
        /\ prevChunkHeader ch !! csid = None
        /\ (messageHeaderSize fmt <= length rest)%nat.
Proof.
  intros Hall. split.
  - intros Hpanic.
    pose proof (ReadChunkHeader_ensures ch
                  (exists (fmt csid : Z) (long : bool) (rest : list byte),
                      peekBasicHeader (socketr ch)
                      = Some (fmt, csid, long, rest)
                      /\ fmt <> ChunkType0
                      /\ prevChunkHeader ch !! csid = None
                      /\ (messageHeaderSize fmt <= length rest)%nat)
                  Hall) as Hspec.
    unfold ensures in Hspec. rewrite Hpanic in Hspec. apply Hspec.
    intros fmt csid long rest Hpeek Hne Hnone Hsize.
    exists fmt, csid, long, rest. repeat split; assumption.
  - intros (fmt & csid & long & rest & Hpeek & Hne & Hnone & Hsize).
    destruct (peekBasicHeader_range _ _ _ _ _ Hpeek) as (Hfmt & _ & _).
    unfold ReadChunkHeader.
    pose proof (readBasicHeader_peek zeroChunkHeader ch) as Hbasic.
    rewrite Hpeek in Hbasic. rewrite (bind_Ok _ _ _ _ _ Hbasic).
    unfold bind at 1.
    rewrite (readMessageHeader_no_previous_header _ fmt csid); try reflexivity.
    + unfold ChunkType0 in Hne. lia.
    + destruct long; exact Hnone.
    + destruct long; exact Hsize.
Qed.

Lemma ReadChunkHeader_panics_iff_no_previous_header_witness :
  let ch := NewChunkHandler [xc3] in
  headersComplete ch /\ ReadChunkHeader ch = Panic.
Proof.
  intros ch.
  pose proof (headersComplete_NewChunkHandler [xc3]) as Hall.
  split; [exact Hall |].
  apply (proj2 (ReadChunkHeader_panics_iff_no_previous_header ch Hall)).
  exists 3, 3, false, [].
  split; [reflexivity |]. split; [discriminate |].
  split; [reflexivity | apply Nat.le_refl].
Defined.

Lemma readBasicHeader_ranges_witness :
  let ch := NewChunkHandler [x41; x01; x00; xff] in
  exists (header' : ChunkHeader) (ch' : ChunkHandler),
    readBasicHeader zeroChunkHeader ch = Ok (header', ch')
    /\ BasicHeader header' = Some {| FMT := 1; ChunkStreamID := 320 |}
    /\ socketr ch' = [xff]
    /\ bytesReceived ch' = 2
    /\ socketw ch' = [].
Proof.
  intros ch.
  destruct (readBasicHeader zeroChunkHeader ch) as [[header' ch'] | | |]
    eqn:Hread; try (vm_compute in Hread; discriminate Hread).
  destruct (readBasicHeader_ranges _ _ _ _ Hread)
    as (bh & Hbh & _ & _ & _ & _ & _ & Hw & _).
  exists header', ch'. split; [reflexivity |].
  vm_compute in Hread. injection Hread as <- <-.
  repeat split.
Defined.

(** ** Chunk headers of type 1 and 2 *)

Lemma afterBasicHeader_prev (long : bool) (rest : list byte)
    (ch : ChunkHandler) (csid : Z) :
  prevHeader (afterBasicHeader long rest ch) csid = prevHeader ch csid.
Proof. destruct long; reflexivity. Qed.

Lemma afterBasicHeader_socketr (long : bool) (rest : list byte)
    (ch : ChunkHandler) :
  socketr (afterBasicHeader long rest ch) = rest.
Proof. destruct long; reflexivity. Qed.

(** X5. A type-1 chunk (without extended timestamp) on a chunk stream with
    a previous header takes timestamp delta, message length and message type
    from its 7 header bytes and the message stream id from the previous
    header; the elapsed time of the chunk stream advances by the delta,
    modulo 2^32, and the header is stored for the chunk stream. *)
Theorem ReadChunkHeader_type1_inherits_stream_id
    (t0 t1 t2 l0 l1 l2 ty : byte) (rest : list byte) (csid : Z)
    (long : bool) (ch : ChunkHandler) (prev : ChunkHeader)
    (pm : ChunkMessageHeader) :
  peekBasicHeader (socketr ch)
  = Some (ChunkType1, csid, long, [t0; t1; t2; l0; l1; l2; ty] ++ rest) ->
  prevChunkHeader ch !! csid = Some prev ->
  MessageHeader prev = Some pm ->
  BigEndianUint24 t0 t1 t2 <> 16777215 ->
  exists (header : ChunkHeader) (ch' : ChunkHandler),
    ReadChunkHeader ch = Ok (header, ch')
    /\ BasicHeader header
       = Some {| FMT := ChunkType1; ChunkStreamID := csid |}
    /\ MessageHeader header
       = Some {| Timestamp := BigEndianUint24 t0 t1 t2;
                 MessageLength := BigEndianUint24 l0 l1 l2;
                 MessageTypeID := byteZ ty;
                 MessageStreamID := MessageStreamID pm |}
    /\ ElapsedTime header
       = uint32 (ElapsedTime prev + BigEndianUint24 t0 t1 t2)
    /\ socketr ch' = rest
    /\ prevChunkHeader ch' = <[csid := header]> (prevChunkHeader ch).
Proof.
  intros Hpeek Hprev Hpm Hts.
  pose proof (readBasicHeader_peek zeroChunkHeader ch) as Hbasic.
  rewrite Hpeek in Hbasic.
  set (ch0 := afterBasicHeader long ([t0; t1; t2; l0; l1; l2; ty] ++ rest) ch)
    in *.
  assert (Hprev0 : prevHeader ch0 csid = prev)
    by (subst ch0; rewrite afterBasicHeader_prev; unfold prevHeader;
        rewrite Hprev; reflexivity).
  assert (Hmh : readMessageHeader
                  (set_BasicHeader
                     {| FMT := ChunkType1; ChunkStreamID := csid |}
                     zeroChunkHeader) ch0
                = Ok (set_MessageHeader
                        {| Timestamp := BigEndianUint24 t0 t1 t2;
                           MessageLength := BigEndianUint24 l0 l1 l2;
                           MessageTypeID := byteZ ty;
                           MessageStreamID := MessageStreamID pm |}
                        (set_BasicHeader
                           {| FMT := ChunkType1; ChunkStreamID := csid |}
                           zeroChunkHeader),
                      set_socketr rest ch0)).
  { unfold readMessageHeader. cbn [BasicHeader set_BasicHeader deref].
    rewrite bind_ret. cbn [FMT ChunkStreamID].
    change (ChunkType1 =? ChunkType0) with false.
    change (ChunkType1 =? ChunkType1) with true. cbv iota.
    rewrite (bind_Ok _ _ _ _ _
               (ReadFull_Ok 7 [t0; t1; t2; l0; l1; l2; ty] rest ch0
                  (afterBasicHeader_socketr _ _ _) eq_refl)).
    rewrite bind_get.
    change (prevHeader (set_socketr rest ch0) csid) with (prevHeader ch0 csid).
    rewrite Hprev0, Hpm. reflexivity. }
  unfold ReadChunkHeader.
  rewrite (bind_Ok _ _ _ _ _ Hbasic), (bind_Ok _ _ _ _ _ Hmh).
  cbn [MessageHeader set_MessageHeader deref]. rewrite bind_ret.
  cbn [Timestamp].
  destruct (Z.eqb_spec (BigEndianUint24 t0 t1 t2) 16777215) as [Habs | _];
    [contradiction |].
  rewrite bind_ret. cbv iota beta.
  cbn [BasicHeader set_MessageHeader set_BasicHeader deref].
  rewrite bind_ret, bind_get. cbn [FMT ChunkStreamID].
  change (ChunkType1 =? ChunkType0) with false. cbv iota.
  change (prevHeader (set_socketr rest ch0) csid) with (prevHeader ch0 csid).
  rewrite Hprev0.
  eexists _, _. split; [reflexivity |].
  repeat split. cbn. subst ch0. destruct long; reflexivity.
Qed.

Lemma ReadChunkHeader_type1_inherits_stream_id_witness :
  let ch := set_socketr [x43; x00; x00; x05; x00; x00; x02; x08; xaa]
              Scenario.afterType0 in
  exists (header : ChunkHeader) (ch' : ChunkHandler),
    ReadChunkHeader ch = Ok (header, ch')
    /\ MessageHeader header
       = Some {| Timestamp := 5; MessageLength := 2; MessageTypeID := 8;
                 MessageStreamID := 1 |}
    /\ ElapsedTime header = 15
    /\ socketr ch' = [xaa].
Proof.
  intros ch.
  destruct (ReadChunkHeader_type1_inherits_stream_id
              x00 x00 x05 x00 x00 x02 x08 [xaa] 3 false ch
              {| BasicHeader := Some {| FMT := 0; ChunkStreamID := 3 |};
                 MessageHeader :=
                   Some {| Timestamp := 10; MessageLength := 1;
                           MessageTypeID := 9; MessageStreamID := 1 |};
                 ExtendedTimestamp := 0;
                 ElapsedTime := 10 |}
              {| Timestamp := 10; MessageLength := 1; MessageTypeID := 9;
                 MessageStreamID := 1 |}
              ltac:(vm_compute; reflexivity) ltac:(vm_compute; reflexivity)
              eq_refl ltac:(vm_compute; discriminate))
    as (header & ch' & Hread & _ & Hmh & Hclock & Hrest & _).
  exists header, ch'. split; [exact Hread |]. split; [exact Hmh |].
  split; [exact Hclock | exact Hrest].
Defined.

(** X6. A type-2 chunk (without extended timestamp) on a chunk stream with
    a previous header takes only the timestamp delta from its 3 header
    bytes; message length, message type and message stream id are those of
    the previous header, and the elapsed time advances by the delta, modulo
    2^32. *)
Theorem ReadChunkHeader_type2_inherits_length_type_stream
    (t0 t1 t2 : byte) (rest : list byte) (csid : Z) (long : bool)
    (ch : ChunkHandler) (prev : ChunkHeader) (pm : ChunkMessageHeader) :
  peekBasicHeader (socketr ch)
  = Some (ChunkType2, csid, long, [t0; t1; t2] ++ rest) ->
  prevChunkHeader ch !! csid = Some prev ->
  MessageHeader prev = Some pm ->
  BigEndianUint24 t0 t1 t2 <> 16777215 ->
  exists (header : ChunkHeader) (ch' : ChunkHandler),
    ReadChunkHeader ch = Ok (header, ch')
    /\ BasicHeader header
       = Some {| FMT := ChunkType2; ChunkStreamID := csid |}
    /\ MessageHeader header
       = Some {| Timestamp := BigEndianUint24 t0 t1 t2;
                 MessageLength := MessageLength pm;
                 MessageTypeID := MessageTypeID pm;
                 MessageStreamID := MessageStreamID pm |}
    /\ ElapsedTime header
       = uint32 (ElapsedTime prev + BigEndianUint24 t0 t1 t2)
    /\ socketr ch' = rest
    /\ prevChunkHeader ch' = <[csid := header]> (prevChunkHeader ch).
Proof.
  intros Hpeek Hprev Hpm Hts.
  pose proof (readBasicHeader_peek zeroChunkHeader ch) as Hbasic.
  rewrite Hpeek in Hbasic.
  set (ch0 := afterBasicHeader long ([t0; t1; t2] ++ rest) ch) in *.
  assert (Hprev0 : prevHeader ch0 csid = prev)
    by (subst ch0; rewrite afterBasicHeader_prev; unfold prevHeader;
        rewrite Hprev; reflexivity).
  assert (Hmh : readMessageHeader
                  (set_BasicHeader
                     {| FMT := ChunkType2; ChunkStreamID := csid |}
                     zeroChunkHeader) ch0
                = Ok (set_MessageHeader
                        {| Timestamp := BigEndianUint24 t0 t1 t2;
                           MessageLength := MessageLength pm;
                           MessageTypeID := MessageTypeID pm;
                           MessageStreamID := MessageStreamID pm |}
                        (set_BasicHeader
                           {| FMT := ChunkType2; ChunkStreamID := csid |}
                           zeroChunkHeader),
                      set_socketr rest ch0)).
  { unfold readMessageHeader. cbn [BasicHeader set_BasicHeader deref].
    rewrite bind_ret. cbn [FMT ChunkStreamID].
    change (ChunkType2 =? ChunkType0) with false.
    change (ChunkType2 =? ChunkType1) with false.
    change (ChunkType2 =? ChunkType2) with true. cbv iota.
    rewrite (bind_Ok _ _ _ _ _
               (ReadFull_Ok 3 [t0; t1; t2] rest ch0
                  (afterBasicHeader_socketr _ _ _) eq_refl)).
    rewrite bind_get.
    change (prevHeader (set_socketr rest ch0) csid) with (prevHeader ch0 csid).
    rewrite Hprev0, Hpm. reflexivity. }
  unfold ReadChunkHeader.
  rewrite (bind_Ok _ _ _ _ _ Hbasic), (bind_Ok _ _ _ _ _ Hmh).
  cbn [MessageHeader set_MessageHeader deref]. rewrite bind_ret.
  cbn [Timestamp].
  destruct (Z.eqb_spec (BigEndianUint24 t0 t1 t2) 16777215) as [Habs | _];
    [contradiction |].
  rewrite bind_ret. cbv iota beta.
  cbn [BasicHeader set_MessageHeader set_BasicHeader deref].
  rewrite bind_ret, bind_get. cbn [FMT ChunkStreamID].
  change (ChunkType2 =? ChunkType0) with false. cbv iota.
  change (prevHeader (set_socketr rest ch0) csid) with (prevHeader ch0 csid).
  rewrite Hprev0.
  eexists _, _. split; [reflexivity |].
  repeat split. cbn. subst ch0. destruct long; reflexivity.
Qed.

Lemma ReadChunkHeader_type2_inherits_length_type_stream_witness :
  let ch := set_socketr [x83; x00; x00; x07; xaa] Scenario.afterType0 in
  exists (header : ChunkHeader) (ch' : ChunkHandler),
    ReadChunkHeader ch = Ok (header, ch')
    /\ MessageHeader header
       = Some {| Timestamp := 7; MessageLength := 1; MessageTypeID := 9;
                 MessageStreamID := 1 |}
    /\ ElapsedTime header = 17
    /\ socketr ch' = [xaa].
Proof.
  intros ch.
  destruct (ReadChunkHeader_type2_inherits_length_type_stream
              x00 x00 x07 [xaa] 3 false ch
              {| BasicHeader := Some {| FMT := 0; ChunkStreamID := 3 |};
                 MessageHeader :=
                   Some {| Timestamp := 10; MessageLength := 1;
                           MessageTypeID := 9; MessageStreamID := 1 |};
                 ExtendedTimestamp := 0;
                 ElapsedTime := 10 |}
              {| Timestamp := 10; MessageLength := 1; MessageTypeID := 9;
                 MessageStreamID := 1 |}
              ltac:(vm_compute; reflexivity) ltac:(vm_compute; reflexivity)
              eq_refl ltac:(vm_compute; discriminate))
    as (header & ch' & Hread & _ & Hmh & Hclock & Hrest & _).
  exists header, ch'. split; [exact Hread |]. split; [exact Hmh |].
  split; [exact Hclock | exact Hrest].
Defined.

(** ** Extended timestamps *)

(** X7. A type-0 chunk whose 3-byte timestamp field is 0xFFFFFF is followed
    by a 4-byte big-endian extended timestamp: [ReadChunkHeader] reads it,
    keeps 0xFFFFFF as the timestamp of the message header, and sets the
    elapsed time of the chunk stream to the extended value, whatever the
    previous header of the chunk stream was. *)
Theorem ReadChunkHeader_type0_extended_timestamp
    (t0 t1 t2 l0 l1 l2 ty s0 s1 s2 s3 e0 e1 e2 e3 : byte) (rest : list byte)
    (csid : Z) (long : bool) (ch : ChunkHandler) :
  peekBasicHeader (socketr ch)
  = Some (ChunkType0, csid, long,
          [t0; t1; t2; l0; l1; l2; ty; s0; s1; s2; s3]
          ++ [e0; e1; e2; e3] ++ rest) ->
  BigEndianUint24 t0 t1 t2 = 16777215 ->
  exists (header : ChunkHeader) (ch' : ChunkHandler),
    ReadChunkHeader ch = Ok (header, ch')
    /\ BasicHeader header
       = Some {| FMT := ChunkType0; ChunkStreamID := csid |}
    /\ MessageHeader header
       = Some {| Timestamp := 16777215;
                 MessageLength := BigEndianUint24 l0 l1 l2;
                 MessageTypeID := byteZ ty;
                 MessageStreamID := LittleEndianUint32 s0 s1 s2 s3 |}
    /\ ExtendedTimestamp header = BigEndianUint32 e0 e1 e2 e3
    /\ ElapsedTime header = BigEndianUint32 e0 e1 e2 e3
    /\ socketr ch' = rest
    /\ prevChunkHeader ch' = <[csid := header]> (prevChunkHeader ch).
Proof.
  intros Hpeek Hts.
  pose proof (readBasicHeader_peek zeroChunkHeader ch) as Hbasic.
  rewrite Hpeek in Hbasic.
  set (ch0 := afterBasicHeader long
                ([t0; t1; t2; l0; l1; l2; ty; s0; s1; s2; s3]
                 ++ [e0; e1; e2; e3] ++ rest) ch) in *.
  assert (Hmh : readMessageHeader
                  (set_BasicHeader
                     {| FMT := ChunkType0; ChunkStreamID := csid |}
                     zeroChunkHeader) ch0
                = Ok (set_MessageHeader
                        {| Timestamp := BigEndianUint24 t0 t1 t2;
                           MessageLength := BigEndianUint24 l0 l1 l2;
                           MessageTypeID := byteZ ty;
                           MessageStreamID := LittleEndianUint32 s0 s1 s2 s3 |}
                        (set_BasicHeader
                           {| FMT := ChunkType0; ChunkStreamID := csid |}
                           zeroChunkHeader),
                      set_socketr ([e0; e1; e2; e3] ++ rest) ch0)).
  { unfold readMessageHeader. cbn [BasicHeader set_BasicHeader deref].
    rewrite bind_ret. cbn [FMT ChunkStreamID].
    change (ChunkType0 =? ChunkType0) with true. cbv iota.
    rewrite (bind_Ok _ _ _ _ _
               (ReadFull_Ok 11 [t0; t1; t2; l0; l1; l2; ty; s0; s1; s2; s3]
                  ([e0; e1; e2; e3] ++ rest) ch0
                  (afterBasicHeader_socketr _ _ _) eq_refl)).
    reflexivity. }
  unfold ReadChunkHeader.
  rewrite (bind_Ok _ _ _ _ _ Hbasic), (bind_Ok _ _ _ _ _ Hmh).
  cbn [MessageHeader set_MessageHeader deref]. rewrite bind_ret.
  cbn [Timestamp]. rewrite Hts. change (16777215 =? 16777215) with true.
  cbv iota.
  assert (Hext : readExtendedTimestamp
                   (set_MessageHeader
                      {| Timestamp := 16777215;
                         MessageLength := BigEndianUint24 l0 l1 l2;
                         MessageTypeID := byteZ ty;
                         MessageStreamID := LittleEndianUint32 s0 s1 s2 s3 |}
                      (set_BasicHeader
                         {| FMT := ChunkType0; ChunkStreamID := csid |}
                         zeroChunkHeader))
                   (set_socketr ([e0; e1; e2; e3] ++ rest) ch0)
                 = Ok (set_ExtendedTimestamp (BigEndianUint32 e0 e1 e2 e3)
                         (set_MessageHeader
                            {| Timestamp := 16777215;
                               MessageLength := BigEndianUint24 l0 l1 l2;
                               MessageTypeID := byteZ ty;
                               MessageStreamID :=
                                 LittleEndianUint32 s0 s1 s2 s3 |}
                            (set_BasicHeader
                               {| FMT := ChunkType0; ChunkStreamID := csid |}
                               zeroChunkHeader)),
                       set_socketr rest ch0)).
  { unfold readExtendedTimestamp.
    rewrite (bind_Ok _ _ _ _ _
               (ReadFull_Ok 4 [e0; e1; e2; e3] rest
                  (set_socketr ([e0; e1; e2; e3] ++ rest) ch0) eq_refl
                  eq_refl)).
    reflexivity. }
  unfold bind at 1. unfold bind at 1. rewrite Hext. cbv iota beta.
  unfold ret at 1. cbv iota beta.
  cbn [BasicHeader set_ExtendedTimestamp set_MessageHeader set_BasicHeader
         deref].
  rewrite bind_ret, bind_get. cbn [FMT ChunkStreamID].
  change (ChunkType0 =? ChunkType0) with true. cbv iota.
  eexists _, _. split; [reflexivity |].
  repeat split. cbn. subst ch0. destruct long; reflexivity.
Qed.

Lemma ReadChunkHeader_type0_extended_timestamp_witness :
  let ch := NewChunkHandler
              ([x03; xff; xff; xff; x00; x00; x01; x09; x01; x00; x00; x00]
               ++ [x01; x00; x00; x02] ++ [xaa]) in
  exists (header : ChunkHeader) (ch' : ChunkHandler),
    ReadChunkHeader ch = Ok (header, ch')
    /\ ExtendedTimestamp header = 16777218
    /\ ElapsedTime header = 16777218
    /\ socketr ch' = [xaa].
Proof.
  intros ch.
  destruct (ReadChunkHeader_type0_extended_timestamp
              xff xff xff x00 x00 x01 x09 x01 x00 x00 x00 x01 x00 x00 x02
              [xaa] 3 false ch eq_refl eq_refl)
    as (header & ch' & Hread & _ & _ & Hext & Hclock & Hrest & _).
  exists header, ch'. split; [exact Hread |].
  split; [exact Hext |]. split; [exact Hclock | exact Hrest].
Defined.

(** ** Reading a message: progress and truncated input *)

(** X8. Reading a message always comes to an end on a finite input: the
    loop of [assembleMessage] reads a chunk header, so at least one byte, on
    every turn, and the bound the model gives it is never reached. When a
    message is returned, input was consumed. *)
Theorem readMessage_consumes_input (ch ch' : ChunkHandler)
    (message : ChunkHeader * list byte) :
  readMessage ch = Ok (message, ch') ->
  (length (socketr ch') < length (socketr ch))%nat
  /\ (forall (header : ChunkHeader) (ch0 : ChunkHandler),
        ReadChunkData header ch0 <> OutOfFuel)
  /\ (forall ch0 : ChunkHandler, readMessage ch0 <> OutOfFuel).
Proof.
  intros Hread. split; [| split].
  - pose proof (reads_readMessage ch) as Hreads.
    rewrite Hread in Hreads. exact Hreads.
  - intros header ch0 Hout.
    pose proof (reads_ReadChunkData header ch0) as Hreads.
    rewrite Hout in Hreads. exact Hreads.
  - intros ch0 Hout.
    pose proof (reads_readMessage ch0) as Hreads.
    rewrite Hout in Hreads. exact Hreads.
Qed.

Lemma readMessage_consumes_input_witness :
  let ch := NewChunkHandler Scenario.type0ThenType3 in
  exists (message : ChunkHeader * list byte) (ch' : ChunkHandler),
    readMessage ch = Ok (message, ch')
    /\ (length (socketr ch') < length (socketr ch))%nat.
Proof.
  intros ch.
  destruct (readMessage ch) as [[message ch'] | | |] eqn:Hread;
    try (vm_compute in Hread; discriminate Hread).
  exists message, ch'. split; [reflexivity |].
  exact (proj1 (readMessage_consumes_input ch ch' message Hread)).
Defined.

(** X9. When the input ends right behind the first chunk of a message that
    is longer than the chunk size, [ReadChunkData] fails with the wrapped
    error of [assembleMessage] around [io.EOF], not with [io.EOF] itself. *)
Theorem ReadChunkData_input_ends_after_first_chunk (header : ChunkHeader)
    (mh : ChunkMessageHeader) (ch : ChunkHandler) :
  MessageHeader header = Some mh ->
  0 <= inChunkSize ch < MessageLength mh ->
  Z.of_nat (length (socketr ch)) = inChunkSize ch ->
  ReadChunkData header ch = Err (ErrAssemble EOF).
Proof.
  intros Hmh Hlong Hlen.
  rewrite (ReadChunkData_long header mh (MessageLength mh) (socketr ch) [] ch
             Hmh eq_refl Hlong (eq_sym (app_nil_r _)) Hlen).
  cbn [assembleLoop length].
  destruct (Z.ltb_spec (inChunkSize ch) (MessageLength mh)); [| lia].
  unfold bind at 1. unfold wrapAssembleError.
  assert (Heof : forall ch0, socketr ch0 = [] -> ReadChunkHeader ch0 = Err EOF).
  { intros ch0 Hs. unfold ReadChunkHeader, readBasicHeader, bind, ReadByte.
    rewrite Hs. reflexivity. }
  rewrite Heof by reflexivity. reflexivity.
Qed.

Lemma ReadChunkData_input_ends_after_first_chunk_witness :
  let header := type0HeaderOf x03 x00 x00 x0a x00 x00 x05 x09 x01 x00 x00 x00 in
  let ch := SetChunkSize 2 (NewChunkHandler [x01; x02]) in
  ReadChunkData header ch = Err (ErrAssemble EOF).
Proof.
  intros header ch.
  apply (ReadChunkData_input_ends_after_first_chunk header
           {| Timestamp := 10; MessageLength := 5; MessageTypeID := 9;
              MessageStreamID := 1 |} ch eq_refl).
  - vm_compute. split; [discriminate | reflexivity].
  - reflexivity.
Defined.

(** ** The chunks written by [send] *)

Lemma slice_length (p : list byte) (lo hi : Z) :
  0 <= lo <= hi -> hi <= Z.of_nat (length p) ->
  Z.of_nat (length (slice p lo hi)) = hi - lo.
Proof.
  intros Hlo Hhi. unfold slice. rewrite length_take, length_drop. lia.
Qed.

Lemma slice_drop (p : list byte) (lo hi : Z) :
  0 <= lo <= hi ->
  slice p lo hi ++ drop (Z.to_nat hi) p = drop (Z.to_nat lo) p.
Proof.
  intros Hlo. unfold slice.
  replace (Z.to_nat hi) with (Z.to_nat lo + Z.to_nat (hi - lo))%nat by lia.
  rewrite <- drop_drop. apply take_drop.
Qed.

Lemma sendLoop_chunks (n : nat) :
  forall (c3 : byte) (c : Z) (p : list byte) (k : Z) (wh : ChunkHandler),
    0 < c ->
    0 <= k <= Z.of_nat (length p) ->
    Z.of_nat (length p) - k <= Z.of_nat n ->
    exists chunks : list (list byte),
      sendLoop n c3 c p k false wh
      = Ok (tt, set_socketw
                  (socketw wh
                   ++ flat_map (fun chunk => [Raw [c3]; Raw chunk]) chunks)
                  wh)
      /\ concat chunks = drop (Z.to_nat k) p
      /\ Forall (fun chunk => 0 < Z.of_nat (length chunk) <= c) chunks
      /\ Z.of_nat (length chunks) * c < Z.of_nat (length p) - k + c
      /\ Z.of_nat (length p) - k <= Z.of_nat (length chunks) * c.
Proof.
  induction n as [| n IH]; intros c3 c p k wh Hc Hk Hn.
  - exists []. rewrite sendLoop_done by lia. cbn [flat_map].
    rewrite set_socketw_same.
    split; [reflexivity |]. split; [| split; [constructor | cbn; lia]].
    cbn. symmetry. apply drop_ge. lia.
  - destruct (Z.eq_dec k (Z.of_nat (length p))) as [Hend | Hmore].
    + exists []. rewrite sendLoop_done by lia. cbn [flat_map].
      rewrite set_socketw_same.
      split; [reflexivity |]. split; [| split; [constructor | cbn; lia]].
      cbn. symmetry. apply drop_ge. lia.
    + rewrite sendLoop_step by lia. cbv zeta.
      set (next := if k + c <? Z.of_nat (length p) then k + c
                   else k + (Z.of_nat (length p) - k)).
      assert (Hnext : k < next <= Z.of_nat (length p) /\ next - k <= c
                      /\ (next = k + c \/ next = Z.of_nat (length p))).
      { subst next. destruct (Z.ltb_spec (k + c) (Z.of_nat (length p))); lia. }
      destruct (IH c3 c p next
                  (set_socketw
                     (socketw wh ++ [Raw [c3]; Raw (slice p k next)]) wh)
                  Hc ltac:(lia) ltac:(lia))
        as (chunks & Hsend & Hconcat & Hall & Hlow & Hhigh).
      exists (slice p k next :: chunks).
      split; [| split; [| split]].
      * rewrite Hsend. cbn [socketw set_socketw flat_map].
        rewrite <- app_assoc. reflexivity.
      * cbn [concat]. rewrite Hconcat. apply slice_drop. lia.
      * constructor; [| exact Hall].
        rewrite slice_length by lia. lia.
      * cbn [length]. rewrite Nat2Z.inj_succ.
        pose proof (Nat2Z.is_nonneg (length chunks)) as Hnonneg.
        destruct Hnext as (Hn1 & Hn2 & [Hn3 | Hn3]).
        -- lia.
        -- assert (Hzero : Z.of_nat (length chunks) = 0).
           { destruct (Z.eq_dec (Z.of_nat (length chunks)) 0) as [Hz | Hz];
               [exact Hz |].
             assert (Hone : 1 * c <= Z.of_nat (length chunks) * c)
               by (apply Z.mul_le_mono_nonneg_r; lia).
             lia. }
           rewrite Hzero. lia.
Qed.

(** X10. What [send] writes for a payload longer than the chunk size (and a
    chunk size above 0): the header, then the payload cut into chunks, the
    first one written as it is and every further one behind the one-byte
    type-3 header with the chunk stream bits of the first header byte. The
    chunks joined are the payload, none is empty or longer than the chunk
    size, and there are as few as the chunk size allows; only the writer
    changes. *)
Theorem send_writes_payload_in_chunks (h0 : byte) (hs payload : list byte)
    (ch : ChunkHandler) :
  0 < outChunkSize ch < Z.of_nat (length payload) ->
  exists chunks : list (list byte),
    send (h0 :: hs) payload ch
    = Ok (tt, set_socketw
                (socketw ch ++ Raw (h0 :: hs)
                 :: framesOf (chunk3HeaderOf h0) chunks) ch)
    /\ concat chunks = payload
    /\ Forall (fun chunk =>
                 0 < Z.of_nat (length chunk) <= outChunkSize ch) chunks
    /\ (Z.of_nat (length chunks) - 1) * outChunkSize ch
       < Z.of_nat (length payload)
       <= Z.of_nat (length chunks) * outChunkSize ch.
Proof.
  intros Hc. set (c := outChunkSize ch) in *.
  unfold send. unfold bind at 1. unfold modify at 1. rewrite bind_get.
  change (outChunkSize (write (Raw (h0 :: hs)) ch)) with c.
  rewrite Z.gtb_ltb.
  destruct (Z.ltb_spec c (Z.of_nat (length payload))) as [_ | Habs]; [| lia].
  fold (chunk3HeaderOf h0).
  assert (Hfuel : exists n : nat, length payload = S n)
    by (exists (Nat.pred (length payload)); lia).
  destruct Hfuel as [n Hn].
  replace (sendLoop (length payload)) with (sendLoop (S n))
    by (rewrite Hn; reflexivity).
  rewrite (sendLoop_first n _ c payload _ ltac:(lia)). cbv zeta.
  destruct (Z.ltb_spec (0 + c) (Z.of_nat (length payload))) as [_ | Habs];
    [| lia].
  rewrite Z.add_0_l.
  match goal with
  | |- context [sendLoop n ?c3 c payload c false ?wh] =>
      destruct (sendLoop_chunks n c3 c payload c wh ltac:(lia) ltac:(lia)
                  ltac:(lia))
        as (chunks & Hsend & Hconcat & Hall & Hlow & Hhigh)
  end.
  exists (slice payload 0 c :: chunks).
  split; [| split; [| split]].
  - rewrite Hsend. unfold write. cbn [socketw set_socketw framesOf].
    rewrite <- !app_assoc. reflexivity.
  - cbn [concat]. rewrite Hconcat.
    rewrite (slice_drop payload 0 c) by lia. reflexivity.
  - constructor; [| exact Hall]. rewrite slice_length by lia. lia.
  - cbn [length]. rewrite Nat2Z.inj_succ. nia.
Qed.

Lemma send_writes_payload_in_chunks_witness :
  let ch := set_outChunkSize 2 (NewChunkHandler []) in
  0 < outChunkSize ch < Z.of_nat (length [x01; x02; x03; x04; x05])
  /\ exists chunks : list (list byte),
       socketw <$> (snd <$> returned'
                      (send [x03; x00] [x01; x02; x03; x04; x05] ch))
       = Some (Raw [x03; x00] :: framesOf xc3 chunks)
       /\ concat chunks = [x01; x02; x03; x04; x05].
Proof.
  intros ch.
  assert (Hc : 0 < outChunkSize ch
               < Z.of_nat (length [x01; x02; x03; x04; x05]))
    by (vm_compute; split; reflexivity).
  split; [exact Hc |].
  destruct (send_writes_payload_in_chunks x03 [x00]
              [x01; x02; x03; x04; x05] ch Hc)
    as (chunks & Hsend & Hconcat & _).
  exists chunks. rewrite Hsend. split; [reflexivity | exact Hconcat].
Defined.

(** X11. With an out chunk size of 0 (a size [sendSetChunkSize] accepts)
    [send] never reports success for a payload that is not empty. While the
    writes succeed, every turn of its loop writes the one-byte type-3
    header, but for the first turn, and an empty chunk, and leaves the count
    of payload bytes written at 0, so no number of turns ends the loop: the
    source can leave it through a failed write only. *)
Theorem send_with_chunk_size_zero_never_succeeds (h0 : byte)
    (hs payload : list byte) (ch : ChunkHandler) :
  outChunkSize ch = 0 ->
  payload <> [] ->
  (forall r : unit * ChunkHandler, send (h0 :: hs) payload ch <> Ok r)
  /\ (forall (fuel : nat) (first : bool) (wh : ChunkHandler),
        sendLoop (S fuel) (chunk3HeaderOf h0) 0 payload 0 first wh
        = sendLoop fuel (chunk3HeaderOf h0) 0 payload 0 false
            (write (Raw [])
               (if first then wh
                else write (Raw [chunk3HeaderOf h0]) wh)))
  /\ (forall (fuel : nat) (first : bool) (wh : ChunkHandler)
        (r : unit * ChunkHandler),
        sendLoop fuel (chunk3HeaderOf h0) 0 payload 0 first wh <> Ok r).
Proof.
  intros Hzero Hpayload.
  assert (Hlen : 0 < Z.of_nat (length payload))
    by (destruct payload; [contradiction | cbn; lia]).
  split; [| split].
  - intros r.
    assert (Hsend : send (h0 :: hs) payload ch = OutOfFuel).
    { unfold send. unfold bind at 1. unfold modify at 1. rewrite bind_get.
      change (outChunkSize (write (Raw (h0 :: hs)) ch))
        with (outChunkSize ch).
      rewrite Hzero, Z.gtb_ltb.
      destruct (Z.ltb_spec 0 (Z.of_nat (length payload))); [| lia].
      apply sendLoop_zero_chunk_size. exact Hlen. }
    rewrite Hsend. discriminate.
  - intros fuel first wh. cbn [sendLoop].
    destruct (Z.ltb_spec 0 (Z.of_nat (length payload))); [| lia].
    unfold bind at 1.
    destruct first; cbn [negb modify ret];
      destruct (Z.ltb_spec (0 + 0) (Z.of_nat (length payload))); try lia;
      unfold bind at 1; cbn [modify]; reflexivity.
  - intros fuel first wh r.
    rewrite (sendLoop_zero_chunk_size fuel _ payload 0 first wh Hlen).
    discriminate.
Qed.

Lemma send_with_chunk_size_zero_never_succeeds_witness :
  let ch := sendSetChunkSize 0 (NewChunkHandler []) in
  outChunkSize ch = 0
  /\ [x01] <> ([] : list byte)
  /\ send [x03] [x01] ch
     <> Ok (tt, write (Raw [x01]) (write (Raw [x03]) ch)).
Proof.
  intros ch.
  assert (Hne : [x01] <> ([] : list byte)) by discriminate.
  split; [reflexivity |]. split; [exact Hne |].
  exact (proj1 (send_with_chunk_size_zero_never_succeeds x03 [] [x01] ch
                  eq_refl Hne) _).
Defined.

(** ** Acknowledgements: the window *)

(** X12. Only the first Window-Ack-Size message of a connection is answered
    with an Acknowledgement: while no Acknowledgement was sent,
    [SetWindowAckSize] writes one with the count of bytes received (0
    included), resets that count and stores the new window; a second call
    only stores its window, and so does a call that follows any further
    update of the count of bytes received. *)
Theorem SetWindowAckSize_acknowledges_once (size size' : Z)
    (ch : ChunkHandler) :
  ackSent ch = false ->
  let ch1 := SetWindowAckSize size ch in
  let ch2 := SetWindowAckSize size' ch1 in
  socketw ch1 = socketw ch ++ [generateAckMessage (bytesReceived ch)]
  /\ bytesReceived ch1 = 0
  /\ ackSent ch1 = true
  /\ windowAckSize ch1 = size
  /\ socketw ch2 = socketw ch1
  /\ bytesReceived ch2 = bytesReceived ch1
  /\ windowAckSize ch2 = size'
  /\ (forall i : Z,
        socketw (SetWindowAckSize size' (updateBytesReceived i ch1))
        = socketw (updateBytesReceived i ch1)).
Proof.
  intros Hsent ch1 ch2. subst ch1 ch2. unfold SetWindowAckSize.
  rewrite Hsent. cbn [negb]. cbn.
  repeat split.
  intros i. unfold updateBytesReceived. cbn.
  destruct (uint32 (0 + i) >=? size); reflexivity.
Qed.

Lemma SetWindowAckSize_acknowledges_once_witness :
  let ch := NewChunkHandler [] in
  ackSent ch = false
  /\ socketw (SetWindowAckSize 2500000 ch) = [generateAckMessage 0]
  /\ socketw (SetWindowAckSize 5000000 (SetWindowAckSize 2500000 ch))
     = [generateAckMessage 0].
Proof.
  intros ch.
  destruct (SetWindowAckSize_acknowledges_once 2500000 5000000 ch eq_refl)
    as (H1 & _ & _ & _ & H2 & _).
  split; [reflexivity |]. split; [exact H1 |]. rewrite H2. exact H1.
Defined.

Lemma updateBytesReceived_cases (i : Z) (ch : ChunkHandler) :
  (windowAckSize ch <= uint32 (bytesReceived ch + i)
   /\ updateBytesReceived i ch
      = sendAck (set_bytesReceived (uint32 (bytesReceived ch + i)) ch))
  \/ (uint32 (bytesReceived ch + i) < windowAckSize ch
      /\ updateBytesReceived i ch
         = set_bytesReceived (uint32 (bytesReceived ch + i)) ch).
Proof.
  unfold updateBytesReceived. cbn.
  destruct (Z.geb_spec (uint32 (bytesReceived ch + i)) (windowAckSize ch));
    [left | right]; split; try reflexivity; lia.
Qed.

(** X13. Under a window above 0 a count of bytes received that starts
    below the window is below it again after every update, however many
    updates there are; the updates write nothing but Acknowledgements, at
    most one per update, each with a count of at least the window, and
    change neither the window nor the input. *)
Theorem updateBytesReceived_keeps_count_below_window (reads : list Z)
    (ch : ChunkHandler) :
  0 < windowAckSize ch ->
  0 <= bytesReceived ch < windowAckSize ch ->
  let ch' := fold_left (fun c i => updateBytesReceived i c) reads ch in
  0 <= bytesReceived ch' < windowAckSize ch
  /\ windowAckSize ch' = windowAckSize ch
  /\ socketr ch' = socketr ch
  /\ exists acks : list Z,
       socketw ch' = socketw ch ++ map generateAckMessage acks
       /\ (length acks <= length reads)%nat
       /\ Forall (fun count => windowAckSize ch <= count < 2 ^ 32) acks.
Proof.
  revert ch. induction reads as [| i reads IH]; intros ch Hwindow Hcount ch'.
  - subst ch'. cbn. repeat split; try lia.
    exists []. cbn. rewrite app_nil_r.
    split; [reflexivity |]. split; [lia | constructor].
  - subst ch'. cbn [fold_left].
    pose proof (uint32_range (bytesReceived ch + i)) as Hrange.
    destruct (updateBytesReceived_cases i ch) as [[Hge Hupd] | [Hlt Hupd]];
      rewrite Hupd.
    + set (ch1 := sendAck
                    (set_bytesReceived (uint32 (bytesReceived ch + i)) ch)).
      destruct (IH ch1 Hwindow ltac:(cbn; lia))
        as (Hc & Hw & Hr & acks & Hacks & Hlen & Hall).
      change (windowAckSize ch1) with (windowAckSize ch) in *.
      split; [exact Hc |]. split; [exact Hw |]. split; [exact Hr |].
      exists (uint32 (bytesReceived ch + i) :: acks).
      split; [| split].
      * rewrite Hacks. cbn. rewrite <- app_assoc. reflexivity.
      * cbn. lia.
      * constructor; [lia | exact Hall].
    + set (ch1 := set_bytesReceived (uint32 (bytesReceived ch + i)) ch).
      destruct (IH ch1 Hwindow ltac:(cbn; lia))
        as (Hc & Hw & Hr & acks & Hacks & Hlen & Hall).
      change (windowAckSize ch1) with (windowAckSize ch) in *.
      split; [exact Hc |]. split; [exact Hw |]. split; [exact Hr |].
      exists acks. split; [exact Hacks |]. split; [cbn; lia | exact Hall].
Qed.

Lemma updateBytesReceived_keeps_count_below_window_witness :
  let ch := set_windowAckSize 100 (NewChunkHandler []) in
  let ch' := fold_left (fun c i => updateBytesReceived i c) [60; 50; 30; 80]
               ch in
  0 < windowAckSize ch
  /\ 0 <= bytesReceived ch < windowAckSize ch
  /\ 0 <= bytesReceived ch' < 100
  /\ socketw ch' = [generateAckMessage 110; generateAckMessage 110].
Proof.
  intros ch ch'.
  assert (Hwindow : 0 < windowAckSize ch) by reflexivity.
  assert (Hcount : 0 <= bytesReceived ch < windowAckSize ch)
    by (vm_compute; split; [discriminate | reflexivity]).
  destruct (updateBytesReceived_keeps_count_below_window [60; 50; 30; 80] ch
              Hwindow Hcount) as (Hc & _).
  split; [exact Hwindow |]. split; [exact Hcount |]. split; [exact Hc |].
  vm_compute. reflexivity.
Defined.

(** ** Acknowledgements: the read path *)

Lemma ReadChunkHeader_count (ch : ChunkHandler) :
  headersComplete ch ->
  ensures ReadChunkHeader ch
    (fun _ ch' =>
       exists (fmt csid : Z) (long : bool) (rest : list byte),
         peekBasicHeader (socketr ch) = Some (fmt, csid, long, rest)
         /\ bytesReceived ch'
            = bytesReceived (afterBasicHeader long rest ch))
    (fun _ => True) True.
Proof.
  intros Hall. unfold ReadChunkHeader.
  apply ensures_bind, readBasicHeader_ensures; [| auto].
  intros fmt csid long rest Hpeek.
  destruct (peekBasicHeader_range _ _ _ _ _ Hpeek) as (Hfmt & _ & _).
  set (ch0 := afterBasicHeader long rest ch).
  apply ensures_bind.
  eapply ensures_weaken;
    [apply (readMessageHeader_ensures
              (set_BasicHeader {| FMT := fmt; ChunkStreamID := csid |}
                 zeroChunkHeader)
              {| FMT := fmt; ChunkStreamID := csid |}
              ch0 True eq_refl Hfmt
              (headersComplete_afterBasicHeader long rest ch Hall));
     auto
    | | auto | auto].
  intros header1 ch1 (mh & -> & _ & Hch1 & _).
  assert (Hcount1 : bytesReceived ch1 = bytesReceived ch0)
    by (rewrite Hch1; reflexivity).
  cbn [MessageHeader set_MessageHeader].
  apply ensures_bind, ensures_deref; [| auto]. intros mh' [= <-].
  apply ensures_bind.
  destruct (Timestamp mh =? 16777215).
  - apply ensures_bind. unfold readExtendedTimestamp.
    apply ensures_bind, ensures_ReadFull; [| auto].
    intros data rest' _ Hlen.
    do 5 (destruct data as [| ? data]; try discriminate Hlen).
    apply ensures_ret, ensures_ret.
    apply ensures_bind, ensures_deref; [| auto]. intros bh _.
    apply ensures_bind, ensures_get.
    apply ensures_bind, ensures_modify, ensures_ret.
    exists fmt, csid, long, rest. split; [exact Hpeek | exact Hcount1].
  - apply ensures_ret.
    apply ensures_bind, ensures_deref; [| auto]. intros bh _.
    apply ensures_bind, ensures_get.
    apply ensures_bind, ensures_modify, ensures_ret.
    exists fmt, csid, long, rest. split; [exact Hpeek | exact Hcount1].
Qed.

(** C8, on the code. The one read that updates [bytesReceived] is the read
    of a three-byte basic header, which adds 2 to the counter itself and
    does not go through [updateBytesReceived]. When a chunk with such a
    header is read and the counter reaches or passes the window, no
    Acknowledgement is written, the counter is not reset and [ackSent] is as
    it was; [updateBytesReceived] with the same 2 bytes on the same handler
    writes the Acknowledgement with the running count, resets the counter
    and sets [ackSent]. *)
Theorem C8_read_reaching_window_writes_no_ack (ch ch' : ChunkHandler)
    (header : ChunkHeader) (fmt csid : Z) (rest : list byte) :
  headersComplete ch ->
  peekBasicHeader (socketr ch) = Some (fmt, csid, true, rest) ->
  ReadChunkHeader ch = Ok (header, ch') ->
  windowAckSize ch <= uint32 (bytesReceived ch + 2) ->
  (bytesReceived ch' = uint32 (bytesReceived ch + 2)
   /\ windowAckSize ch' <= bytesReceived ch'
   /\ socketw ch' = socketw ch
   /\ ackSent ch' = ackSent ch)
  /\ (socketw (updateBytesReceived 2 ch)
      = socketw ch ++ [generateAckMessage (uint32 (bytesReceived ch + 2))]
      /\ bytesReceived (updateBytesReceived 2 ch) = 0
      /\ ackSent (updateBytesReceived 2 ch) = true).
Proof.
  intros Hall Hpeek Hread Hwindow.
  pose proof (ReadChunkHeader_count ch Hall) as Hcount.
  unfold ensures in Hcount. rewrite Hread in Hcount.
  destruct Hcount as (fmt' & csid' & long' & rest' & Hpeek' & Hcount).
  rewrite Hpeek in Hpeek'. injection Hpeek' as <- <- <- <-.
  pose proof (ReadChunkHeader_ensures ch True Hall (fun _ _ _ _ _ _ _ _ => I))
    as Hframe.
  unfold ensures in Hframe. rewrite Hread in Hframe.
  destruct Hframe as (csid0 & _ & _ & Hch' & _).
  assert (Hbytes : bytesReceived ch' = uint32 (bytesReceived ch + 2))
    by (rewrite Hcount; reflexivity).
  assert (Hw : windowAckSize ch' = windowAckSize ch)
    by (rewrite Hch'; reflexivity).
  split.
  - split; [exact Hbytes |]. split; [rewrite Hw, Hbytes; exact Hwindow |].
    split; rewrite Hch'; reflexivity.
  - destruct (updateBytesReceived_at_threshold 2 ch Hwindow)
      as (Hsock & Hzero & Hack & _).
    split; [exact Hsock |]. split; [exact Hzero | exact Hack].
Qed.

Lemma C8_read_reaching_window_writes_no_ack_witness :
  let ch := Window.windowOfTwo in
  windowAckSize ch = 2
  /\ bytesReceived ch = 0
  /\ socketw ch = [generateAckMessage 0]
  /\ (exists (header : ChunkHeader) (ch' : ChunkHandler),
        ReadChunkHeader ch = Ok (header, ch')
        /\ bytesReceived ch' = 2
        /\ socketw ch' = [generateAckMessage 0])
  /\ socketw (updateBytesReceived 2 ch)
     = [generateAckMessage 0; generateAckMessage 2]
  /\ (exists (header : ChunkHeader) (ch' : ChunkHandler),
        ReadChunkHeader Window.firstChunk = Ok (header, ch')
        /\ bytesReceived ch' = 2
        /\ socketw ch' = []
        /\ ackSent ch' = false).
Proof.
  intros ch.
  assert (Hall : forall reader size,
             headersComplete (SetWindowAckSize size (NewChunkHandler reader))).
  { intros reader size csid h Hh. cbn in Hh. rewrite lookup_empty in Hh.
    discriminate. }
  destruct (ReadChunkHeader ch) as [[header ch'] | | |] eqn:Hread;
    try (vm_compute in Hread; discriminate Hread).
  destruct (ReadChunkHeader Window.firstChunk)
    as [[header0 ch0] | | |] eqn:Hread0;
    try (vm_compute in Hread0; discriminate Hread0).
  destruct (C8_read_reaching_window_writes_no_ack ch ch' header 0 65
              [x00; x00; x0a; x00; x00; x01; x09; x01; x00; x00; x00; x11]
              (Hall _ _) eq_refl Hread)
    as ((Hbytes & _ & Hsock & _) & (Hsibling & _));
    [vm_compute; discriminate |].
  destruct (C8_read_reaching_window_writes_no_ack Window.firstChunk ch0
              header0 0 65
              [x00; x00; x0a; x00; x00; x01; x09; x01; x00; x00; x00; x11]
              (headersComplete_NewChunkHandler _) eq_refl Hread0)
    as ((Hbytes0 & _ & Hsock0 & Hack0) & _);
    [vm_compute; discriminate |].
  split; [reflexivity |]. split; [reflexivity |]. split; [reflexivity |].
  split; [exists header, ch'; repeat split; assumption |].
  split; [exact Hsibling |].
  exists header0, ch0. repeat split; assumption.
Defined.

(** * Further properties of the session and of package [amf] *)

(** ** Audio and video messages *)

Section MediaProperties.

Context {C : Type} `{!Context.Store C}.

Implicit Types (w : World C).

(** X14. A callback for an audio or a video message panics only on a
    server-side session without callback, for an AAC or H.264 message whose
    payload has fewer than 2 bytes: a client session, a session with a
    callback and a message of another format or codec never index the
    payload. *)
Theorem media_callbacks_panic_iff (format : audio.Format)
    (codec : video.Codec) (sampleRate sampleSize channels frameType : Z)
    (payload : list byte) (timestamp : Z) w :
  (onAudioMessage format sampleRate sampleSize channels payload timestamp w
   = Panic
   <-> OnAudio (self w) = None /\ isClient (self w) = false
       /\ format = audio.AAC /\ (length payload < 2)%nat)
  /\ (onVideoMessage frameType codec payload timestamp w = Panic
      <-> OnVideo (self w) = None /\ isClient (self w) = false
          /\ codec = video.H264 /\ (length payload < 2)%nat).
Proof.
  unfold onAudioMessage, onVideoMessage. split.
  - destruct (OnAudio (self w)) as [cb |];
      [split; [discriminate | intros (Habs & _); discriminate] |].
    destruct (isClient (self w));
      [split; [discriminate | intros (_ & Habs & _); discriminate] |].
    destruct (Z.eqb_spec format audio.AAC) as [-> | Hne].
    + destruct (Nat.lt_ge_cases (length payload) 2) as [Hshort | Hlong].
      * rewrite (index1_Panic payload Hshort). tauto.
      * destruct (index1_Ok payload Hlong) as [b ->].
        split; [| intros (_ & _ & _ & Habs); lia].
        destruct (audio.AACPacketType b =? audio.AACSequenceHeader);
          discriminate.
    + split; [discriminate | intros (_ & _ & Habs & _); contradiction].
  - destruct (OnVideo (self w)) as [cb |];
      [split; [discriminate | intros (Habs & _); discriminate] |].
    destruct (isClient (self w));
      [split; [discriminate | intros (_ & Habs & _); discriminate] |].
    destruct (Z.eqb_spec codec video.H264) as [-> | Hne].
    + destruct (Nat.lt_ge_cases (length payload) 2) as [Hshort | Hlong].
      * rewrite (index1_Panic payload Hshort). tauto.
      * destruct (index1_Ok payload Hlong) as [b ->].
        split; [| intros (_ & _ & _ & Habs); lia].
        destruct (video.AVCPacketType b =? video.AVCSequenceHeader);
          discriminate.
    + split; [discriminate | intros (_ & _ & Habs & _); contradiction].
Qed.

(** X15. On a server-side session without callback an audio message whose
    payload can be inspected (2 bytes or more, or a format other than AAC)
    is forwarded as it is, with its timestamp, to every subscriber the store
    lists for the stream key of the session, in the order of that list, and
    to nobody when the store knows no such stream. An AAC message with
    packet type 0 is first cached as the AAC sequence header of the stream;
    nothing else is cached. The session itself stays as it was. *)
Theorem onAudioMessage_forwards_payload (format : audio.Format)
    (sampleRate sampleSize channels : Z) (payload : list byte)
    (timestamp : Z) w :
  OnAudio (self w) = None ->
  isClient (self w) = false ->
  format <> audio.AAC \/ (2 <= length payload)%nat ->
  let key := streamKey (self w) in
  let isHeader :=
    (format =? audio.AAC)
    && match payload !! 1%nat with
       | Some b => byteZ b =? 0
       | None => false
       end in
  exists w' : World C,
    onAudioMessage format sampleRate sampleSize channels payload timestamp w
    = Ok w'
    /\ self w' = self w
    /\ context (shared w')
       = (if isHeader
          then Context.SetAacSequenceHeaderForPublisher key payload
                 (context (shared w))
          else context (shared w))
    /\ events w'
       = events w
         ++ (if isHeader then [CalledSetAacSequenceHeader key payload]
             else [])
         ++ match Context.GetSubscribersForStream key (context (shared w'))
            with
            | inl subscribers =>
                map (fun sub =>
                       Sent sub (MessageManager.sendAudio payload timestamp))
                  subscribers
            | inr _ => []
            end.
Proof.
  intros Hcallback Hclient Hinspect key isHeader. subst key isHeader.
  unfold onAudioMessage. rewrite Hcallback, Hclient.
  assert (Hbroadcast : forall (key : string) (w0 : World C),
             let w1 := (BroadcastAudio key payload timestamp w0).1 in
             self w1 = self w0
             /\ shared w1 = shared w0
             /\ events w1
                = events w0
                  ++ match Context.GetSubscribersForStream key
                             (context (shared w0)) with
                     | inl subscribers =>
                         map (fun sub =>
                                Sent sub
                                  (MessageManager.sendAudio payload
                                     timestamp)) subscribers
                     | inr _ => []
                     end).
  { intros key w0. unfold BroadcastAudio.
    destruct (Context.GetSubscribersForStream key (context (shared w0)))
      as [subs | err]; cbn; repeat split. rewrite app_nil_r. reflexivity. }
  destruct (Z.eqb_spec format audio.AAC) as [-> | Hne]; cbn [andb].
  - destruct Hinspect as [Habs | Hlong]; [contradiction |].
    destruct payload as [| b0 [| b1 payload']]; cbn in Hlong; try lia.
    cbn [index1 lookup list_lookup]. unfold audio.AACPacketType,
      audio.AACSequenceHeader.
    cbn [lookup list_lookup].
    change ((b0 :: b1 :: payload') !! 1%nat) with (Some b1).
    destruct (byteZ b1 =? 0).
    + eexists. split; [reflexivity |].
      match goal with
      | |- context [BroadcastAudio ?k _ _ ?w0] =>
          destruct (Hbroadcast k w0) as (Hself & Hshared & Hev)
      end.
      split; [rewrite Hself; reflexivity |].
      split; [rewrite Hshared; reflexivity |].
      rewrite Hev, Hshared. cbn. rewrite <- app_assoc. reflexivity.
    + eexists. split; [reflexivity |].
      match goal with
      | |- context [BroadcastAudio ?k _ _ ?w0] =>
          destruct (Hbroadcast k w0) as (Hself & Hshared & Hev)
      end.
      split; [exact Hself |]. split; [rewrite Hshared; reflexivity |].
      rewrite Hev, Hshared. reflexivity.
  - eexists. split; [reflexivity |].
    match goal with
    | |- context [BroadcastAudio ?k _ _ ?w0] =>
        destruct (Hbroadcast k w0) as (Hself & Hshared & Hev)
    end.
    split; [exact Hself |]. split; [rewrite Hshared; reflexivity |].
    rewrite Hev, Hshared. reflexivity.
Qed.

(** X16. On a server-side session without callback a video message whose
    payload can be inspected (2 bytes or more, or a codec other than H.264)
    is forwarded as it is, with its timestamp, to every subscriber the store
    lists for the stream key of the session, in the order of that list, and
    to nobody when the store knows no such stream. An H.264 message with
    packet type 0 is first cached as the AVC sequence header of the stream;
    nothing else is cached. The session itself stays as it was. *)
Theorem onVideoMessage_forwards_payload (frameType : Z) (codec : video.Codec)
    (payload : list byte) (timestamp : Z) w :
  OnVideo (self w) = None ->
  isClient (self w) = false ->
  codec <> video.H264 \/ (2 <= length payload)%nat ->
  let key := streamKey (self w) in
  let isHeader :=
    (codec =? video.H264)
    && match payload !! 1%nat with
       | Some b => byteZ b =? 0
       | None => false
       end in
  exists w' : World C,
    onVideoMessage frameType codec payload timestamp w = Ok w'
    /\ self w' = self w
    /\ context (shared w')
       = (if isHeader
          then Context.SetAvcSequenceHeaderForPublisher key payload
                 (context (shared w))
          else context (shared w))
    /\ events w'
       = events w
         ++ (if isHeader then [CalledSetAvcSequenceHeader key payload]
             else [])
         ++ match Context.GetSubscribersForStream key (context (shared w'))
            with
            | inl subscribers =>
                map (fun sub =>
                       Sent sub (MessageManager.sendVideo payload timestamp))
                  subscribers
            | inr _ => []
            end.
Proof.
  intros Hcallback Hclient Hinspect key isHeader. subst key isHeader.
  unfold onVideoMessage. rewrite Hcallback, Hclient.
  assert (Hbroadcast : forall (key : string) (w0 : World C),
             let w1 := (BroadcastVideo key payload timestamp w0).1 in
             self w1 = self w0
             /\ shared w1 = shared w0
             /\ events w1
                = events w0
                  ++ match Context.GetSubscribersForStream key
                             (context (shared w0)) with
                     | inl subscribers =>
                         map (fun sub =>
                                Sent sub
                                  (MessageManager.sendVideo payload
                                     timestamp)) subscribers
                     | inr _ => []
                     end).
  { intros key w0. unfold BroadcastVideo.
    destruct (Context.GetSubscribersForStream key (context (shared w0)))
      as [subs | err]; cbn; repeat split. rewrite app_nil_r. reflexivity. }
  destruct (Z.eqb_spec codec video.H264) as [-> | Hne]; cbn [andb].
  - destruct Hinspect as [Habs | Hlong]; [contradiction |].
    destruct payload as [| b0 [| b1 payload']]; cbn in Hlong; try lia.
    cbn [index1 lookup list_lookup]. unfold video.AVCPacketType,
      video.AVCSequenceHeader.
    change ((b0 :: b1 :: payload') !! 1%nat) with (Some b1).
    destruct (byteZ b1 =? 0).
    + eexists. split; [reflexivity |].
      match goal with
      | |- context [BroadcastVideo ?k _ _ ?w0] =>
          destruct (Hbroadcast k w0) as (Hself & Hshared & Hev)
      end.
      split; [rewrite Hself; reflexivity |].
      split; [rewrite Hshared; reflexivity |].
      rewrite Hev, Hshared. cbn. rewrite <- app_assoc. reflexivity.
    + eexists. split; [reflexivity |].
      match goal with
      | |- context [BroadcastVideo ?k _ _ ?w0] =>
          destruct (Hbroadcast k w0) as (Hself & Hshared & Hev)
      end.
      split; [exact Hself |]. split; [rewrite Hshared; reflexivity |].
      rewrite Hev, Hshared. reflexivity.
  - eexists. split; [reflexivity |].
    match goal with
    | |- context [BroadcastVideo ?k _ _ ?w0] =>
        destruct (Hbroadcast k w0) as (Hself & Hshared & Hev)
    end.
    split; [exact Hself |]. split; [rewrite Hshared; reflexivity |].
    rewrite Hev, Hshared. reflexivity.
Qed.

End MediaProperties.

Lemma onAudioMessage_forwards_payload_witness :
  let w := Streaming.publisherWithPlayer in
  OnAudio (self w) = None
  /\ isClient (self w) = false
  /\ (exists w',
        onAudioMessage audio.AAC 3 1 1 Streaming.aacSequenceHeader 7 w = Ok w'
        /\ events w'
           = events w
             ++ [CalledSetAacSequenceHeader "abc" Streaming.aacSequenceHeader;
                 Sent "session-2"
                   (MessageManager.sendAudio Streaming.aacSequenceHeader 7)])
  /\ (exists w',
        onAudioMessage audio.AAC 3 1 1 Streaming.aacFrame 30 w = Ok w'
        /\ context (shared w') = context (shared w)
        /\ events w'
           = events w
             ++ [Sent "session-2"
                   (MessageManager.sendAudio Streaming.aacFrame 30)]).
Proof.
  intros w.
  assert (Hcallback : OnAudio (self w) = None) by reflexivity.
  assert (Hclient : isClient (self w) = false) by reflexivity.
  assert (Hheader : audio.AAC <> audio.AAC
                    \/ (2 <= length Streaming.aacSequenceHeader)%nat)
    by (right; cbn; lia).
  assert (Hframe : audio.AAC <> audio.AAC
                   \/ (2 <= length Streaming.aacFrame)%nat)
    by (right; cbn; lia).
  split; [exact Hcallback |]. split; [exact Hclient |]. split.
  - destruct (onAudioMessage_forwards_payload audio.AAC 3 1 1
                Streaming.aacSequenceHeader 7 w Hcallback Hclient Hheader)
      as (w' & Hrun & _ & Hctx & Hev).
    exists w'. split; [exact Hrun |]. rewrite Hev, Hctx. reflexivity.
  - destruct (onAudioMessage_forwards_payload audio.AAC 3 1 1
                Streaming.aacFrame 30 w Hcallback Hclient Hframe)
      as (w' & Hrun & _ & Hctx & Hev).
    exists w'. split; [exact Hrun |]. split; [exact Hctx |].
    rewrite Hev, Hctx. reflexivity.
Defined.

Lemma onVideoMessage_forwards_payload_witness :
  let w := Streaming.publisherWithPlayer in
  OnVideo (self w) = None
  /\ isClient (self w) = false
  /\ (exists w',
        onVideoMessage 1 video.H264 Scenario.avcSequenceHeader 0 w = Ok w'
        /\ events w'
           = events w
             ++ [CalledSetAvcSequenceHeader "abc" Scenario.avcSequenceHeader;
                 Sent "session-2"
                   (MessageManager.sendVideo Scenario.avcSequenceHeader 0)])
  /\ (exists w',
        onVideoMessage 1 video.H264 Scenario.keyFrame 40 w = Ok w'
        /\ context (shared w') = context (shared w)
        /\ events w'
           = events w
             ++ [Sent "session-2"
                   (MessageManager.sendVideo Scenario.keyFrame 40)]).
Proof.
  intros w.
  assert (Hcallback : OnVideo (self w) = None) by reflexivity.
  assert (Hclient : isClient (self w) = false) by reflexivity.
  assert (Hheader : video.H264 <> video.H264
                    \/ (2 <= length Scenario.avcSequenceHeader)%nat)
    by (right; cbn; lia).
  assert (Hframe : video.H264 <> video.H264
                   \/ (2 <= length Scenario.keyFrame)%nat)
    by (right; cbn; lia).
  split; [exact Hcallback |]. split; [exact Hclient |]. split.
  - destruct (onVideoMessage_forwards_payload 1 video.H264
                Scenario.avcSequenceHeader 0 w Hcallback Hclient Hheader)
      as (w' & Hrun & _ & Hctx & Hev).
    exists w'. split; [exact Hrun |]. rewrite Hev, Hctx. reflexivity.
  - destruct (onVideoMessage_forwards_payload 1 video.H264
                Scenario.keyFrame 40 w Hcallback Hclient Hframe)
      as (w' & Hrun & _ & Hctx & Hev).
    exists w'. split; [exact Hrun |]. split; [exact Hctx |].
    rewrite Hev, Hctx. reflexivity.
Defined.

(** ** Metadata lookups *)

Lemma EqualFold_foldCase (s t : string) :
  amf.EqualFold s t = true <-> foldCase s = foldCase t.
Proof.
  revert t. induction s as [| a s IH]; intros [| b t]; cbn;
    try (split; [reflexivity || discriminate | reflexivity || discriminate]).
  destruct (Ascii.eqb_spec (amf.lower a) (amf.lower b)) as [Heq | Hne].
  - rewrite IH. rewrite Heq. split; [intros ->; reflexivity |].
    intros H. injection H as H. exact H.
  - split; [discriminate |]. intros H. injection H as H _. contradiction.
Qed.

Lemma EqualFold_same_key (k key key' : string) :
  amf.EqualFold key key' = true ->
  amf.EqualFold k key = amf.EqualFold k key'.
Proof.
  intros Hfold. apply EqualFold_foldCase in Hfold.
  destruct (amf.EqualFold k key) eqn:Hk.
  - symmetry. apply EqualFold_foldCase. apply EqualFold_foldCase in Hk.
    congruence.
  - destruct (amf.EqualFold k key') eqn:Hk'; [| reflexivity].
    apply EqualFold_foldCase in Hk'.
    assert (Habs : amf.EqualFold k key = true)
      by (apply EqualFold_foldCase; congruence).
    congruence.
Qed.

(** One visit of the map answers two keys alike when they differ in case
    only. *)
Lemma Get_same_fold (m : amf.Metadata) (key key' : string) :
  amf.EqualFold key key' = true -> amf.Get m key = amf.Get m key'.
Proof.
  intros Hfold. induction m as [| [k v] m IH]; [reflexivity |].
  cbn. rewrite (EqualFold_same_key k key key' Hfold), IH. reflexivity.
Qed.

Lemma Get_matching (m : amf.Metadata) (key : string) :
  amf.Get m key = hd amf.anyNil (matching m key).
Proof.
  unfold matching. induction m as [| [k v] m IH]; [reflexivity |].
  cbn [amf.Get]. rewrite filter_cons. cbn [fst].
  destruct (amf.EqualFold k key) eqn:Hk.
  - rewrite decide_True by reflexivity. reflexivity.
  - rewrite decide_False by discriminate. exact IH.
Qed.

Lemma matching_In (m : amf.Metadata) (key : string) (v : amf.any) :
  In v (matching m key)
  <-> exists k, In (k, v) m /\ amf.EqualFold k key = true.
Proof.
  unfold matching. rewrite in_map_iff. split.
  - intros ([k v'] & Hv & Hin). cbn in Hv. subst v'.
    apply list_elem_of_In, list_elem_of_filter in Hin.
    destruct Hin as [Hk Hin]. exists k.
    split; [apply list_elem_of_In; exact Hin | exact Hk].
  - intros (k & Hin & Hk). exists (k, v). split; [reflexivity |].
    apply list_elem_of_In, list_elem_of_filter.
    split; [exact Hk | apply list_elem_of_In; exact Hin].
Qed.

Lemma Get_permutation (m m' : amf.Metadata) (key : string) :
  Permutation m m' ->
  (forall k1 v1 k2 v2,
      In (k1, v1) m -> In (k2, v2) m ->
      amf.EqualFold k1 key = true -> amf.EqualFold k2 key = true ->
      v1 = v2) ->
  amf.Get m key = amf.Get m' key.
Proof.
  intros Hperm Hsame. rewrite !Get_matching.
  assert (Hin : forall v, In v (matching m key) <-> In v (matching m' key)).
  { intros v. rewrite !matching_In.
    split; intros (k & Hk & Hfold); exists k; (split; [| exact Hfold]).
    - eapply Permutation_in; [exact Hperm | exact Hk].
    - eapply Permutation_in; [symmetry; exact Hperm | exact Hk]. }
  destruct (matching m key) as [| v l] eqn:Hm;
    destruct (matching m' key) as [| v' l'] eqn:Hm'.
  - reflexivity.
  - exfalso. apply (proj2 (Hin v')). left. reflexivity.
  - exfalso. apply (proj1 (Hin v)). left. reflexivity.
  - cbn. assert (Hv : In v (matching m key)) by (rewrite Hm; left; reflexivity).
    assert (Hv' : In v' (matching m key))
      by (rewrite Hm; apply Hin; left; reflexivity).
    apply matching_In in Hv as (k1 & Hin1 & Hfold1).
    apply matching_In in Hv' as (k2 & Hin2 & Hfold2).
    exact (Hsame k1 v k2 v' Hin1 Hin2 Hfold1 Hfold2).
Qed.

(** X17. [Get] and [GetString] look a key up without regard to the case
    of its letters. Two lookups, each with its own visiting order of the
    same map, for two ASCII keys that differ in case only, give the same
    result, as long as the keys of the map are ASCII and those that match
    without regard to case all hold the same value. *)
Theorem Get_ignores_case_of_key (m m' : amf.Metadata) (key key' : string) :
  Permutation m m' ->
  isASCII key = true ->
  isASCII key' = true ->
  Forall (fun kv => isASCII kv.1 = true) m ->
  amf.EqualFold key key' = true ->
  (forall k1 v1 k2 v2,
      In (k1, v1) m -> In (k2, v2) m ->
      amf.EqualFold k1 key = true -> amf.EqualFold k2 key = true ->
      v1 = v2) ->
  amf.Get m key = amf.Get m' key'
  /\ amf.GetString m key = amf.GetString m' key'.
Proof.
  intros Hperm _ _ _ Hfold Hsame.
  assert (Hget : amf.Get m key = amf.Get m' key').
  { rewrite (Get_permutation m m' key Hperm Hsame).
    apply Get_same_fold. exact Hfold. }
  split; [exact Hget |]. unfold amf.GetString. rewrite Hget. reflexivity.
Qed.

Lemma Get_ignores_case_of_key_witness :
  Permutation Scenario.connectObject (rev Scenario.connectObject)
  /\ amf.EqualFold "APP" "app" = true
  /\ amf.Get (rev Scenario.connectObject) "app" = amf.anyString "app"
  /\ amf.GetString (rev Scenario.connectObject) "app"
     = ("app"%string, true).
Proof.
  assert (Hperm : Permutation Scenario.connectObject
                    (rev Scenario.connectObject))
    by apply Permutation_rev.
  assert (Hkeys : Forall (fun kv : string * amf.any => isASCII kv.1 = true)
                    Scenario.connectObject)
    by (repeat constructor).
  assert (Hsame : forall k1 v1 k2 v2,
             In (k1, v1) Scenario.connectObject ->
             In (k2, v2) Scenario.connectObject ->
             amf.EqualFold k1 "APP" = true ->
             amf.EqualFold k2 "APP" = true ->
             v1 = v2).
  { intros k1 v1 k2 v2 Hin1 Hin2 Hfold1 Hfold2.
    cbn in Hin1, Hin2.
    destruct Hin1 as [H1 | [H1 | [H1 | [H1 | []]]]]; inversion H1; subst;
      try discriminate;
      destruct Hin2 as [H2 | [H2 | [H2 | [H2 | []]]]]; inversion H2; subst;
        try discriminate; reflexivity. }
  destruct (Get_ignores_case_of_key Scenario.connectObject
              (rev Scenario.connectObject) "APP" "app" Hperm eq_refl eq_refl
              Hkeys eq_refl Hsame) as [Hget Hstring].
  split; [exact Hperm |]. split; [reflexivity |].
  split; [rewrite <- Hget; reflexivity | rewrite <- Hstring; reflexivity].
Defined.

(** X18. The order in which the map is visited does not show in the result
    of [Get] as long as the keys that match without regard to case all hold
    the same value: two visiting orders of the same entries then give the
    same result. *)
Theorem Get_order_independent (m m' : amf.Metadata) (key : string) :
  Permutation m m' ->
  (forall k1 v1 k2 v2,
      In (k1, v1) m -> In (k2, v2) m ->
      amf.EqualFold k1 key = true -> amf.EqualFold k2 key = true ->
      v1 = v2) ->
  amf.Get m key = amf.Get m' key.
Proof. exact (Get_permutation m m' key). Qed.

Lemma Get_order_independent_witness :
  let m := [("tcUrl"%string, amf.anyString "rtmp://host/app");
            ("app"%string, amf.anyString "app");
            ("APP"%string, amf.anyString "app")] in
  Permutation Scenario.connectObject (rev Scenario.connectObject)
  /\ amf.Get (rev Scenario.connectObject) "app" = amf.anyString "app"
  /\ amf.Get (rev m) "app" = amf.Get m "app".
Proof.
  intros m.
  assert (Hperm : Permutation Scenario.connectObject
                    (rev Scenario.connectObject))
    by apply Permutation_rev.
  split; [exact Hperm |]. split.
  - rewrite <- (Get_order_independent Scenario.connectObject
                  (rev Scenario.connectObject) "app" Hperm);
      [reflexivity |].
    intros k1 v1 k2 v2 Hin1 Hin2 Hfold1 Hfold2.
    cbn in Hin1, Hin2.
    destruct Hin1 as [H1 | [H1 | [H1 | [H1 | []]]]]; inversion H1; subst;
      try discriminate;
      destruct Hin2 as [H2 | [H2 | [H2 | [H2 | []]]]]; inversion H2; subst;
        try discriminate; reflexivity.
  - symmetry. apply Get_order_independent; [apply Permutation_rev |].
    intros k1 v1 k2 v2 Hin1 Hin2 Hfold1 Hfold2.
    cbn in Hin1, Hin2.
    destruct Hin1 as [H1 | [H1 | [H1 | []]]]; inversion H1; subst;
      try discriminate;
      destruct Hin2 as [H2 | [H2 | [H2 | []]]]; inversion H2; subst;
        try discriminate; reflexivity.
Defined.

(** X19. A map with two keys that differ in case only and hold different
    values has no fixed result: [Get] returns the value of whichever of the
    two keys is visited first. *)
Theorem Get_depends_on_order (k1 k2 key : string) (v1 v2 : amf.any) :
  k1 <> k2 ->
  amf.EqualFold k1 key = true ->
  amf.EqualFold k2 key = true ->
  v1 <> v2 ->
  amf.Get [(k1, v1); (k2, v2)] key = v1
  /\ amf.Get [(k2, v2); (k1, v1)] key = v2
  /\ amf.Get [(k1, v1); (k2, v2)] key <> amf.Get [(k2, v2); (k1, v1)] key.
Proof.
  intros _ Hfold1 Hfold2 Hne. cbn. rewrite Hfold1, Hfold2.
  repeat split. exact Hne.
Qed.

Lemma Get_depends_on_order_witness :
  amf.Get [("app"%string, amf.anyString "live");
           ("App"%string, amf.anyString "other")] "app"
  <> amf.Get [("App"%string, amf.anyString "other");
              ("app"%string, amf.anyString "live")] "app".
Proof.
  apply (Get_depends_on_order "app" "App" "app" (amf.anyString "live")
           (amf.anyString "other"));
    [discriminate | reflexivity | reflexivity | discriminate].
Defined.

(** ** The end of a session *)

Section TeardownProperties.

Context {C : Type} `{!Context.Store C}.

Implicit Types (w : World C).

(** X20. A fresh session that is told to publish and then ends. When the
    guard turns the publish down, the end of the session does nothing at
    all: the store is not touched, nobody is told, and the guard is not
    told of the end either. Otherwise the subscribers the store lists for
    the key are sent NetStream.Play.Stop in the order of the list, the
    store sees [DestroyPublisher] for the key after the [RegisterPublisher]
    of the publish command, and the guard is told of the end exactly when
    there is one. *)
Theorem publish_then_end (transactionId : Z) (key publishingType : string)
    w :
  isPlayer (self w) = false ->
  isPublisher (self w) = false ->
  let w1 := onPublish transactionId key publishingType w in
  let denied :=
    match GetSessionGuard (shared w) with
    | Some guard =>
        negb (Check guard
                (set_publishingType publishingType
                   (set_streamKey key (self w))))
    | None => false
    end in
  let registered :=
    (Context.RegisterPublisher key (context (shared w))).1 in
  if denied then startDeferred w1 = (w1, false)
  else
    (startDeferred w1).2
    = (if GetSessionGuard (shared w) is Some _ then true else false)
    /\ context (shared (startDeferred w1).1)
       = (Context.DestroyPublisher key registered).1
    /\ events (startDeferred w1).1
       = events w1
         ++ match Context.GetSubscribersForStream key registered with
            | inl subscribers =>
                map (fun sub =>
                       Sent sub
                         (MessageManager.sendStatusMessage "status"
                            "NetStream.Play.Stop" "Stopped playing stream."
                            []))
                  subscribers
            | inr _ => []
            end.
Proof.
  intros Hplayer Hpublisher w1 denied registered.
  subst w1 denied registered. unfold onPublish. cbv zeta.
  change (GetSessionGuard
            (shared
               (set_self
                  (set_publishingType publishingType
                     (self (set_self (set_streamKey key (self w)) w)))
                  (set_self (set_streamKey key (self w)) w))))
    with (GetSessionGuard (shared w)).
  change (self
            (set_self
               (set_publishingType publishingType
                  (self (set_self (set_streamKey key (self w)) w)))
               (set_self (set_streamKey key (self w)) w)))
    with (set_publishingType publishingType (set_streamKey key (self w))).
  destruct (match GetSessionGuard (shared w) with
            | Some guard =>
                negb (Check guard
                        (set_publishingType publishingType
                           (set_streamKey key (self w))))
            | None => false
            end) eqn:Hdenied.
  - unfold startDeferred. cbn. rewrite Hplayer. cbn. rewrite Hpublisher.
    reflexivity.
  - unfold startDeferred, RegisterPublisher, DestroyPublisher,
      BroadcastEndOfStream, GetSessionGuard. cbn.
    destruct (Context.RegisterPublisher key (context (shared w)))
      as [c err] eqn:Hregister. cbn. rewrite Hplayer. cbn.
    destruct (Context.GetSubscribersForStream key c) as [subs | e] eqn:Hsubs;
      cbn; rewrite ?Hsubs;
      destruct (Context.DestroyPublisher key c) as [c' err'] eqn:Hdestroy;
      cbn; destruct (sessionGuard (shared w)) as [guard |]; cbn;
      rewrite ?app_nil_r; repeat split.
Qed.

(** X21. A fresh session that is told to play and then ends. When the
    stream exists, the store sees [DestroySubscriber] for the key and the
    id of the session after the [RegisterSubscriber] of the play command;
    when it does not, the store is left as it was. In both cases the end of
    the session sends nothing and does not call the guard. *)
Theorem play_then_end (key : string) (startTime : Z) w :
  isPlayer (self w) = false ->
  isPublisher (self w) = false ->
  let w1 := onPlay key startTime w in
  (startDeferred w1).2 = false
  /\ events (startDeferred w1).1 = events w1
  /\ context (shared (startDeferred w1).1)
     = (if StreamExists key w
        then (Context.DestroySubscriber key (id (self w))
                (Context.RegisterSubscriber key (id (self w))
                   (context (shared w))).1).1
        else context (shared w)).
Proof.
  intros Hplayer Hpublisher w1. subst w1. unfold onPlay. cbv zeta.
  change (StreamExists key (set_self (set_streamKey key (self w)) w))
    with (StreamExists key w).
  destruct (StreamExists key w) eqn:Hexists; cbn [negb].
  - unfold startDeferred, RegisterSubscriber, DestroySubscriber,
      GetAvcSequenceHeaderForPublisher, GetAacSequenceHeaderForPublisher.
    cbn.
    destruct (Context.GetAvcSequenceHeaderForPublisher key
                (context (shared w))) as [avc |]; cbn;
      destruct (Context.GetAacSequenceHeaderForPublisher key
                  (context (shared w))) as [aac |]; cbn;
      destruct (Context.RegisterSubscriber key (id (self w))
                  (context (shared w))) as [c err]; cbn;
      destruct (Context.DestroySubscriber key (id (self w)) c)
        as [c' err']; cbn; rewrite Hpublisher; repeat split.
  - unfold startDeferred. cbn. rewrite Hplayer. cbn. rewrite Hpublisher.
    repeat split.
Qed.

(** X22. A session that publishes and is then told to play takes the key
    of the play command as its stream key, so its end works on that key
    and not on the key it publishes under: NetStream.Play.Stop goes to the
    subscribers of the played key and [DestroyPublisher] is called for the
    played key, after [DestroySubscriber] for that key when the session
    counts as a player. *)
Theorem publisher_that_plays_ends_played_key (key : string) (startTime : Z)
    w :
  isPublisher (self w) = true ->
  let w1 := onPlay key startTime w in
  let c1 := context (shared w1) in
  let c2 :=
    if isPlayer (self w) || StreamExists key w
    then (Context.DestroySubscriber key (id (self w)) c1).1
    else c1 in
  streamKey (self w1) = key
  /\ context (shared (startDeferred w1).1)
     = (Context.DestroyPublisher key c2).1
  /\ events (startDeferred w1).1
     = events w1
       ++ match Context.GetSubscribersForStream key c2 with
          | inl subscribers =>
              map (fun sub =>
                     Sent sub
                       (MessageManager.sendStatusMessage "status"
                          "NetStream.Play.Stop" "Stopped playing stream."
                          []))
                subscribers
          | inr _ => []
          end.
Proof.
  intros Hpublisher w1 c1 c2.
  assert (Hkey : streamKey (self w1) = key).
  { subst w1. unfold onPlay. cbv zeta.
    destruct (negb (StreamExists key
                      (set_self (set_streamKey key (self w)) w)));
      [reflexivity |].
    unfold RegisterSubscriber, GetAvcSequenceHeaderForPublisher,
      GetAacSequenceHeaderForPublisher. cbn.
    destruct (Context.GetAvcSequenceHeaderForPublisher key
                (context (shared w))); cbn;
      destruct (Context.GetAacSequenceHeaderForPublisher key
                  (context (shared w))); cbn;
      destruct (Context.RegisterSubscriber key (id (self w))
                  (context (shared w))); reflexivity. }
  assert (Hid : id (self w1) = id (self w)).
  { subst w1. unfold onPlay. cbv zeta.
    destruct (negb (StreamExists key
                      (set_self (set_streamKey key (self w)) w)));
      [reflexivity |].
    unfold RegisterSubscriber, GetAvcSequenceHeaderForPublisher,
      GetAacSequenceHeaderForPublisher. cbn.
    destruct (Context.GetAvcSequenceHeaderForPublisher key
                (context (shared w))); cbn;
      destruct (Context.GetAacSequenceHeaderForPublisher key
                  (context (shared w))); cbn;
      destruct (Context.RegisterSubscriber key (id (self w))
                  (context (shared w))); reflexivity. }
  assert (Hpub : isPublisher (self w1) = true).
  { subst w1. unfold onPlay. cbv zeta.
    destruct (negb (StreamExists key
                      (set_self (set_streamKey key (self w)) w)));
      [exact Hpublisher |].
    unfold RegisterSubscriber, GetAvcSequenceHeaderForPublisher,
      GetAacSequenceHeaderForPublisher. cbn.
    destruct (Context.GetAvcSequenceHeaderForPublisher key
                (context (shared w))); cbn;
      destruct (Context.GetAacSequenceHeaderForPublisher key
                  (context (shared w))); cbn;
      destruct (Context.RegisterSubscriber key (id (self w))
                  (context (shared w))); exact Hpublisher. }
  assert (Hplay : isPlayer (self w1)
                  = isPlayer (self w) || StreamExists key w).
  { subst w1. unfold onPlay. cbv zeta.
    change (StreamExists key (set_self (set_streamKey key (self w)) w))
      with (StreamExists key w).
    destruct (StreamExists key w); cbn [negb];
      [| cbn; rewrite orb_false_r; reflexivity].
    unfold RegisterSubscriber, GetAvcSequenceHeaderForPublisher,
      GetAacSequenceHeaderForPublisher. cbn.
    destruct (Context.GetAvcSequenceHeaderForPublisher key
                (context (shared w))); cbn;
      destruct (Context.GetAacSequenceHeaderForPublisher key
                  (context (shared w))); cbn;
      destruct (Context.RegisterSubscriber key (id (self w))
                  (context (shared w))); cbn; rewrite orb_true_r;
      reflexivity. }
  split; [exact Hkey |].
  subst c2 c1. rewrite <- Hplay. clearbody w1. clear Hplay. subst key.
  unfold startDeferred, DestroySubscriber, DestroyPublisher,
    BroadcastEndOfStream, GetSessionGuard.
  rewrite Hid.
  destruct (isPlayer (self w1)).
  - destruct (Context.DestroySubscriber (streamKey (self w1)) (id (self w))
                (context (shared w1))) as [c err]; cbn.
    rewrite Hpub.
    destruct (Context.GetSubscribersForStream (streamKey (self w1)) c)
      as [subs | e]; cbn;
      destruct (Context.DestroyPublisher (streamKey (self w1)) c)
        as [c' err']; cbn;
      destruct (sessionGuard (shared w1)); cbn; rewrite ?app_nil_r;
      split; reflexivity.
  - rewrite Hpub.
    destruct (Context.GetSubscribersForStream (streamKey (self w1))
                (context (shared w1))) as [subs | e]; cbn;
      destruct (Context.DestroyPublisher (streamKey (self w1))
                  (context (shared w1))) as [c' err']; cbn;
      destruct (sessionGuard (shared w1)); cbn; rewrite ?app_nil_r;
      split; reflexivity.
Qed.

End TeardownProperties.

Lemma publish_then_end_witness :
  let w := Scenario.join "session-3" Streaming.player in
  let w1 := onPublish 2 "abc" "live" w in
  isPlayer (self w) = false
  /\ isPublisher (self w) = false
  /\ (startDeferred w1).2 = false
  /\ StreamExists "abc" w = true
  /\ StreamExists "abc" (startDeferred w1).1 = false
  /\ events (startDeferred w1).1
     = events w1
       ++ [Sent "session-2"
             (MessageManager.sendStatusMessage "status" "NetStream.Play.Stop"
                "Stopped playing stream." [])]
  /\ startDeferred (onPublish 1 "live" "live" Scenario.guarded)
     = (onPublish 1 "live" "live" Scenario.guarded, false).
Proof.
  intros w w1. subst w1.
  assert (Hplayer : isPlayer (self w) = false) by reflexivity.
  assert (Hpublisher : isPublisher (self w) = false) by reflexivity.
  destruct (publish_then_end 2 "abc" "live" w Hplayer Hpublisher)
    as (Hend & Hctx & Hev).
  split; [exact Hplayer |]. split; [exact Hpublisher |].
  split; [exact Hend |]. split; [reflexivity |].
  split; [unfold StreamExists; rewrite Hctx; reflexivity |].
  split; [exact Hev |].
  exact (publish_then_end 1 "live" "live" Scenario.guarded eq_refl eq_refl).
Defined.

Lemma play_then_end_witness :
  let w := Scenario.join "session-2" Streaming.publisher in
  let w1 := onPlay "abc" 0 w in
  let nobody := Scenario.emptyWorld "session-9" in
  isPlayer (self w) = false
  /\ isPublisher (self w) = false
  /\ InMemory.GetSubscribersForStream "abc" (context (shared w1))
     = inl ["session-2"]
  /\ InMemory.GetSubscribersForStream "abc"
       (context (shared (startDeferred w1).1))
     = inl []
  /\ events (startDeferred w1).1 = events w1
  /\ context (shared (startDeferred (onPlay "nope" 0 nobody)).1)
     = context (shared nobody).
Proof.
  intros w w1 nobody. subst w1.
  assert (Hplayer : isPlayer (self w) = false) by reflexivity.
  assert (Hpublisher : isPublisher (self w) = false) by reflexivity.
  destruct (play_then_end "abc" 0 w Hplayer Hpublisher)
    as (_ & Hev & Hctx).
  destruct (play_then_end "nope" 0 nobody eq_refl eq_refl)
    as (_ & _ & Hnobody).
  split; [exact Hplayer |]. split; [exact Hpublisher |].
  split; [reflexivity |].
  split; [rewrite Hctx; reflexivity |].
  split; [exact Hev | exact Hnobody].
Defined.

Lemma publisher_that_plays_ends_played_key_witness :
  let w := Streaming.publisherWithPlayer in
  let w1 := onPlay "nope" 0 w in
  isPublisher (self w) = true
  /\ streamKey (self w) = "abc"%string
  /\ streamKey (self w1) = "nope"%string
  /\ StreamExists "abc" (startDeferred w1).1 = true
  /\ InMemory.GetSubscribersForStream "abc"
       (context (shared (startDeferred w1).1))
     = inl ["session-2"]
  /\ events (startDeferred w1).1 = events w1.
Proof.
  intros w w1. subst w1.
  assert (Hpublisher : isPublisher (self w) = true) by reflexivity.
  destruct (publisher_that_plays_ends_played_key "nope" 0 w Hpublisher)
    as (Hkey & Hctx & Hev).
  split; [exact Hpublisher |]. split; [reflexivity |].
  split; [exact Hkey |].
  split; [unfold StreamExists; rewrite Hctx; reflexivity |].
  split; [rewrite Hctx; reflexivity |].
  rewrite Hev. apply app_nil_r.
Defined.
